(** * gnapsis benchmark harness: run orchestrator, quality judge, aggregator

    A shallow embedding of [bench/run.py], [bench/judge.py] and
    [bench/analyze.py], and the properties of the harness established on it.

    Modelling conventions.
    - Text is Python [str] restricted to the code points U+0000..U+00FF: a
      Rocq [string] is read as the sequence of its characters' code points.
      On that range [str.lower], [str.strip], and the regular-expression
      classes [\s] and [\d] are the tables given below.
    - JSON documents are values of the inductive type [json]; a JSON object
      is an association list in insertion order, as a Python [dict].
    - Python [int] is [Z]; Python [float] is idealised as an exact rational
      [Q] (neither the rounding to binary64 nor its range is modelled).
    - Python [int] conversion of a digit string is unbounded (the
      interpreter's limit on the length of such strings is not modelled).
    - An uncaught Python exception is the [Raise] outcome of the result type
      [res].  The text printed to standard output is not modelled; where the
      expressions of a printed line can raise, their evaluation is.
    - The external [claude] process is a scripted oracle: the n-th
      invocation yields the n-th outcome (a timeout, or an exit code with the
      captured standard output and standard error).
    - The standard library's [json.loads], [round] and the square root used
      by [statistics.stdev] are operations of the class [PyLib].
    - The results directory exists and can be written to, and the file
      system's limit on the length of a name is not modelled: writing a file
      whose name is a single path component succeeds.  What opening another
      name does depends on the directories around the results directory and
      is the operation [locate] of the class [PyLib]. *)

From Stdlib Require Import ZArith QArith Lqa Ascii String List Bool Lia.
From Stdlib Require Import Sorted Permutation.
From stdpp Require Import base option list strings gmap pretty.

Local Open Scope Z_scope.

(** ** Characters and strings *)

Module Str.

Definition ord (c : ascii) : N := N_of_ascii c.

(** [Py_UNICODE_ISSPACE] on U+0000..U+00FF: used by [str.strip] and by the
    class [\s] of a [str] pattern. *)
Definition isspace (c : ascii) : bool :=
  let n := ord c in
  ((9 <=? n) && (n <=? 13) || (28 <=? n) && (n <=? 32)
   || (n =? 133) || (n =? 160))%N.

(** The class [\d] of a [str] pattern on U+0000..U+00FF. *)
Definition isdigit (c : ascii) : bool :=
  let n := ord c in ((48 <=? n) && (n <=? 57))%N.

(** The characters [str.lower] changes on U+0000..U+00FF: A to Z, and
    U+00C0 to U+00DE without the multiplication sign U+00D7. *)
Definition isupper (c : ascii) : bool :=
  let n := ord c in
  ((65 <=? n) && (n <=? 90)
   || (192 <=? n) && (n <=? 222) && negb (n =? 215))%N.

Definition lower_char (c : ascii) : ascii :=
  if isupper c then ascii_of_N (ord c + 32) else c.

(** [s.lower()] *)
Fixpoint lower (s : string) : string :=
  match s with
  | EmptyString => EmptyString
  | String c r => String (lower_char c) (lower r)
  end.

(** [s.startswith(p)] *)
Fixpoint startswith (p s : string) : bool :=
  match p, s with
  | EmptyString, _ => true
  | String a p', String b s' => if Ascii.eqb a b then startswith p' s' else false
  | String _ _, EmptyString => false
  end.

(** [needle in hay] *)
Fixpoint contains (needle hay : string) : bool :=
  startswith needle hay ||
  match hay with
  | EmptyString => false
  | String _ r => contains needle r
  end.

(** [s[:n]] *)
Fixpoint take (n : nat) (s : string) : string :=
  match n, s with
  | S k, String c r => String c (take k r)
  | _, _ => EmptyString
  end.

(** [s[n:]] *)
Fixpoint drop (n : nat) (s : string) : string :=
  match n, s with
  | S k, String _ r => drop k r
  | _, _ => s
  end.

(** [s.lstrip()] *)
Fixpoint lstrip (s : string) : string :=
  match s with
  | String c r => if isspace c then lstrip r else s
  | EmptyString => EmptyString
  end.

(** [s.rstrip()] *)
Fixpoint rstrip (s : string) : string :=
  match s with
  | EmptyString => EmptyString
  | String c r =>
      match rstrip r with
      | EmptyString => if isspace c then EmptyString else String c EmptyString
      | r' => String c r'
      end
  end.

(** [s.strip()] *)
Definition strip (s : string) : string := rstrip (lstrip s).

(** Truth value of a [str]: [not s] holds exactly for the empty string. *)
Definition nonempty (s : string) : bool :=
  match s with EmptyString => false | _ => true end.

(** All characters of [s] satisfy [p]. *)
Fixpoint all (p : ascii -> bool) (s : string) : bool :=
  match s with
  | EmptyString => true
  | String c r => p c && all p r
  end.

End Str.

(** ** Keyword coverage ([bench/judge.py]) *)

(** The loop of [count_keyword_hits]: [hits.append(kw)] for each keyword
    whose lower-cased form occurs in [text_lower]. *)
Definition keyword_loop (text_lower : string) (keywords hits : list string)
  : list string :=
  fold_left
    (fun hits kw =>
       if Str.contains (Str.lower kw) text_lower then hits ++ [kw] else hits)
    keywords hits.

Definition count_keyword_hits (text : string) (keywords : list string)
  : nat * list string :=
  let text_lower := Str.lower text in
  let hits := keyword_loop text_lower keywords [] in
  (length hits, hits).

(** ** Python values *)

(** A decoded JSON document.  [JObj] keeps the insertion order of a [dict]. *)
#[warnings="-register-all"]
Inductive json : Type :=
| JNull
| JBool (b : bool)
| JInt (z : Z)
| JFloat (q : Q)
| JStr (s : string)
| JArr (l : list json)
| JObj (kv : list (string * json)).

Abbreviation dict := (list (string * json)).

Inductive exn : Type :=
| TypeError
| AttributeError
| KeyError
| ValueError
| OSError.

(** Outcome of a computation that may raise. *)
Inductive res (A : Type) : Type :=
| Ok (a : A)
| Raise (e : exn).
Arguments Ok {A} a.
Arguments Raise {A} e.

Definition res_bind {A B} (r : res A) (k : A -> res B) : res B :=
  match r with
  | Ok a => k a
  | Raise e => Raise e
  end.

Module Py.

(** [d.get(k)] on a dict: [None] of the option type when the key is absent. *)
Fixpoint lookup (k : string) (d : dict) : option json :=
  match d with
  | [] => None
  | (k', v) :: r => if String.eqb k k' then Some v else lookup k r
  end.

(** [k in d] *)
Definition has (k : string) (d : dict) : bool :=
  match lookup k d with Some _ => true | None => false end.

(** [d.get(k, default)] *)
Definition get (k : string) (default : json) (d : dict) : json :=
  match lookup k d with Some v => v | None => default end.

(** [d[k]] *)
Definition getitem (k : string) (d : dict) : res json :=
  match lookup k d with Some v => Ok v | None => Raise KeyError end.

(** [d[k] = v]: replaces the value of an existing key in place, appends a
    new key at the end. *)
Fixpoint set (k : string) (v : json) (d : dict) : dict :=
  match d with
  | [] => [(k, v)]
  | (k', v') :: r =>
      if String.eqb k k' then (k', v) :: r else (k', v') :: set k v r
  end.

(** [v.get(k, default)] on an arbitrary value: only a dict has [get]. *)
Definition get_attr (v : json) (k : string) (default : json) : res json :=
  match v with
  | JObj d => Ok (get k default d)
  | _ => Raise AttributeError
  end.

(** [v[k] = x] with a string key on an arbitrary value: a list wants an
    integer index, the other values support no item assignment. *)
Definition setitem (v : json) (k : string) (x : json) : res dict :=
  match v with
  | JObj d => Ok (set k x d)
  | _ => Raise TypeError
  end.

(** Truth value, as tested by [if v] and [not v]. *)
Definition truthy (v : json) : bool :=
  match v with
  | JNull => false
  | JBool b => b
  | JInt z => negb (z =? 0)
  | JFloat q => negb (Qeq_bool q 0)
  | JStr s => Str.nonempty s
  | JArr l => match l with [] => false | _ => true end
  | JObj d => match d with [] => false | _ => true end
  end.

(** The number a value denotes in arithmetic and comparisons ([bool] is a
    subclass of [int]); [None] of the option type for the other values, on
    which arithmetic with a number raises [TypeError]. *)
Definition number (v : json) : option Q :=
  match v with
  | JInt z => Some (inject_Z z)
  | JFloat q => Some q
  | JBool b => Some (if b then 1%Q else 0%Q)
  | _ => None
  end.

(** [v >= 0] *)
Definition ge0 (v : json) : res bool :=
  match number v with
  | Some q => Ok (Qle_bool 0 q)
  | None => Raise TypeError
  end.

(** [f"{v:.4f}"], for its evaluation only: the fixed-point format is
    defined on numbers; a [str] rejects the format code with [ValueError],
    the other values reject a format specification that is not empty with
    [TypeError]. *)
Definition format_fixed (v : json) : res unit :=
  match number v with
  | Some _ => Ok tt
  | None => match v with JStr _ => Raise ValueError | _ => Raise TypeError end
  end.

(** [v[:n]], for its evaluation only: a [str] and a list can be sliced.  (On
    a dict the exception depends on the interpreter's version; the model
    raises [TypeError].) *)
Definition slice (v : json) : res unit :=
  match v with
  | JStr _ | JArr _ => Ok tt
  | _ => Raise TypeError
  end.

(** [int(s)] for a string of decimal digits. *)
Fixpoint int_digits (acc : Z) (s : string) : Z :=
  match s with
  | EmptyString => acc
  | String c r => int_digits (acc * 10 + (Z.of_N (Str.ord c) - 48)) r
  end.

Definition int (s : string) : Z := int_digits 0 s.

End Py.

(** [a + b] on decoded values. *)
Definition py_add (a b : json) : res json :=
  match a, b with
  | JStr x, JStr y => Ok (JStr (x +:+ y))
  | JArr x, JArr y => Ok (JArr (x ++ y))
  | JFloat x, _ =>
      match Py.number b with
      | Some y => Ok (JFloat (x + y))
      | None => Raise TypeError
      end
  | _, JFloat y =>
      match Py.number a with
      | Some x => Ok (JFloat (x + y))
      | None => Raise TypeError
      end
  | JInt x, JInt y => Ok (JInt (x + y))
  | JInt x, JBool y => Ok (JInt (x + Z.b2z y))
  | JBool x, JInt y => Ok (JInt (Z.b2z x + y))
  | JBool x, JBool y => Ok (JInt (Z.b2z x + Z.b2z y))
  | _, _ => Raise TypeError
  end.

(** ** Standard-library operations and installation paths *)

Class PyLib : Type := {
  (** [json.loads]: [None] stands for [json.JSONDecodeError]. *)
  json_loads : string -> option json;
  (** [json.dumps(v, indent=2)] *)
  json_dumps : json -> string;
  (** [round(x, 2)] *)
  round2 : Q -> Q;
  (** the square root taken by [statistics.stdev] *)
  fsqrt : Q -> Q;
  (** [str(Path(__file__).parent)] of the bench scripts, and of its parent *)
  BENCH_DIR : string;
  PROJECT_DIR : string;
  (** what opening [RESULTS_DIR / name] for writing does, for a [name] that
      is not a single path component: the exception it raises, or the
      file it creates - a file of the results directory, given by its name
      there, or ([None] of the option type) a file elsewhere *)
  locate : string -> res (option string)
}.

(** ** The world: external process, result files, observable events *)

(** What [subprocess.run(..., capture_output=True, text=True, timeout=t)]
    does: raise [TimeoutExpired] or return a [CompletedProcess]. *)
Inductive proc : Type :=
| TimeoutExpired
| Completed (returncode : Z) (stdout stderr : string).

Record invocation : Type := Invocation {
  outcome : proc;
  (** [time.time() - start] measured around the call *)
  elapsed : Q
}.

Inductive event : Type :=
| EvSpawn (cmd : list string) (timeout : Z)
| EvWrite (name : string) (doc : dict)
| EvWriteCombined (docs : list dict)
| EvSleep (seconds : Q).

Record world : Type := World {
  (** the n-th external invocation (counted from 0) yields [script n] *)
  script : nat -> invocation;
  spawned : nat;
  (** [RESULTS_DIR/*.json] other than [all_results.json], by file name *)
  cells : gmap string dict;
  (** [RESULTS_DIR/all_results.json] *)
  combined : option (list dict);
  (** events so far, oldest first *)
  trace : list event
}.

(** Computations on the world that may raise; the world reached is kept in
    both cases. *)
Definition M (A : Type) : Type := world -> res A * world.

Definition ret {A} (a : A) : M A := fun w => (Ok a, w).
Definition raise {A} (e : exn) : M A := fun w => (Raise e, w).
Definition lift {A} (r : res A) : M A := fun w => (r, w).
Definition bind {A B} (m : M A) (k : A -> M B) : M B :=
  fun w =>
    match m w with
    | (Ok a, w') => k a w'
    | (Raise e, w') => (Raise e, w')
    end.

Notation "'let*' x ':=' c 'in' k" := (bind c (fun x => k))
  (at level 10, x pattern, c at level 100, k at level 200).
Notation "c ';;' k" := (bind c (fun _ => k))
  (at level 100, k at level 200, right associativity).

Definition emit (e : event) : M unit :=
  fun w => (Ok tt, World (script w) (spawned w) (cells w) (combined w)
                         (trace w ++ [e])).

(** [subprocess.run(cmd, ..., timeout=t)] together with the clock readings
    around it. *)
Definition subprocess_run (cmd : list string) (timeout : Z) : M invocation :=
  fun w =>
    (Ok (script w (spawned w)),
     World (script w) (S (spawned w)) (cells w) (combined w)
           (trace w ++ [EvSpawn cmd timeout])).

(** [json.dump(doc, f)] on the file [RESULTS_DIR / name] opened for writing *)
Definition write_cell (name : string) (doc : dict) : M unit :=
  fun w =>
    (Ok tt,
     World (script w) (spawned w) (<[name := doc]> (cells w)) (combined w)
           (trace w ++ [EvWrite name doc])).

Definition write_combined (docs : list dict) : M unit :=
  fun w =>
    (Ok tt,
     World (script w) (spawned w) (cells w) (Some docs)
           (trace w ++ [EvWriteCombined docs])).

(** [time.sleep(s)] *)
Definition sleep (s : Q) : M unit := emit (EvSleep s).

(** A [for] loop over a list, with an accumulator. *)
Fixpoint for_each {A S} (body : S -> A -> M S) (l : list A) (s : S) : M S :=
  match l with
  | [] => ret s
  | x :: r => let* s' := body s x in for_each body r s'
  end.

(** ** Task catalogue *)

(** An entry of [tasks/tasks.json]. *)
Record Task : Type := {
  id : string;
  prompt : string;
  rubric : string;
  expected_answer_keywords : list string;
  max_turns : option Z
}.

(** A cell of the run matrix: repetition, task, condition. *)
Definition cell : Type := Z * Task * string.

Section Harness.
Context `{PyLib}.

Definition CONFIG_DIR : string := BENCH_DIR +:+ "/config".

(** ** Quality judge ([bench/judge.py]) *)

Definition dq : ascii := "034"%char.
Definition nl : ascii := "010"%char.
Definition quoted (s : string) : string := String dq (s +:+ String dq "").

(** Number of leading characters of [s] in the class [\s]. *)
Fixpoint spaces (s : string) : nat :=
  match s with
  | String c r => if Str.isspace c then S (spaces r) else O
  | EmptyString => O
  end.

(** Length of the match of [```json\s*|\s*```] anchored at the start of [s],
    if there is one: the first alternative is tried first, [\s*] is greedy. *)
Definition fence_match (s : string) : option nat :=
  if Str.startswith "```json" s then Some (7 + spaces (Str.drop 7 s))%nat
  else
    let k := spaces s in
    if Str.startswith "```" (Str.drop k s) then Some (k + 3)%nat else None.

(** [re.sub] of the pattern [```json\s*|\s*```] by the empty string: scan
    from the left, delete each match, resume after it.  [skip] counts the
    characters of the current match still to delete. *)
Fixpoint strip_fences_from (skip : nat) (s : string) : string :=
  match s with
  | EmptyString => EmptyString
  | String c r =>
      match skip with
      | S k => strip_fences_from k r
      | O =>
          match fence_match s with
          | Some n => strip_fences_from (Nat.pred n) r
          | None => String c (strip_fences_from O r)
          end
      end
  end.

Definition strip_fences (s : string) : string := strip_fences_from O s.

(** Leading characters of [s] in the class [\d]. *)
Fixpoint digits (s : string) : string :=
  match s with
  | String c r => if Str.isdigit c then String c (digits r) else EmptyString
  | EmptyString => EmptyString
  end.

(** Group 1 of the match of the score pattern - the quoted word score,
    then [\s*:\s*(\d+)] - anchored at the start of [s], if there is one. *)
Definition score_match (s : string) : option string :=
  if Str.startswith (quoted "score") s then
    match Str.lstrip (Str.drop 7 s) with
    | String ":" r =>
        let d := digits (Str.lstrip r) in
        if Str.nonempty d then Some d else None
    | _ => None
    end
  else None.

(** [re.search] of the score pattern in [s]: group 1 of the leftmost match. *)
Fixpoint score_search (s : string) : option string :=
  match score_match s with
  | Some d => Some d
  | None =>
      match s with
      | EmptyString => None
      | String _ r => score_search r
      end
  end.

Definition judge_prompt (task : Task) (answer_text : string) : string :=
  let keywords_json :=
    json_dumps (JArr (map JStr (expected_answer_keywords task))) in
  let n := String nl "" in
  "You are evaluating the quality of an answer to a code understanding question."
  +:+ n +:+ n +:+ "QUESTION:" +:+ n +:+ prompt task
  +:+ n +:+ n +:+ "EXPECTED ANSWER SHOULD CONTAIN THESE CONCEPTS:" +:+ n
  +:+ keywords_json
  +:+ n +:+ n +:+ "SCORING RUBRIC:" +:+ n +:+ rubric task
  +:+ n +:+ n +:+ "ANSWER TO EVALUATE:" +:+ n +:+ answer_text
  +:+ n +:+ n
  +:+ "Score this answer from 0 to 10 based on the rubric. Return ONLY valid JSON (no markdown fences):"
  +:+ n +:+ "{" +:+ quoted "score" +:+ ": <0-10>, " +:+ quoted "reasoning"
  +:+ ": " +:+ quoted "<brief explanation of score>" +:+ "}".

Definition judge_cmd (task : Task) (answer_text model : string) : list string :=
  [ "claude"; "-p"; judge_prompt task answer_text;
    "--output-format"; "json";
    "--no-session-persistence";
    "--strict-mcp-config";
    "--mcp-config"; CONFIG_DIR +:+ "/mcp-baseline.json";
    "--model"; model;
    "--max-turns"; "1" ].

Definition sentinel (reasoning : string) : dict :=
  [("score", JInt (-1)); ("reasoning", JStr reasoning)].

(** The [try]/[except (json.JSONDecodeError, TypeError)] block of
    [judge_answer].  On a [result_text] that is not a [str], [re.sub] raises
    [TypeError]; the handler then calls [re.search] on the same value, which
    raises [TypeError] again, outside any handler. *)
Definition parse_score (result_text : json) : res json :=
  match result_text with
  | JStr t =>
      let clean := Str.strip (strip_fences t) in
      match json_loads clean with
      | Some score_data => Ok score_data
      | None =>
          match score_search t with
          | Some d =>
              Ok (JObj [("score", JInt (Py.int d));
                        ("reasoning", JStr (Str.take 200 t))])
          | None =>
              Ok (JObj (sentinel ("Failed to parse: " +:+ Str.take 200 t)))
          end
      end
  | _ => Raise TypeError
  end.

(** What [judge_answer] makes of the process outcome. *)
Definition judge_result (p : proc) : res dict :=
  match p with
  | TimeoutExpired => Ok (sentinel "Judge timed out")
  | Completed returncode stdout stderr =>
      if negb (returncode =? 0) && negb (Str.nonempty (Str.strip stdout)) then
        Ok (sentinel ("Judge error: " +:+ Str.take 200 stderr))
      else
        match json_loads stdout with
        | None => Ok (sentinel "Judge JSON parse error")
        | Some response =>
            res_bind (Py.get_attr response "result" (JStr "")) (fun result_text =>
            res_bind (Py.get_attr response "total_cost_usd" (JInt 0)) (fun judge_cost =>
            res_bind (parse_score result_text) (fun score_data =>
            Py.setitem score_data "judge_cost_usd" judge_cost)))
        end
  end.

Definition judge_answer (task : Task) (answer_text model : string) : M dict :=
  let* inv := subprocess_run (judge_cmd task answer_text model) 120 in
  lift (judge_result (outcome inv)).

(** Insertion sort, standing for [sorted] on keys that are pairwise
    distinct or identical when equal. *)
Fixpoint insert_by {A} (leb : A -> A -> bool) (x : A) (l : list A) : list A :=
  match l with
  | [] => [x]
  | y :: r => if leb x y then x :: l else y :: insert_by leb x r
  end.

Definition sort_by {A} (leb : A -> A -> bool) (l : list A) : list A :=
  foldr (insert_by leb) [] l.

(** The sorted listing of the JSON files of [RESULTS_DIR], with
    [all_results.json] left out, each file with its decoded content. *)
Definition result_files (w : world) : list (string * dict) :=
  sort_by (fun a b => String.leb (fst a) (fst b)) (map_to_list (cells w)).

Record JudgeArgs : Type := {
  (** [--tasks]; the empty list also stands for an absent option *)
  j_tasks : list string;
  j_model : string;
  j_force : bool;
  j_pause : Q;
  j_keywords_only : bool
}.

(** [load_tasks] of the judge, on the decoded catalogue: a later task of
    the same id replaces an earlier one. *)
Definition judge_load_tasks (catalogue : list Task) : gmap string Task :=
  fold_left (fun m t => <[id t := t]> m) catalogue ∅.

(** The filter of the judge's [load_results] on one decoded file. *)
Definition selected (task_ids : list string) (data : dict) : res bool :=
  if Py.has "error" data then Ok false
  else
    match task_ids with
    | [] => Ok true
    | _ =>
        match Py.lookup "task_id" data with
        | None => Raise KeyError
        | Some (JStr t) => Ok (bool_decide (t ∈ task_ids))
        | Some _ => Ok false
        end
    end.

Fixpoint select_results (task_ids : list string) (files : list (string * dict))
  : res (list (string * dict)) :=
  match files with
  | [] => Ok []
  | (name, data) :: r =>
      res_bind (selected task_ids data) (fun keep =>
      res_bind (select_results task_ids r) (fun rest =>
      Ok (if keep then (name, data) :: rest else rest)))
  end.

Definition judge_load_results (task_ids : list string)
  : M (list (string * dict)) :=
  fun w => (select_results task_ids (result_files w), w).

(** [tasks.get(data['task_id'])] *)
Definition find_task (tasks : gmap string Task) (data : dict)
  : res (option Task) :=
  match Py.lookup "task_id" data with
  | None => Raise KeyError
  | Some (JStr t) => Ok (tasks !! t)
  | Some (JArr _) | Some (JObj _) => Raise TypeError
  | Some _ => Ok None
  end.

(** [total_judge_cost += data['judge_cost_usd']] *)
Definition add_cost (total : Q) (cost : json) : res Q :=
  match Py.number cost with
  | Some c => Ok (total + c)%Q
  | None => Raise TypeError
  end.

(** [pause > 0] *)
Definition positive (q : Q) : bool := negb (Qle_bool q 0).

(** One iteration of the loop of the judge's [main], on the [i]-th of [n]
    selected results; the accumulator is [total_judge_cost]. *)
Definition judge_record (tasks : gmap string Task) (args : JudgeArgs)
    (n : nat) (total_judge_cost : Q) (item : nat * (string * dict)) : M Q :=
  let '(i, (name, data)) := item in
  let* task := lift (find_task tasks data) in
  match task with
  | None => ret total_judge_cost
  | Some task =>
      let answer := Py.get "result_text" (JStr "") data in
      if negb (Py.truthy answer) then ret total_judge_cost
      else
        match answer with
        | JStr answer =>
            let '(hits, hit_list) :=
              count_keyword_hits answer (expected_answer_keywords task) in
            let data := Py.set "keyword_hits" (JInt (Z.of_nat hits)) data in
            let data :=
              Py.set "keyword_total"
                (JInt (Z.of_nat (length (expected_answer_keywords task)))) data in
            let data := Py.set "keyword_list" (JArr (map JStr hit_list)) data in
            if negb (j_keywords_only args) then
              let* scored :=
                (if j_force args then ret false
                 else
                   match Py.lookup "quality_score" data with
                   | Some v => lift (Py.ge0 v)
                   | None => ret false
                   end) in
              if scored then ret total_judge_cost
              else
                let* score_data := judge_answer task answer (j_model args) in
                let data :=
                  Py.set "quality_score" (Py.get "score" (JInt (-1)) score_data) data in
                let data :=
                  Py.set "quality_reasoning"
                    (Py.get "reasoning" (JStr "") score_data) data in
                let data :=
                  Py.set "judge_cost_usd"
                    (Py.get "judge_cost_usd" (JInt 0) score_data) data in
                let* total_judge_cost :=
                  lift (add_cost total_judge_cost
                          (Py.get "judge_cost_usd" JNull data)) in
                (if positive (j_pause args) && (Z.of_nat i <? Z.of_nat n - 1)
                 then sleep (j_pause args) else ret tt);;
                write_cell name data;;
                ret total_judge_cost
            else
              write_cell name data;;
              ret total_judge_cost
        | _ => raise AttributeError
        end
  end.

(** [list(enumerate(l))] *)
Definition enumerate {A} (l : list A) : list (nat * A) :=
  combine (seq 0 (length l)) l.

(** The judge's [main]; [None] of the option type is [sys.exit(1)]. *)
Definition judge_main (catalogue : list Task) (args : JudgeArgs)
  : M (option Q) :=
  let tasks := judge_load_tasks catalogue in
  let* results := judge_load_results (j_tasks args) in
  match results with
  | [] => ret None
  | _ =>
      let* total :=
        for_each (judge_record tasks args (length results))
                 (enumerate results) 0%Q in
      ret (Some total)
  end.

(** ** Run orchestrator ([bench/run.py]) *)

(** [CONDITIONS]: condition name to tool-access configuration file. *)
Definition CONDITIONS : list (string * string) :=
  [ ("baseline", CONFIG_DIR +:+ "/mcp-baseline.json");
    ("with-gnapsis", CONFIG_DIR +:+ "/mcp-with-gnapsis.json") ].

Definition APPEND_PROMPT : string :=
  "Answer the question directly and concisely. "
  +:+ "Do not ask follow-up questions. "
  +:+ "Do not offer to do additional work.".

(** [CONDITIONS[condition]] *)
Fixpoint assoc (k : string) (l : list (string * string)) : option string :=
  match l with
  | [] => None
  | (k', v) :: r => if String.eqb k k' then Some v else assoc k r
  end.

(** [max_turns or task.get('max_turns', 15)] *)
Definition turn_budget (task : Task) (override : option Z) : Z :=
  match override with
  | Some t => if t =? 0 then default 15 (max_turns task) else t
  | None => default 15 (max_turns task)
  end.

Definition run_cmd (task : Task) (mcp_config model : string) (turns : Z)
  : list string :=
  [ "claude"; "-p"; prompt task;
    "--output-format"; "json";
    "--strict-mcp-config";
    "--mcp-config"; mcp_config;
    "--no-session-persistence";
    "--dangerously-skip-permissions";
    "--max-turns"; pretty turns;
    "--model"; model;
    "--append-system-prompt"; APPEND_PROMPT ].

(** The identity fields every record starts with. *)
Definition cell_key (task : Task) (condition : string) (run_id : Z) : dict :=
  [ ("task_id", JStr (id task));
    ("condition", JStr condition);
    ("run_id", JInt run_id) ].

Definition failure (task : Task) (condition : string) (run_id : Z)
    (error : string) : dict :=
  cell_key task condition run_id ++ [("error", JStr error)].

(** The [result] dict built from a decoded envelope. *)
Definition success (task : Task) (condition : string) (run_id : Z)
    (model : string) (response : json) (wall : Q) : res dict :=
  res_bind (Py.get_attr response "usage" (JObj [])) (fun usage =>
  res_bind (Py.get_attr response "num_turns" (JInt 0)) (fun num_turns =>
  res_bind (Py.get_attr response "duration_ms" (JInt 0)) (fun duration_ms =>
  res_bind (Py.get_attr response "duration_api_ms" (JInt 0)) (fun duration_api_ms =>
  res_bind (Py.get_attr response "total_cost_usd" (JInt 0)) (fun total_cost_usd =>
  res_bind (Py.get_attr usage "input_tokens" (JInt 0)) (fun input_tokens =>
  res_bind (Py.get_attr usage "output_tokens" (JInt 0)) (fun output_tokens =>
  res_bind (Py.get_attr usage "cache_read_input_tokens" (JInt 0)) (fun cache_read =>
  res_bind (Py.get_attr usage "cache_creation_input_tokens" (JInt 0)) (fun cache_creation =>
  res_bind (Py.get_attr response "is_error" (JBool false)) (fun is_error =>
  res_bind (Py.get_attr response "session_id" (JStr "")) (fun session_id =>
  res_bind (Py.get_attr response "result" (JStr "")) (fun result_text =>
  Ok (cell_key task condition run_id ++
      [ ("model", JStr model);
        ("num_turns", num_turns);
        ("duration_ms", duration_ms);
        ("duration_api_ms", duration_api_ms);
        ("total_cost_usd", total_cost_usd);
        ("input_tokens", input_tokens);
        ("output_tokens", output_tokens);
        ("cache_read_input_tokens", cache_read);
        ("cache_creation_input_tokens", cache_creation);
        ("is_error", is_error);
        ("session_id", session_id);
        ("result_text", result_text);
        ("wall_time_s", JFloat (round2 wall)) ]))))))))))))).

(** What [run_task] makes of the process outcome. *)
Definition run_result (task : Task) (condition : string) (run_id : Z)
    (model : string) (inv : invocation) : res dict :=
  match outcome inv with
  | TimeoutExpired => Ok (failure task condition run_id "timeout")
  | Completed returncode stdout stderr =>
      if negb (returncode =? 0) && negb (Str.nonempty (Str.strip stdout)) then
        Ok (failure task condition run_id (Str.take 500 stderr))
      else
        match json_loads stdout with
        | None =>
            Ok (failure task condition run_id
                  ("JSON parse error: " +:+ Str.take 200 stdout))
        | Some response =>
            success task condition run_id model response (elapsed inv)
        end
  end.

Definition run_task (task : Task) (condition : string) (run_id : Z)
    (model : string) (max_turns : option Z) (dry_run : bool)
  : M (option dict) :=
  match assoc condition CONDITIONS with
  | None => raise KeyError
  | Some mcp_config =>
      let turns := turn_budget task max_turns in
      let cmd := run_cmd task mcp_config model turns in
      if dry_run then ret None
      else
        let* inv := subprocess_run cmd 600 in
        let* result := lift (run_result task condition run_id model inv) in
        ret (Some result)
  end.

(** The file name [save_result] writes to.  The three identity fields are
    those [run_task] has put into the record. *)
Definition result_name (task_id condition : string) (run_id : Z) : string :=
  task_id +:+ "_" +:+ condition +:+ "_run" +:+ pretty run_id +:+ ".json".

(** The file name is a single path component: it has neither a separator
    nor a NUL character. *)
Definition plain (name : string) : bool :=
  Str.all (fun c => negb (Ascii.eqb c "/") && negb (Ascii.eqb c "000")) name.

(** [save_result]: the record is dumped to [RESULTS_DIR / fname].  For a
    plain [fname] this is the file of that name in the results directory;
    for another one the path leads into a subdirectory or out of the results
    directory, and what [open] does there is [locate fname]. *)
Definition save_result (task : Task) (condition : string) (run_id : Z)
    (result : dict) : M unit :=
  let fname := result_name (id task) condition run_id in
  if plain fname then write_cell fname result
  else
    let* place := lift (locate fname) in
    match place with
    | Some name => write_cell name result
    | None => emit (EvWrite fname result)
    end.

(** The progress line [run_benchmark] prints after a cell, for its
    evaluation only: of a failure record the first 80 characters of the
    error; of a success record the turn count, the sum of the two token
    counts, the cost in fixed-point format, and the wall time. *)
Definition progress_line (result : dict) : res unit :=
  if Py.has "error" result then
    res_bind (Py.getitem "error" result) Py.slice
  else
    res_bind (Py.getitem "input_tokens" result) (fun input_tokens =>
    res_bind (Py.getitem "output_tokens" result) (fun output_tokens =>
    res_bind (py_add input_tokens output_tokens) (fun tokens =>
    res_bind (Py.getitem "num_turns" result) (fun _ =>
    res_bind (Py.getitem "total_cost_usd" result) (fun total_cost_usd =>
    res_bind (Py.format_fixed total_cost_usd) (fun _ =>
    res_bind (Py.getitem "wall_time_s" result) (fun _ => Ok tt))))))).

(** [range(1, num_runs + 1)] *)
Definition run_ids (num_runs : Z) : list Z :=
  map Z.of_nat (seq 1 (Z.to_nat num_runs)).

(** The body of the innermost loop of [run_benchmark]; the accumulator is
    [(completed, all_results)]. *)
Definition run_cell (total : Z) (model : string) (max_turns : option Z)
    (dry_run : bool) (pause : Q) (run_id : Z) (task : Task)
    (acc : Z * list dict) (condition : string) : M (Z * list dict) :=
  let '(completed, all_results) := acc in
  let completed := completed + 1 in
  let* result := run_task task condition run_id model max_turns dry_run in
  match result with
  | Some result =>
      let all_results := all_results ++ [result] in
      save_result task condition run_id result;;
      lift (progress_line result);;
      (if positive pause && (completed <? total) then sleep pause else ret tt);;
      ret (completed, all_results)
  | None => ret (completed, all_results)
  end.

Definition run_benchmark (tasks : list Task) (num_runs : Z)
    (conditions : list string) (model : string) (max_turns : option Z)
    (dry_run : bool) (pause : Q) : M (list dict) :=
  let total :=
    num_runs * Z.of_nat (length tasks) * Z.of_nat (length conditions) in
  let* acc :=
    for_each (fun acc run_id =>
      for_each (fun acc task =>
        for_each (run_cell total model max_turns dry_run pause run_id task)
                 conditions acc)
        tasks acc)
      (run_ids num_runs) (0, []) in
  let all_results := snd acc in
  match all_results with
  | [] => ret all_results
  | _ => write_combined all_results;; ret all_results
  end.

(** ** Aggregator ([bench/analyze.py]) *)

(** [METRICS]: key and label (the format strings are not modelled). *)
Definition METRICS : list (string * string) :=
  [ ("total_input_tokens", "Total In Tokens");
    ("input_tokens", "  Non-cached");
    ("cache_read_input_tokens", "  Cache Read");
    ("cache_creation_input_tokens", "  Cache Create");
    ("output_tokens", "Output Tokens");
    ("total_cost_usd", "Cost (USD)");
    ("num_turns", "Turns");
    ("duration_ms", "Duration (ms)");
    ("quality_score", "Quality (0-10)");
    ("keyword_hits", "Keyword Hits") ].

(** The assignment to [data['total_input_tokens']] in [load_results]. *)
Definition with_total_input_tokens (data : dict) : res dict :=
  res_bind (py_add (Py.get "input_tokens" (JInt 0) data)
                   (Py.get "cache_read_input_tokens" (JInt 0) data)) (fun s =>
  res_bind (py_add s (Py.get "cache_creation_input_tokens" (JInt 0) data)) (fun total =>
  Ok (Py.set "total_input_tokens" total data))).

Fixpoint load_files (files : list (string * dict)) : res (list dict) :=
  match files with
  | [] => Ok []
  | (_, data) :: r =>
      if Py.has "error" data then load_files r
      else
        res_bind (with_total_input_tokens data) (fun data =>
        res_bind (load_files r) (fun rest => Ok (data :: rest)))
  end.

(** [load_results] of the aggregator. *)
Definition load_results (w : world) : res (list dict) :=
  load_files (result_files w).

Record Stats : Type := {
  mean : Q;
  median : Q;
  stdev : Q;
  n : nat
}.

Definition Qsum (l : list Q) : Q := fold_right Qplus 0%Q l.

(** [statistics.mean] of a non-empty sample. *)
Definition stat_mean (values : list Q) : Q :=
  (Qsum values / inject_Z (Z.of_nat (length values)))%Q.

(** [statistics.median] of a non-empty sample. *)
Definition stat_median (values : list Q) : Q :=
  let data := sort_by Qle_bool values in
  let k := length data in
  if Nat.odd k then nth (k / 2) data 0%Q
  else ((nth (k / 2 - 1) data 0 + nth (k / 2) data 0) / 2)%Q.

(** [statistics.variance] of a sample of at least two values. *)
Definition stat_variance (values : list Q) : Q :=
  let m := stat_mean values in
  (Qsum (map (fun x => (x - m) * (x - m)) values)
   / inject_Z (Z.of_nat (length values - 1)))%Q.

Definition compute_stats (values : list Q) : Stats :=
  match values with
  | [] => {| mean := 0; median := 0; stdev := 0; n := 0 |}
  | _ =>
      {| mean := stat_mean values;
         median := stat_median values;
         stdev := if (1 <? length values)%nat
                  then fsqrt (stat_variance values) else 0%Q;
         n := length values |}
  end.

(** The numbers of a list of values, as arithmetic reads them. *)
Fixpoint numbers (values : list json) : res (list Q) :=
  match values with
  | [] => Ok []
  | v :: r =>
      match Py.number v with
      | Some q => res_bind (numbers r) (fun qs => Ok (q :: qs))
      | None => Raise TypeError
      end
  end.

(** [[r.get(metric_key, 0) for r in runs if r.get(metric_key) is not None]] *)
Fixpoint present (metric_key : string) (runs : list dict) : list json :=
  match runs with
  | [] => []
  | r :: rest =>
      match Py.lookup metric_key r with
      | Some JNull | None => present metric_key rest
      | Some v => v :: present metric_key rest
      end
  end.

(** The sample [compute_stats] is applied to for one metric of one group:
    for [quality_score] the values below zero are dropped first. *)
Definition metric_sample (metric_key : string) (runs : list dict)
  : res (list Q) :=
  res_bind (numbers (present metric_key runs)) (fun values =>
  Ok (if String.eqb metric_key "quality_score"
      then List.filter (fun v => Qle_bool 0 v) values
      else values)).

(** One entry of the report.  [fields] holds the keys [<metric>_mean],
    [<metric>_median] and [<metric>_stdev] of the source's dict. *)
Record Entry : Type := {
  e_task_id : string;
  e_condition : string;
  n_runs : nat;
  fields : list (string * Q);
  total_tokens_mean : Q
}.

Fixpoint metric_fields (metrics : list (string * string)) (runs : list dict)
  : res (list (string * Q)) :=
  match metrics with
  | [] => Ok []
  | (metric_key, _) :: rest =>
      res_bind (metric_sample metric_key runs) (fun values =>
      let stats := compute_stats values in
      res_bind (metric_fields rest runs) (fun more =>
      Ok ([ (metric_key +:+ "_mean", mean stats);
            (metric_key +:+ "_median", median stats);
            (metric_key +:+ "_stdev", stdev stats) ] ++ more)))
  end.

Fixpoint total_tokens (runs : list dict) : res (list json) :=
  match runs with
  | [] => Ok []
  | r :: rest =>
      res_bind (py_add (Py.get "input_tokens" (JInt 0) r)
                       (Py.get "output_tokens" (JInt 0) r)) (fun t =>
      res_bind (total_tokens rest) (fun ts => Ok (t :: ts)))
  end.

(** [(r['task_id'], r['condition'])].  Every record the orchestrator writes
    has strings there; the model raises [TypeError] on another value. *)
Definition group_key (r : dict) : res (string * string) :=
  match Py.lookup "task_id" r, Py.lookup "condition" r with
  | None, _ | _, None => Raise KeyError
  | Some (JStr t), Some (JStr c) => Ok (t, c)
  | _, _ => Raise TypeError
  end.

(** [grouped.setdefault(key, []).append(r)] *)
Fixpoint group_add (key : string * string) (r : dict)
    (grouped : list ((string * string) * list dict))
  : list ((string * string) * list dict) :=
  match grouped with
  | [] => [(key, [r])]
  | (k, runs) :: rest =>
      if bool_decide (k = key) then (k, runs ++ [r]) :: rest
      else (k, runs) :: group_add key r rest
  end.

Fixpoint group_runs (results : list dict)
    (grouped : list ((string * string) * list dict))
  : res (list ((string * string) * list dict)) :=
  match results with
  | [] => Ok grouped
  | r :: rest =>
      res_bind (group_key r) (fun key =>
      group_runs rest (group_add key r grouped))
  end.

(** Order of pairs of strings, as tuples compare. *)
Definition key_leb (a b : string * string) : bool :=
  if String.eqb (fst a) (fst b) then String.leb (snd a) (snd b)
  else String.leb (fst a) (fst b).

Definition make_entry (group : (string * string) * list dict) : res Entry :=
  let '((task_id, condition), runs) := group in
  res_bind (metric_fields METRICS runs) (fun fs =>
  res_bind (total_tokens runs) (fun tt =>
  res_bind (numbers tt) (fun tq =>
  Ok {| e_task_id := task_id;
        e_condition := condition;
        n_runs := length runs;
        fields := fs;
        total_tokens_mean := match tq with [] => 0%Q | _ => stat_mean tq end |}))).

Fixpoint make_entries (groups : list ((string * string) * list dict))
  : res (list Entry) :=
  match groups with
  | [] => Ok []
  | g :: rest =>
      res_bind (make_entry g) (fun e =>
      res_bind (make_entries rest) (fun es => Ok (e :: es)))
  end.

Definition aggregate (results : list dict) : res (list Entry) :=
  res_bind (group_runs results []) (fun grouped =>
  make_entries (sort_by (fun a b => key_leb (fst a) (fst b)) grouped)).

(** [r.get(key)] on an entry, for the per-metric keys: [None] of the option
    type when the key is absent. *)
Fixpoint field_opt (key : string) (fs : list (string * Q)) : option Q :=
  match fs with
  | [] => None
  | (k, v) :: r => if String.eqb key k then Some v else field_opt key r
  end.

(** [r.get(key, default)] *)
Definition field (key : string) (default : Q) (fs : list (string * Q)) : Q :=
  match field_opt key fs with
  | Some v => v
  | None => default
  end.

(** [sorted(set(l))] *)
Definition sorted_set (l : list string) : list string :=
  sort_by String.leb (remove_dups l).

(** A line of the comparison table, before formatting. *)
Record Row : Type := {
  task_col : string;
  label : string;
  v1 : Q;
  v2 : Q;
  delta : Q;
  pct : Q
}.

(** A line of the single-condition listing, before formatting. *)
Record Listing : Type := {
  l_task : string;
  l_turns : Q;
  l_tokens : Q;
  l_cost : Q;
  l_time : Q;
  l_quality : Q
}.

Inductive Printed : Type :=
| SingleCondition (lines : list Listing)
| Comparison (c1 c2 : string) (rows : list Row) (averages : list Row).

(** [(delta / base * 100) if base != 0 else 0] *)
Definition percent (delta base : Q) : Q :=
  if Qeq_bool base 0 then 0%Q else (delta / base * 100)%Q.

Definition make_row (task label : string) (a b : Q) : Row :=
  {| task_col := task; label := label; v1 := a; v2 := b;
     delta := b - a; pct := percent (b - a) a |}.

(** [next((r for r in report if r['task_id'] == task and
    r['condition'] == c), None)] *)
Definition find_entry (report : list Entry) (task c : string) : option Entry :=
  List.find (fun r => String.eqb (e_task_id r) task && String.eqb (e_condition r) c)
            report.

(** The metric lines of one task; [first_metric] decides the task column. *)
Fixpoint metric_rows (task : string) (r1 r2 : Entry) (first_metric : bool)
    (metrics : list (string * string)) : list Row :=
  match metrics with
  | [] => []
  | (metric_key, lbl) :: rest =>
      make_row (if first_metric then task else "") lbl
               (field (metric_key +:+ "_mean") 0 (fields r1))
               (field (metric_key +:+ "_mean") 0 (fields r2))
      :: metric_rows task r1 r2 false rest
  end.

Definition task_rows (report : list Entry) (c1 c2 task : string) : list Row :=
  match find_entry report task c1, find_entry report task c2 with
  | Some r1, Some r2 =>
      metric_rows task r1 r2 true METRICS
      ++ [make_row "" "Total Tokens" (total_tokens_mean r1) (total_tokens_mean r2)]
  | _, _ => []
  end.

(** [[r.get(key, 0) for r in report if r['condition'] == c and r.get(key)
    is not None]] for the mean of a metric. *)
Definition condition_means (report : list Entry) (metric_key c : string)
  : list Q :=
  flat_map (fun r => match field_opt (metric_key +:+ "_mean") (fields r) with
                     | Some v => [v]
                     | None => []
                     end)
           (List.filter (fun r => String.eqb (e_condition r) c) report).

Definition average_rows (report : list Entry) (c1 c2 : string) : list Row :=
  flat_map (fun m : string * string =>
    let '(metric_key, lbl) := m in
    match condition_means report metric_key c1,
          condition_means report metric_key c2 with
    | [], _ | _, [] => []
    | a, b => [make_row "AVERAGE" lbl (stat_mean a) (stat_mean b)]
    end) METRICS.

Definition print_single_condition (report : list Entry) : list Listing :=
  map (fun r =>
    {| l_task := e_task_id r;
       l_turns := field "num_turns_mean" 0 (fields r);
       l_tokens := total_tokens_mean r;
       l_cost := field "total_cost_usd_mean" 0 (fields r);
       l_time := (field "duration_ms_mean" 0 (fields r) / 1000)%Q;
       l_quality := field "quality_score_mean" (-1) (fields r) |}) report.

Definition print_comparison (report : list Entry) : Printed :=
  let tasks := sorted_set (map e_task_id report) in
  let conditions := sorted_set (map e_condition report) in
  match conditions with
  | c1 :: c2 :: _ =>
      Comparison c1 c2 (flat_map (task_rows report c1 c2) tasks)
                 (average_rows report c1 c2)
  | _ => SingleCondition (print_single_condition report)
  end.

(** ** Vocabulary of the properties *)

(** The wording of the specification: a keyword is covered when some
    substring of the answer equals it up to letter case. *)
Definition ci_equal (a b : string) : Prop := Str.lower a = Str.lower b.

Definition ci_substring (kw text : string) : Prop :=
  exists pre mid post : string,
    text = pre +:+ mid +:+ post /\ ci_equal mid kw.

(** The process-failure test of both [judge_answer] and [run_task]. *)
Definition process_failed (returncode : Z) (stdout : string) : bool :=
  negb (returncode =? 0) && negb (Str.nonempty (Str.strip stdout)).

(** The text of a score key followed by a number with a fractional part. *)
Definition fractional_score (ws1 ws2 ds rest : string) : string :=
  quoted "score" +:+ ws1 +:+ ":" +:+ ws2 +:+ ds +:+ String "." rest.

(** No match of the score pattern starts inside [pre] when [pre] is
    followed by [tail]. *)
Definition no_earlier_match (pre tail : string) : Prop :=
  forall a b : string,
    pre = a +:+ b -> b <> EmptyString -> score_match (b +:+ tail) = None.


(** The identity and the answer of a stored record have the types the
    orchestrator writes: the task id is a string, the answer text is a
    string or absent. *)
Definition well_typed_record (data : dict) : Prop :=
  (exists t, Py.lookup "task_id" data = Some (JStr t))
  /\ (exists a, Py.get "result_text" (JStr EmptyString) data = JStr a).

(** The invocation outcomes whose output, where it decodes as JSON, is an
    object with an absent or object-valued [usage] entry. *)
Definition well_shaped (inv : invocation) : Prop :=
  match outcome inv with
  | TimeoutExpired => True
  | Completed returncode stdout _ =>
      if process_failed returncode stdout then True
      else
        match json_loads stdout with
        | None => True
        | Some (JObj envelope) =>
            match Py.lookup "usage" envelope with
            | None | Some (JObj _) => True
            | Some _ => False
            end
        | Some _ => False
        end
  end.

(** The [usage] dict [run_task] reads the token counts from. *)
Definition usage_of (envelope : dict) : dict :=
  match Py.lookup "usage" envelope with
  | Some (JObj usage) => usage
  | _ => []
  end.

(** What the progress line of the success record of an envelope evaluates:
    the sum of the two token counts, then the cost in fixed-point format. *)
Definition success_progress (envelope : dict) : res unit :=
  res_bind (py_add (Py.get "input_tokens" (JInt 0) (usage_of envelope))
                   (Py.get "output_tokens" (JInt 0) (usage_of envelope)))
           (fun _ => Py.format_fixed (Py.get "total_cost_usd" (JInt 0) envelope)).

(** The invocation outcomes whose record has a progress line: where the
    output decodes to an object, its two token counts can be added and its
    cost is a number, as they are when absent. *)
Definition reportable (inv : invocation) : Prop :=
  match outcome inv with
  | TimeoutExpired => True
  | Completed returncode stdout _ =>
      if process_failed returncode stdout then True
      else
        match json_loads stdout with
        | Some (JObj envelope) => success_progress envelope = Ok tt
        | _ => True
        end
  end.

(** The record [run_task] builds from an object envelope. *)
Definition success_record (task : Task) (condition : string) (run_id : Z)
    (model : string) (envelope : dict) (wall : Q) : dict :=
  [ ("task_id", JStr (id task));
    ("condition", JStr condition);
    ("run_id", JInt run_id);
    ("model", JStr model);
    ("num_turns", Py.get "num_turns" (JInt 0) envelope);
    ("duration_ms", Py.get "duration_ms" (JInt 0) envelope);
    ("duration_api_ms", Py.get "duration_api_ms" (JInt 0) envelope);
    ("total_cost_usd", Py.get "total_cost_usd" (JInt 0) envelope);
    ("input_tokens", Py.get "input_tokens" (JInt 0) (usage_of envelope));
    ("output_tokens", Py.get "output_tokens" (JInt 0) (usage_of envelope));
    ("cache_read_input_tokens",
     Py.get "cache_read_input_tokens" (JInt 0) (usage_of envelope));
    ("cache_creation_input_tokens",
     Py.get "cache_creation_input_tokens" (JInt 0) (usage_of envelope));
    ("is_error", Py.get "is_error" (JBool false) envelope);
    ("session_id", Py.get "session_id" (JStr EmptyString) envelope);
    ("result_text", Py.get "result" (JStr EmptyString) envelope);
    ("wall_time_s", JFloat (round2 wall)) ].

(** What [run_task] returns on a well-shaped invocation. *)
Definition expected_record (task : Task) (condition : string) (run_id : Z)
    (model : string) (inv : invocation) (record : dict) : Prop :=
  match outcome inv with
  | TimeoutExpired => record = failure task condition run_id "timeout"
  | Completed returncode stdout stderr =>
      if process_failed returncode stdout then
        record = failure task condition run_id (Str.take 500 stderr)
      else
        match json_loads stdout with
        | None =>
            record = failure task condition run_id
                       ("JSON parse error: " +:+ Str.take 200 stdout)
        | Some (JObj envelope) =>
            record = success_record task condition run_id model envelope
                       (elapsed inv)
        | Some _ => False
        end
  end.

(** The events of one cell of the run matrix that ends with [completed]
    cells done out of [total]. *)
Definition cell_events (total : Z) (pause : Q) (model : string)
    (max_turns : option Z) (completed : Z) (run_id : Z) (task : Task)
    (condition : string) (record : dict) : list event :=
  [ EvSpawn (run_cmd task (default EmptyString (assoc condition CONDITIONS))
                     model (turn_budget task max_turns)) 600;
    EvWrite (result_name (id task) condition run_id) record ]
  ++ (if positive pause && (completed <? total) then [EvSleep pause] else []).

(** The events of a cell up to the write of its record. *)
Definition cell_start (model : string) (max_turns : option Z) (run_id : Z)
    (task : Task) (condition : string) (record : dict) : list event :=
  [ EvSpawn (run_cmd task (default EmptyString (assoc condition CONDITIONS))
                     model (turn_budget task max_turns)) 600;
    EvWrite (result_name (id task) condition run_id) record ].

(** The run matrix in the order of the specification: repetition outermost,
    then task, then condition. *)
Definition matrix (tasks : list Task) (num_runs : Z) (conditions : list string)
  : list cell :=
  flat_map (fun run_id =>
    flat_map (fun task =>
      map (fun condition => (run_id, task, condition)) conditions)
      tasks)
    (run_ids num_runs).

(** [ran model script k cells records]: the records are those of the cells,
    in order, where the first cell gets the [k]-th invocation of the script,
    the next cell the next one, and so on. *)
Fixpoint ran (model : string) (script : nat -> invocation) (k : nat)
    (cells : list cell) (records : list dict) : Prop :=
  match cells, records with
  | [], [] => True
  | (run_id, task, condition) :: cells, record :: records =>
      run_result task condition run_id model (script k) = Ok record
      /\ ran model script (S k) cells records
  | _, _ => False
  end.

(** The events of a batch, cell after cell. *)
Fixpoint batch_events (total : Z) (pause : Q) (model : string)
    (max_turns : option Z) (completed : Z) (cells : list cell)
    (records : list dict) : list event :=
  match cells, records with
  | (run_id, task, condition) :: cells, record :: records =>
      cell_events total pause model max_turns (completed + 1) run_id task
                  condition record
      ++ batch_events total pause model max_turns (completed + 1) cells records
  | _, _ => []
  end.

(** The result files after a batch: each record written under the name of
    its cell, in order. *)
Fixpoint batch_files (cells : list cell) (records : list dict)
    (files : gmap string dict) : gmap string dict :=
  match cells, records with
  | (run_id, task, condition) :: cells, record :: records =>
      batch_files cells records
        (<[result_name (id task) condition run_id := record]> files)
  | _, _ => files
  end.

(** The name under which a cell is stored. *)
Definition cell_name (c : cell) : string :=
  let '(run_id, task, condition) := c in
  result_name (id task) condition run_id.

(** The records of a group: those with the given task id and condition, in
    the order of the results. *)
Definition group_of (results : list dict) (key : string * string) : list dict :=
  List.filter (fun r => match group_key r with
                        | Ok k => bool_decide (k = key)
                        | Raise _ => false
                        end) results.

(** The runs grouped under a key so far. *)
Fixpoint runs_of (key : string * string)
    (grouped : list ((string * string) * list dict)) : list dict :=
  match grouped with
  | [] => []
  | (k, runs) :: rest =>
      if bool_decide (k = key) then runs else runs_of key rest
  end.

(** ** Entry point of the orchestrator ([bench/run.py]) *)

(** [load_tasks] of the orchestrator, on the decoded catalogue; the empty
    list of ids also stands for an absent option. *)
Definition run_load_tasks (catalogue : list Task) (task_ids : list string)
  : list Task :=
  match task_ids with
  | [] => catalogue
  | _ => List.filter (fun t => bool_decide (id t ∈ task_ids)) catalogue
  end.

(** The options of the orchestrator, as parsed. *)
Record RunArgs : Type := {
  r_runs : Z;
  (** [--tasks]; the empty list also stands for an absent option *)
  r_tasks : list string;
  r_conditions : list string;
  r_model : string;
  r_max_turns : option Z;
  r_pause : Q;
  r_dry_run : bool
}.


(** The orchestrator's [main]; [None] of the option type is [sys.exit(1)]. *)
Definition run_main (catalogue : list Task) (args : RunArgs) : M (option unit) :=
  let tasks := run_load_tasks catalogue (r_tasks args) in
  match tasks with
  | [] => ret None
  | _ =>
      run_benchmark tasks (r_runs args) (r_conditions args) (r_model args)
                    (r_max_turns args) (r_dry_run args) (r_pause args);;
      ret (Some tt)
  end.

(** ** Vocabulary of the further properties *)

(** *** Text of the judge *)

Definition backtick : ascii := "096"%char.

(** The text has no backtick. *)
Definition fence_free (s : string) : bool :=
  Str.all (fun c => negb (Ascii.eqb c backtick)) s.

(** A text wrapped in a markdown fence, with white space [ws1] after the
    opening fence and [ws2] before the closing one. *)
Definition fenced (ws1 body ws2 : string) : string :=
  "```json" +:+ ws1 +:+ body +:+ ws2 +:+ "```".

(** *** Events *)

(** The kinds of events. *)
Definition is_spawn (e : event) : bool :=
  match e with EvSpawn _ _ => true | _ => false end.

Definition is_write (e : event) : bool :=
  match e with EvWrite _ _ => true | _ => false end.

Definition is_sleep (e : event) : bool :=
  match e with EvSleep _ => true | _ => false end.

Definition is_combined (e : event) : bool :=
  match e with EvWriteCombined _ => true | _ => false end.

(** The number of events of a kind. *)
Definition count (kind : event -> bool) (evs : list event) : nat :=
  length (List.filter kind evs).

(** The documents written to the per-cell files, in order. *)
Definition written (evs : list event) : list dict :=
  flat_map (fun e => match e with EvWrite _ doc => [doc] | _ => [] end) evs.

(** *** The judge pass *)

(** The fields the judge adds to a stored record. *)
Definition judging_fields : list string :=
  [ "keyword_hits"; "keyword_total"; "keyword_list";
    "quality_score"; "quality_reasoning"; "judge_cost_usd" ].

(** The record with the three keyword fields set. *)
Definition with_keywords (task : Task) (answer : string) (data : dict) : dict :=
  let hits := count_keyword_hits answer (expected_answer_keywords task) in
  Py.set "keyword_list" (JArr (map JStr (snd hits)))
    (Py.set "keyword_total"
       (JInt (Z.of_nat (length (expected_answer_keywords task))))
       (Py.set "keyword_hits" (JInt (Z.of_nat (fst hits))) data)).

(** The record with the three grading fields set from the score data. *)
Definition with_score (score_data : dict) (data : dict) : dict :=
  Py.set "judge_cost_usd" (Py.get "judge_cost_usd" (JInt 0) score_data)
    (Py.set "quality_reasoning" (Py.get "reasoning" (JStr EmptyString) score_data)
       (Py.set "quality_score" (Py.get "score" (JInt (-1)) score_data) data)).

(** The world after an iteration of the judge's loop that wrote [data']
    under [name] after [calls] external calls and the events [evs]. *)
Definition after (w : world) (calls : nat) (name : string) (data' : dict)
    (evs : list event) : world :=
  {| script := script w;
     spawned := (spawned w + calls)%nat;
     cells := <[name := data']> (cells w);
     combined := combined w;
     trace := trace w ++ evs |}.

(** The stored record has no valid score, or [force] is set: the judge pass
    grades it. *)
Definition needs_judging (args : JudgeArgs) (data : dict) : Prop :=
  j_force args = true
  \/ Py.lookup "quality_score" data = None
  \/ exists v q, Py.lookup "quality_score" data = Some v
                 /\ Py.number v = Some q /\ (q < 0)%Q.

(** The diagnostic of a judge call that yields no envelope. *)
Definition judge_failure (p : proc) : option string :=
  match p with
  | TimeoutExpired => Some "Judge timed out"
  | Completed returncode stdout stderr =>
      if process_failed returncode stdout
      then Some ("Judge error: " +:+ Str.take 200 stderr)
      else match json_loads stdout with
           | None => Some "Judge JSON parse error"
           | Some _ => None
           end
  end.

(** The events of grading one record. *)
Definition grading_events (args : JudgeArgs) (n i : nat) (task : Task)
    (answer name : string) (data' : dict) : list event :=
  EvSpawn (judge_cmd task answer (j_model args)) 120
  :: (if positive (j_pause args) && (Z.of_nat i <? Z.of_nat n - 1)
      then [EvSleep (j_pause args)] else [])
  ++ [EvWrite name data'].

(** The record is one the judge works on: its task is in the catalogue and
    its answer text is a non-empty string. *)
Definition judgeable (tasks : gmap string Task) (data : dict) (task : Task)
    (answer : string) : Prop :=
  find_task tasks data = Ok (Some task)
  /\ Py.get "result_text" (JStr EmptyString) data = JStr answer
  /\ answer <> EmptyString.


(** The world after an external call of the judge. *)
Definition called (w : world) (args : JudgeArgs) (task : Task)
    (answer : string) : world :=
  {| script := script w;
     spawned := S (spawned w);
     cells := cells w;
     combined := combined w;
     trace := trace w ++ [EvSpawn (judge_cmd task answer (j_model args)) 120] |}.

(** What one iteration of the judge's loop does on the stored record
    [data] of the file [name], from the world [w] and the cost [total]. *)
Inductive judge_step (tasks : gmap string Task) (args : JudgeArgs) (n i : nat)
    (total : Q) (name : string) (data : dict) (w : world)
  : res Q -> world -> Prop :=
| step_skipped r :
    r = Ok total \/ (forall x, r <> Ok x) ->
    judge_step tasks args n i total name data w r w
| step_keywords task answer :
    judgeable tasks data task answer ->
    j_keywords_only args = true ->
    judge_step tasks args n i total name data w (Ok total)
      (after w 0 name (with_keywords task answer data)
             [EvWrite name (with_keywords task answer data)])
| step_call_failed task answer r :
    judgeable tasks data task answer ->
    j_keywords_only args = false ->
    needs_judging args data ->
    (forall x, r <> Ok x) ->
    judge_step tasks args n i total name data w r (called w args task answer)
| step_graded task answer score_data c :
    judgeable tasks data task answer ->
    j_keywords_only args = false ->
    needs_judging args data ->
    judge_result (outcome (script w (spawned w))) = Ok score_data ->
    Py.number (Py.get "judge_cost_usd" (JInt 0) score_data) = Some c ->
    let data' := with_score score_data (with_keywords task answer data) in
    judge_step tasks args n i total name data w (Ok (total + c)%Q)
      (after w 1 name data' (grading_events args n i task answer name data')).

(** [data'] is what a judge pass writes back for the stored record [data]. *)
Definition rewritten (tasks : gmap string Task) (args : JudgeArgs)
    (data data' : dict) : Prop :=
  exists task answer,
    judgeable tasks data task answer
    /\ if j_keywords_only args then data' = with_keywords task answer data
       else exists score_data,
              data' = with_score score_data (with_keywords task answer data).

(** The store after a judge pass: every file is as it was, or is a success
    record written back by the pass. *)
Definition judged_store (tasks : gmap string Task) (args : JudgeArgs)
    (before now : gmap string dict) : Prop :=
  forall name,
    now !! name = before !! name
    \/ exists data data',
         before !! name = Some data /\ Py.has "error" data = false
         /\ now !! name = Some data' /\ rewritten tasks args data data'.

(** The world [w] is reached from [w0] by iterations of the judge's loop. *)
Definition judge_pass (tasks : gmap string Task) (args : JudgeArgs)
    (w0 w : world) : Prop :=
  script w = script w0
  /\ combined w = combined w0
  /\ (exists evs,
        trace w = trace w0 ++ evs
        /\ spawned w = (spawned w0 + length (List.filter is_spawn evs))%nat
        /\ (j_keywords_only args = true -> forallb is_write evs = true))
  /\ judged_store tasks args (cells w0) (cells w).

(** The filter of the judge's [load_results], as a test on a stored record. *)
Definition selects (task_ids : list string) (data : dict) : bool :=
  negb (Py.has "error" data)
  && match task_ids with
     | [] => true
     | _ => match Py.lookup "task_id" data with
            | Some (JStr t) => bool_decide (t ∈ task_ids)
            | _ => false
            end
     end.

(** What the keyword step of the judge stores for a record: the keyword
    fields, when the task of the record is in the catalogue and its answer
    is a non-empty string. *)
Definition with_keyword_fields (tasks : gmap string Task) (data : dict) : dict :=
  match find_task tasks data, Py.get "result_text" (JStr EmptyString) data with
  | Ok (Some task), JStr answer =>
      if Str.nonempty answer then with_keywords task answer data else data
  | _, _ => data
  end.

(** What a keywords-only pass of the judge makes of a stored record. *)
Definition keyworded (tasks : gmap string Task) (task_ids : list string)
    (data : dict) : dict :=
  if selects task_ids data then with_keyword_fields tasks data else data.

(** *** The batch *)

(** The invocation yields a failure record. *)
Definition run_failed (inv : invocation) : bool :=
  match outcome inv with
  | TimeoutExpired => true
  | Completed returncode stdout _ =>
      process_failed returncode stdout
      || match json_loads stdout with None => true | Some _ => false end
  end.

(** The condition is one of [CONDITIONS]. *)
Definition known (condition : string) : bool :=
  match assoc condition CONDITIONS with Some _ => true | None => false end.

(** The world after the external call of a cell. *)
Definition launched (w : world) (task : Task) (cfg model : string)
    (max_turns : option Z) : world :=
  {| script := script w;
     spawned := S (spawned w);
     cells := cells w;
     combined := combined w;
     trace := trace w
       ++ [EvSpawn (run_cmd task cfg model (turn_budget task max_turns)) 600] |}.

(** The loop of [run_benchmark] over a list of cells. *)
Definition run_cells_loop (total : Z) (model : string) (max_turns : option Z)
    (dry_run : bool) (pause : Q) (cells0 : list cell) (acc : Z * list dict)
  : M (Z * list dict) :=
  for_each (fun acc (c : cell) =>
              let '(run_id, task, condition) := c in
              run_cell total model max_turns dry_run pause run_id task acc condition)
           cells0 acc.

(** What the loop over a list of cells has done when it ends in the world
    [w'] with the outcome [r], having started in [w] with [c] cells done and
    the results [all]. *)
Definition batch_pass (total : Z) (dry_run : bool) (pause : Q)
    (cells0 : list cell) (c : Z) (all : list dict) (w : world)
    (r : res (Z * list dict)) (w' : world) : Prop :=
  script w' = script w
  /\ combined w' = combined w
  /\ (forall name, is_Some (cells w !! name) -> is_Some (cells w' !! name))
  /\ exists evs,
       trace w' = trace w ++ evs
       /\ count is_combined evs = 0%nat
       /\ spawned w' = (spawned w + count is_spawn evs)%nat
       /\ (positive pause = false -> count is_sleep evs = 0%nat)
       /\ (dry_run = true -> evs = [])
       /\ match r with
          | Ok (c', all') =>
              c' = c + Z.of_nat (length cells0)
              /\ all' = all ++ written evs
              /\ (dry_run = false ->
                  length (written evs) = length cells0
                  /\ count is_spawn evs = length cells0
                  /\ (positive pause = true ->
                      Z.of_nat (count is_sleep evs)
                      = Z.min c' (total - 1) - Z.min c (total - 1)))
          | Raise _ => True
          end.

(** *** The report *)

(** The key of a report entry. *)
Definition entry_key (e : Entry) : string * string := (e_task_id e, e_condition e).

(** Ascending order of strings, and of pairs of strings. *)
Definition string_le (a b : string) : Prop := String.leb a b = true.
Definition key_le (a b : string * string) : Prop := key_leb a b = true.

(** The record has the shape the orchestrator writes: its task id and
    condition are strings, and each metric it carries is a number. *)
Definition analyzable (r : dict) : Prop :=
  (exists t c, Py.lookup "task_id" r = Some (JStr t)
               /\ Py.lookup "condition" r = Some (JStr c))
  /\ forall k v, In k (map fst METRICS) -> Py.lookup k r = Some v ->
       is_Some (Py.number v).

(** The counts, the cost and the timings of the envelope are numbers where
    they are present. *)
Definition numeric_envelope (envelope : dict) : Prop :=
  (forall k v, In k ["num_turns"; "duration_ms"; "total_cost_usd"] ->
     Py.lookup k envelope = Some v -> is_Some (Py.number v))
  /\ (forall k v, In k ["input_tokens"; "output_tokens";
                       "cache_read_input_tokens"; "cache_creation_input_tokens"] ->
        Py.lookup k (usage_of envelope) = Some v -> is_Some (Py.number v)).

End Harness.

(** ** A library instance for the worked examples *)

(** A decoder for the JSON grammar on the modelled text range, standing for
    [json.loads] in the examples below.  (Escapes [\uXXXX] above U+00FF and
    the literals [NaN] and [Infinity] denote values outside the model and are
    not decoded.) *)
Module Decoder.

Definition is_ws (c : ascii) : bool :=
  let n := Str.ord c in ((n =? 32) || (n =? 9) || (n =? 10) || (n =? 13))%N.

Fixpoint skip_ws (s : string) : string :=
  match s with
  | String c r => if is_ws c then skip_ws r else s
  | EmptyString => EmptyString
  end.

(** The characters of a string literal after its opening quote, and what
    follows the closing quote. *)
Fixpoint chars (s : string) : option (string * string) :=
  match s with
  | EmptyString => None
  | String c r =>
      if Ascii.eqb c dq then Some (EmptyString, r)
      else if Ascii.eqb c "\" then
        match r with
        | String e r' =>
            let plain (x : ascii) :=
              match chars r' with
              | Some (t, rest) => Some (String x t, rest)
              | None => None
              end in
            if Ascii.eqb e dq then plain dq
            else if Ascii.eqb e "\" then plain "\"%char
            else if Ascii.eqb e "/" then plain "/"%char
            else if Ascii.eqb e "b" then plain "008"%char
            else if Ascii.eqb e "f" then plain "012"%char
            else if Ascii.eqb e "n" then plain "010"%char
            else if Ascii.eqb e "r" then plain "013"%char
            else if Ascii.eqb e "t" then plain "009"%char
            else None
        | EmptyString => None
        end
      else if (Str.ord c <? 32)%N then None
      else
        match chars r with
        | Some (t, rest) => Some (String c t, rest)
        | None => None
        end
  end.

Definition pow10 (k : nat) : Z := 10 ^ Z.of_nat k.

(** A number literal at the start of [s]: sign, integer part without
    leading zeros, optional fraction, optional exponent. *)
Definition number (s : string) : option (json * string) :=
  let '(neg, s1) :=
    match s with
    | String "-" r => (true, r)
    | _ => (false, s)
    end in
  let ip :=
    match s1 with
    | String "0" _ => "0"
    | _ => digits s1
    end in
  if negb (Str.nonempty ip) then None
  else
    let s2 := Str.drop (String.length ip) s1 in
    let sign (z : Z) := if neg then - z else z in
    let '(fp, s3) :=
      match s2 with
      | String "." r =>
          let d := digits r in
          if Str.nonempty d then (Some d, Str.drop (String.length d) r)
          else (None, s2)
      | _ => (None, s2)
      end in
    let '(ep, s4) :=
      match s3 with
      | String e r =>
          if Ascii.eqb e "e" || Ascii.eqb e "E" then
            let '(eneg, r1) :=
              match r with
              | String "-" r' => (true, r')
              | String "+" r' => (false, r')
              | _ => (false, r)
              end in
            let d := digits r1 in
            if Str.nonempty d
            then (Some (if eneg then - Py.int d else Py.int d),
                  Str.drop (String.length d) r1)
            else (None, s3)
          else (None, s3)
      | EmptyString => (None, s3)
      end in
    match fp, ep with
    | None, None => Some (JInt (sign (Py.int ip)), s4)
    | _, _ =>
        let f := default EmptyString fp in
        let m := sign (Py.int ip * pow10 (String.length f) + Py.int f) in
        let e := default 0 ep - Z.of_nat (String.length f) in
        let q :=
          if 0 <=? e then inject_Z (m * 10 ^ e)
          else (m # Z.to_pos (10 ^ (- e))) in
        Some (JFloat (Qred q), s4)
    end.

Section Nested.
Variable value : string -> option (json * string).

(** The elements of an array after the first, up to the closing bracket. *)
Fixpoint elements (fuel : nat) (acc : list json) (s : string)
  : option (json * string) :=
  match fuel with
  | O => None
  | S fuel =>
      match skip_ws s with
      | String "]" r => Some (JArr acc, r)
      | String "," r =>
          match value (skip_ws r) with
          | Some (v, rest) => elements fuel (acc ++ [v]) rest
          | None => None
          end
      | _ => None
      end
  end.

Definition member (s : string) : option ((string * json) * string) :=
  match s with
  | String c r =>
      if Ascii.eqb c dq then
        match chars r with
        | Some (k, rest) =>
            match skip_ws rest with
            | String ":" rest' =>
                match value (skip_ws rest') with
                | Some (v, rest'') => Some ((k, v), rest'')
                | None => None
                end
            | _ => None
            end
        | None => None
        end
      else None
  | EmptyString => None
  end.

(** The members of an object after the first, up to the closing brace. *)
Fixpoint members (fuel : nat) (acc : dict) (s : string)
  : option (json * string) :=
  match fuel with
  | O => None
  | S fuel =>
      match skip_ws s with
      | String "}" r => Some (JObj acc, r)
      | String "," r =>
          match member (skip_ws r) with
          | Some ((k, v), rest) => members fuel (Py.set k v acc) rest
          | None => None
          end
      | _ => None
      end
  end.

End Nested.

(** A value at the start of [s]; [fuel] bounds the nesting depth. *)
Fixpoint value (fuel : nat) (s : string) : option (json * string) :=
  match fuel with
  | O => None
  | S fuel =>
      if Str.startswith "null" s then Some (JNull, Str.drop 4 s)
      else if Str.startswith "true" s then Some (JBool true, Str.drop 4 s)
      else if Str.startswith "false" s then Some (JBool false, Str.drop 5 s)
      else
        match s with
        | String c r =>
            if Ascii.eqb c dq then
              match chars r with
              | Some (t, rest) => Some (JStr t, rest)
              | None => None
              end
            else if Ascii.eqb c "[" then
              match skip_ws r with
              | String "]" rest => Some (JArr [], rest)
              | r' =>
                  match value fuel r' with
                  | Some (v, rest) => elements (value fuel) (String.length s) [v] rest
                  | None => None
                  end
              end
            else if Ascii.eqb c "{" then
              match skip_ws r with
              | String "}" rest => Some (JObj [], rest)
              | r' =>
                  match member (value fuel) r' with
                  | Some ((k, v), rest) =>
                      members (value fuel) (String.length s) [(k, v)] rest
                  | None => None
                  end
              end
            else number s
        | EmptyString => None
        end
  end.

Definition loads (s : string) : option json :=
  match value (S (String.length s)) (skip_ws s) with
  | Some (v, rest) =>
      match skip_ws rest with
      | EmptyString => Some v
      | _ => None
      end
  | None => None
  end.

End Decoder.

(** Example texts are written with ['] where the text has a double quote. *)
Fixpoint text (s : string) : string :=
  match s with
  | EmptyString => EmptyString
  | String c r => String (if Ascii.eqb c "'" then dq else c) (text r)
  end.

(** The library of the examples.  [json_dumps], [round2] and [fsqrt] do not
    influence any of them and are left trivial; [locate] lets no file be
    opened under a name that is not a single path component. *)
Definition example_lib : PyLib := {|
  json_loads := Decoder.loads;
  json_dumps := fun _ => "[]";
  round2 := fun q => q;
  fsqrt := fun q => q;
  BENCH_DIR := "/repo/bench";
  PROJECT_DIR := "/repo";
  locate := fun _ => Raise OSError
|}.

(** The worlds of the examples: the given result files, no combined file, an
    empty trace, and a script that yields the given invocations in turn
    (and times out once they are used up). *)
Definition example_world (files : list (string * dict))
    (invocations : list invocation) : world :=
  {| script := fun k => default (Invocation TimeoutExpired 0) (invocations !! k);
     spawned := 0;
     cells := list_to_map files;
     combined := None;
     trace := [] |}.

(** A process that exits with status 0 and the given standard output. *)
Definition prints (stdout : string) : invocation :=
  Invocation (Completed 0 stdout EmptyString) 1.

Definition example_task : Task :=
  {| id := "T1";
     prompt := "How are failed jobs retried?";
     rubric := "Full marks for naming the queue and the retry policy.";
     expected_answer_keywords := ["Queue"; "Retry"];
     max_turns := None |}.

Definition judge_args (force keywords_only : bool) : JudgeArgs :=
  {| j_tasks := [];
     j_model := "sonnet";
     j_force := force;
     j_pause := 2;
     j_keywords_only := keywords_only |}.

(** A stored success record of [example_task] with the given extra fields. *)
Definition example_record (extra : dict) : dict :=
  [ ("task_id", JStr "T1");
    ("condition", JStr "baseline");
    ("run_id", JInt 1);
    ("result_text", JStr "uses a retry strategy with a QUEUE") ] ++ extra.

(** Three judged runs of one group, with the quality scores 8, -1 and 9. *)
Definition judged_runs : list dict :=
  [ example_record [("quality_score", JInt 8)];
    example_record [("quality_score", JInt (-1))];
    example_record [("quality_score", JInt 9)] ].



(** * Properties *)

(** ** Strings *)

#[local] Arguments String.append !s1 s2 /.

Lemma startswith_spec p s :
  Str.startswith p s = true <-> exists r, s = p +:+ r.
Proof.
  revert s; induction p as [|a p IH]; intros s; simpl.
  - split; [intros _; exists s; reflexivity | reflexivity].
  - destruct s as [|b s'].
    + split; [discriminate | intros [r Hr]; discriminate].
    + destruct (Ascii.eqb_spec a b) as [->|Hne].
      * rewrite IH. split; intros [r Hr]; exists r; [now rewrite Hr | now inversion Hr].
      * split; [discriminate | intros [r Hr]; simpl in Hr; congruence].
Qed.

Lemma contains_spec needle hay :
  Str.contains needle hay = true <->
  exists pre post, hay = pre +:+ needle +:+ post.
Proof.
  induction hay as [|c hay IH]; simpl.
  - rewrite orb_false_r, startswith_spec. split.
    + intros [r Hr]. exists EmptyString, r. exact Hr.
    + intros [pre [post Hp]]. destruct pre; [now exists post | discriminate].
  - rewrite orb_true_iff, startswith_spec, IH. split.
    + intros [[r Hr] | [pre [post Hp]]].
      * exists EmptyString, r. exact Hr.
      * exists (String c pre), post. simpl. now rewrite Hp.
    + intros [pre [post Hp]]. destruct pre as [|x pre]; simpl in Hp.
      * left. now exists post.
      * right. exists pre, post. now inversion Hp.
Qed.

Lemma lower_append a b : Str.lower (a +:+ b) = Str.lower a +:+ Str.lower b.
Proof. induction a as [|x a IH]; simpl; [reflexivity | now rewrite IH]. Qed.

Lemma lower_split s a b :
  Str.lower s = a +:+ b ->
  exists x y, s = x +:+ y /\ Str.lower x = a /\ Str.lower y = b.
Proof.
  revert s; induction a as [|c a IH]; intros s Hs; simpl in Hs.
  - exists EmptyString, s. auto.
  - destruct s as [|d s]; [discriminate |]. simpl in Hs. inversion Hs; subst.
    destruct (IH s H1) as [x [y [-> [Hx Hy]]]].
    exists (String d x), y. simpl. now rewrite Hx, Hy.
Qed.

(** The test of the code decides the containment of the specification. *)
Lemma contains_lower_iff kw text :
  Str.contains (Str.lower kw) (Str.lower text) = true <-> ci_substring kw text.
Proof.
  rewrite contains_spec. unfold ci_substring, ci_equal. split.
  - intros [a [b Hab]].
    destruct (lower_split _ _ _ Hab) as [pre [rest [-> [Hpre Hrest]]]].
    destruct (lower_split _ _ _ Hrest) as [mid [post [-> [Hmid Hpost]]]].
    exists pre, mid, post. auto.
  - intros [pre [mid [post [-> Hmid]]]].
    exists (Str.lower pre), (Str.lower post).
    now rewrite !lower_append, Hmid.
Qed.

Lemma keyword_loop_filter text_lower keywords hits :
  keyword_loop text_lower keywords hits =
  hits ++ List.filter (fun kw => Str.contains (Str.lower kw) text_lower) keywords.
Proof.
  unfold keyword_loop. revert hits.
  induction keywords as [|kw r IH]; intros hits; simpl.
  - now rewrite app_nil_r.
  - rewrite IH. destruct (Str.contains _ _); [now rewrite <- app_assoc | reflexivity].
Qed.

Lemma filter_bool_prop {A} (f : A -> bool) (P : A -> Prop)
    `{forall x, Decision (P x)} (l : list A) :
  (forall x, f x = true <-> P x) -> List.filter f l = filter P l.
Proof.
  intros Hf. induction l as [|x l IH]; [reflexivity |].
  simpl. rewrite filter_cons, IH.
  destruct (f x) eqn:E; destruct (decide (P x)) as [Hp|Hp]; try reflexivity.
  - exfalso. apply Hp, Hf, E.
  - apply Hf in Hp. congruence.
Qed.

Lemma count_keyword_hits_filter text keywords
    `{!forall kw, Decision (ci_substring kw text)} :
  count_keyword_hits text keywords =
  (length (filter (fun kw => ci_substring kw text) keywords),
   filter (fun kw => ci_substring kw text) keywords).
Proof.
  unfold count_keyword_hits. rewrite keyword_loop_filter. simpl.
  rewrite (filter_bool_prop _ (fun kw => ci_substring kw text)); [reflexivity |].
  intros kw. apply contains_lower_iff.
Qed.

(** The containment of the specification is decidable. *)
Lemma ci_substring_dec kw text : Decision (ci_substring kw text).
Proof.
  destruct (Str.contains (Str.lower kw) (Str.lower text)) eqn:E.
  - left. now apply contains_lower_iff.
  - right. intros Hc. apply contains_lower_iff in Hc. congruence.
Qed.

(** ** Keyword coverage *)

(** C4. For every answer text and every ordered keyword list,
    [count_keyword_hits] returns the number and the list of the keywords
    that occur in the text as a substring up to letter case; the list
    keeps the order (and the repetitions) of the keyword list, whatever the
    order of the occurrences in the text.  ([filter] is taken with any
    procedure that decides the containment.)  For the keywords Queue, Retry and
    the text [uses a retry strategy with a QUEUE] the result is 2 and
    Queue, Retry. *)
Theorem keyword_coverage_case_insensitive_in_task_order :
  (forall (answer : string) (keywords : list string)
          `{!forall kw, Decision (ci_substring kw answer)},
     let '(hit_count, hit_list) := count_keyword_hits answer keywords in
     hit_list = filter (fun kw => ci_substring kw answer) keywords
     /\ hit_count = length hit_list
     /\ sublist hit_list keywords
     /\ forall kw, kw ∈ hit_list <-> kw ∈ keywords /\ ci_substring kw answer)
  /\ count_keyword_hits "uses a retry strategy with a QUEUE" ["Queue"; "Retry"]
     = (2%nat, ["Queue"; "Retry"]).
Proof.
  split; [| reflexivity].
  intros answer keywords dec.
  rewrite (@count_keyword_hits_filter answer keywords dec).
  split; [reflexivity |]. split; [reflexivity |].
  split; [apply sublist_filter |].
  intros kw. rewrite list_elem_of_filter. tauto.
Qed.

Lemma lower_empty s : Str.lower s = EmptyString -> s = EmptyString.
Proof. destruct s; [reflexivity | discriminate]. Qed.

Lemma ci_substring_empty_text kw : ci_substring kw EmptyString <-> kw = EmptyString.
Proof.
  unfold ci_substring, ci_equal. split.
  - intros [pre [mid [post [Ht Hm]]]].
    destruct pre; [| discriminate]. destruct mid; [| discriminate].
    symmetry in Hm. now apply lower_empty.
  - intros ->. exists EmptyString, EmptyString, EmptyString. auto.
Qed.

(** ** Computations on the world *)

Lemma bind_lift_ok {A B} (a : A) (k : A -> M B) (w : world) :
  bind (lift (Ok a)) k w = k a w.
Proof. reflexivity. Qed.

Lemma bind_lift_raise {A B} (e : exn) (k : A -> M B) (w : world) :
  bind (lift (Raise e)) k w = (Raise e, w).
Proof. reflexivity. Qed.

Lemma bind_ret {A B} (a : A) (k : A -> M B) (w : world) :
  bind (ret a) k w = k a w.
Proof. reflexivity. Qed.


(** ** Python dicts *)

Lemma lookup_set_eq k v d : Py.lookup k (Py.set k v d) = Some v.
Proof.
  induction d as [|[k' v'] d IH]; simpl.
  - now rewrite String.eqb_refl.
  - destruct (String.eqb_spec k k') as [->|Hne]; simpl.
    + now rewrite String.eqb_refl.
    + destruct (String.eqb_spec k k'); [contradiction | exact IH].
Qed.

Lemma lookup_set_ne k k' v d :
  k <> k' -> Py.lookup k (Py.set k' v d) = Py.lookup k d.
Proof.
  intros Hne. induction d as [|[k0 v0] d IH]; simpl.
  - destruct (String.eqb_spec k k'); [contradiction | reflexivity].
  - destruct (String.eqb_spec k' k0) as [->|Hk]; simpl.
    + destruct (String.eqb_spec k k0); [contradiction | reflexivity].
    + destruct (String.eqb_spec k k0); [reflexivity | exact IH].
Qed.

Lemma get_set_ne k k' v default d :
  k <> k' -> Py.get k default (Py.set k' v d) = Py.get k default d.
Proof. intros Hne. unfold Py.get. now rewrite lookup_set_ne. Qed.

Lemma py_add_numeric a b :
  is_Some (Py.number a) -> is_Some (Py.number b) ->
  exists v, py_add a b = Ok v /\ is_Some (Py.number v).
Proof.
  intros [x Hx] [y Hy].
  destruct a as [| | | | | |]; try discriminate;
    destruct b as [| | | | | |]; try discriminate; cbn; eauto.
Qed.

Lemma get_or_default_numeric k d :
  (forall v, Py.lookup k d = Some v -> is_Some (Py.number v)) ->
  is_Some (Py.number (Py.get k (JInt 0) d)).
Proof.
  intros Hk. unfold Py.get.
  destruct (Py.lookup k d) as [v|]; [now apply Hk | now eexists].
Qed.

(** ** The judge's score extraction *)

Lemma lstrip_spaces ws r :
  Str.all Str.isspace ws = true -> Str.lstrip (ws +:+ r) = Str.lstrip r.
Proof.
  induction ws as [|c ws IH]; simpl; [reflexivity |].
  intros Hall. apply andb_true_iff in Hall as [Hc Hws].
  rewrite Hc. now apply IH.
Qed.

Lemma digits_prefix ds r :
  Str.all Str.isdigit ds = true ->
  digits (ds +:+ String "." r) = ds.
Proof.
  induction ds as [|c ds IH]; simpl; [reflexivity |].
  intros Hall. apply andb_true_iff in Hall as [Hc Hds].
  rewrite Hc. f_equal. now apply IH.
Qed.

Lemma score_match_fractional ws1 ws2 ds rest :
  Str.all Str.isspace ws1 = true ->
  Str.all Str.isspace ws2 = true ->
  Str.all Str.isdigit ds = true ->
  ds <> EmptyString ->
  score_match (fractional_score ws1 ws2 ds rest) = Some ds.
Proof.
  intros H1 H2 Hd Hne. unfold score_match, fractional_score, quoted.
  cbn [String.append Str.startswith Str.drop].
  rewrite !Ascii.eqb_refl. cbn [Str.drop].
  rewrite (lstrip_spaces ws1) by exact H1.
  cbn [String.append Str.lstrip]. change (Str.isspace ":") with false. cbv iota.
  rewrite (lstrip_spaces ws2) by exact H2.
  assert (Hl : Str.lstrip (ds +:+ String "." rest) = ds +:+ String "." rest).
  { destruct ds as [|c ds]; [contradiction |]. simpl in Hd |- *.
    apply andb_true_iff in Hd as [Hc _].
    destruct c as [[] [] [] [] [] [] [] []]; try discriminate Hc; reflexivity. }
  rewrite Hl, digits_prefix by exact Hd.
  destruct ds; [contradiction | reflexivity].
Qed.

Lemma score_search_unfold s :
  score_search s =
  match score_match s with
  | Some d => Some d
  | None =>
      match s with
      | EmptyString => None
      | String _ r => score_search r
      end
  end.
Proof. destruct s; reflexivity. Qed.

Lemma score_search_leftmost pre tail d :
  no_earlier_match pre tail ->
  score_match tail = Some d ->
  score_search (pre +:+ tail) = Some d.
Proof.
  induction pre as [|c pre IH]; intros Hno Hm.
  - change (EmptyString +:+ tail) with tail.
    now rewrite score_search_unfold, Hm.
  - rewrite score_search_unfold.
    rewrite (Hno EmptyString (String c pre) eq_refl) by discriminate.
    change (String c pre +:+ tail) with (String c (pre +:+ tail)). cbv iota.
    apply IH; [| exact Hm].
    intros a b Hab Hb. apply (Hno (String c a) b); [| exact Hb].
    simpl. now rewrite Hab.
Qed.

(** A text without a double quote holds no start of a match. *)
Lemma quote_free_no_earlier_match pre tail :
  Str.all (fun c => negb (Ascii.eqb c dq)) pre = true ->
  no_earlier_match pre tail.
Proof.
  intros Hall a b Hab Hb. subst pre.
  assert (Hbq : Str.all (fun c => negb (Ascii.eqb c dq)) b = true).
  { clear Hb. induction a as [|x a IH]; [exact Hall |].
    simpl in Hall. apply andb_true_iff in Hall as [_ Ha]. now apply IH. }
  destruct b as [|c b]; [contradiction |].
  simpl in Hbq. apply andb_true_iff in Hbq as [Hc _].
  unfold score_match, quoted. cbn [String.append Str.startswith].
  rewrite Ascii.eqb_sym. apply negb_true_iff in Hc. now rewrite Hc.
Qed.

Lemma int_digits_nonneg s acc : 0 <= acc -> Str.all Str.isdigit s = true ->
  0 <= Py.int_digits acc s.
Proof.
  revert acc; induction s as [|c s IH]; intros acc Hacc Hall; simpl; [exact Hacc |].
  simpl in Hall. apply andb_true_iff in Hall as [Hc Hs].
  apply IH; [| exact Hs].
  unfold Str.isdigit in Hc. apply andb_true_iff in Hc as [Hlo _].
  apply N.leb_le in Hlo. lia.
Qed.

Section ScoreExtraction.
Context `{PyLib}.

Lemma process_failed_false returncode stdout :
  returncode = 0 \/ Str.strip stdout <> EmptyString ->
  process_failed returncode stdout = false.
Proof.
  unfold process_failed. intros [-> | Hs]; [reflexivity |].
  destruct (Str.strip stdout); [contradiction |].
  simpl. apply andb_false_r.
Qed.

(** The stages of [judge_answer] on the outcomes it handles. *)
Lemma judge_result_timeout :
  judge_result TimeoutExpired = Ok (sentinel "Judge timed out").
Proof. reflexivity. Qed.

Lemma judge_result_process_error returncode stdout stderr :
  returncode <> 0 -> Str.strip stdout = EmptyString ->
  judge_result (Completed returncode stdout stderr)
  = Ok (sentinel ("Judge error: " +:+ Str.take 200 stderr)).
Proof.
  intros Hrc Hs. unfold judge_result. rewrite Hs.
  apply Z.eqb_neq in Hrc. now rewrite Hrc.
Qed.

Lemma judge_result_envelope_error returncode stdout stderr :
  process_failed returncode stdout = false ->
  json_loads stdout = None ->
  judge_result (Completed returncode stdout stderr)
  = Ok (sentinel "Judge JSON parse error").
Proof.
  intros Hp Hj. unfold judge_result. fold (process_failed returncode stdout).
  now rewrite Hp, Hj.
Qed.

Lemma judge_result_envelope returncode stdout stderr envelope :
  process_failed returncode stdout = false ->
  json_loads stdout = Some (JObj envelope) ->
  judge_result (Completed returncode stdout stderr)
  = res_bind (parse_score (Py.get "result" (JStr EmptyString) envelope))
      (fun score_data =>
         Py.setitem score_data "judge_cost_usd"
           (Py.get "total_cost_usd" (JInt 0) envelope)).
Proof.
  intros Hp Hj. unfold judge_result. fold (process_failed returncode stdout).
  now rewrite Hp, Hj.
Qed.

Lemma parse_score_object t score_data :
  json_loads (Str.strip (strip_fences t)) = Some (JObj score_data) ->
  parse_score (JStr t) = Ok (JObj score_data).
Proof. intros Hj. unfold parse_score. now rewrite Hj. Qed.

Lemma parse_score_regex t d :
  json_loads (Str.strip (strip_fences t)) = None ->
  score_search t = Some d ->
  parse_score (JStr t)
  = Ok (JObj [("score", JInt (Py.int d)); ("reasoning", JStr (Str.take 200 t))]).
Proof. intros Hj Hs. unfold parse_score. now rewrite Hj, Hs. Qed.

Lemma parse_score_sentinel t :
  json_loads (Str.strip (strip_fences t)) = None ->
  score_search t = None ->
  parse_score (JStr t)
  = Ok (JObj (sentinel ("Failed to parse: " +:+ Str.take 200 t))).
Proof. intros Hj Hs. unfold parse_score. now rewrite Hj, Hs. Qed.

(** C10. When the envelope's result text does not decode as JSON after
    fence stripping, and its leftmost score key is followed by a number
    with a fractional part (digits [ds], a point, then anything),
    [judge_answer] returns the integer the digits before the point denote
    as the score: the fraction is dropped, and the result is not the
    sentinel -1.  The reasoning is the first 200 characters of the text. *)
Theorem regex_fallback_truncates_fractional_score
    (returncode : Z) (stdout stderr : string) (envelope : dict)
    (pre ws1 ws2 ds rest : string) :
  let result_text := pre +:+ fractional_score ws1 ws2 ds rest in
  (returncode = 0 \/ Str.strip stdout <> EmptyString) ->
  json_loads stdout = Some (JObj envelope) ->
  Py.lookup "result" envelope = Some (JStr result_text) ->
  json_loads (Str.strip (strip_fences result_text)) = None ->
  Str.all Str.isspace ws1 = true ->
  Str.all Str.isspace ws2 = true ->
  Str.all Str.isdigit ds = true ->
  ds <> EmptyString ->
  no_earlier_match pre (fractional_score ws1 ws2 ds rest) ->
  judge_result (Completed returncode stdout stderr)
  = Ok [ ("score", JInt (Py.int ds));
         ("reasoning", JStr (Str.take 200 result_text));
         ("judge_cost_usd", Py.get "total_cost_usd" (JInt 0) envelope) ]
  /\ 0 <= Py.int ds.
Proof.
  intros result_text Hrc Henv Hres Hclean Hw1 Hw2 Hd Hne Hleft. split.
  - rewrite (judge_result_envelope _ _ _ envelope)
      by (try apply process_failed_false; assumption).
    unfold Py.get at 1. rewrite Hres.
    rewrite (parse_score_regex result_text ds); [reflexivity | exact Hclean |].
    apply score_search_leftmost; [exact Hleft |].
    now apply score_match_fractional.
  - apply int_digits_nonneg; [lia | exact Hd].
Qed.

End ScoreExtraction.

(** C10 on a result text that says: I would say, then the score key with
    the value 7.5, then: out of 10.  The score recorded is 7. *)
Lemma regex_fallback_truncates_fractional_score_witness :
  @judge_result example_lib
    (Completed 0 (text "{'result': 'I would say \'score\': 7.5 out of 10'}")
               EmptyString)
  = Ok [ ("score", JInt 7);
         ("reasoning", JStr (text "I would say 'score': 7.5 out of 10"));
         ("judge_cost_usd", JInt 0) ].
Proof.
  apply (@regex_fallback_truncates_fractional_score example_lib
           0 (text "{'result': 'I would say \'score\': 7.5 out of 10'}")
           EmptyString
           [("result", JStr (text "I would say 'score': 7.5 out of 10"))]
           "I would say " EmptyString " " "7" "5 out of 10").
  - left. reflexivity.
  - reflexivity.
  - reflexivity.
  - reflexivity.
  - reflexivity.
  - reflexivity.
  - reflexivity.
  - discriminate.
  - apply quote_free_no_earlier_match. reflexivity.
Defined.

(** ** Re-judging *)

Lemma get_set_eq k v default d : Py.get k default (Py.set k v d) = v.
Proof. unfold Py.get. now rewrite lookup_set_eq. Qed.

Lemma In_insert_by {A} (leb : A -> A -> bool) x y l :
  In y (insert_by leb x l) <-> y = x \/ In y l.
Proof.
  induction l as [|z l IH]; simpl; [intuition |].
  destruct (leb x z); simpl; [intuition |]. rewrite IH. intuition.
Qed.

Lemma In_sort_by {A} (leb : A -> A -> bool) y l :
  In y (sort_by leb l) <-> In y l.
Proof.
  unfold sort_by. induction l as [|x l IH]; simpl; [reflexivity |].
  rewrite In_insert_by, IH. intuition.
Qed.

Lemma In_result_files w name data :
  In (name, data) (result_files w) <-> cells w !! name = Some data.
Proof.
  unfold result_files. rewrite In_sort_by, <- list_elem_of_In.
  apply elem_of_map_to_list.
Qed.

Lemma In_enumerate {A} (l : list A) i x : In (i, x) (enumerate l) -> In x l.
Proof. unfold enumerate. apply in_combine_r. Qed.

Section Rejudging.
Context `{PyLib}.

Lemma select_results_ok task_ids files :
  (forall name data, In (name, data) files ->
     Py.has "error" data = true \/ well_typed_record data) ->
  exists sel, select_results task_ids files = Ok sel
    /\ forall item, In item sel ->
         In item files /\ Py.has "error" (snd item) = false.
Proof.
  induction files as [|[name data] files IH]; intros Hw.
  - exists []. split; [reflexivity | intros item []].
  - destruct IH as [sel [Hsel Hin]].
    { intros n d Hd. apply (Hw n d). now right. }
    simpl. rewrite Hsel. unfold selected.
    destruct (Py.has "error" data) eqn:He.
    + simpl. exists sel. split; [reflexivity |].
      intros item Hi. destruct (Hin item Hi). split; [now right | assumption].
    + assert (Hk : exists keep, match task_ids with
        | [] => Ok true
        | _ :: _ =>
            match Py.lookup "task_id" data with
            | Some (JStr t) => Ok (bool_decide (t ∈ task_ids))
            | Some _ => Ok false
            | None => Raise KeyError
            end
        end = Ok keep).
      { destruct task_ids; [now exists true |].
        destruct (Hw name data (or_introl eq_refl)) as [Hc | [[t Ht] _]];
          [congruence |].
        rewrite Ht. eauto. }
      destruct Hk as [keep ->]. simpl.
      exists (if keep then (name, data) :: sel else sel). split; [reflexivity |].
      intros item Hi. destruct keep.
      * destruct Hi as [<- | Hi]; [split; [now left | exact He] |].
        destruct (Hin item Hi). split; [now right | assumption].
      * destruct (Hin item Hi). split; [now right | assumption].
Qed.



End Rejudging.

(** ** Failures of the judge's score extraction *)

Section JudgeRaises.
Context `{PyLib}.

(** A result text that decodes to a JSON value other than an object makes
    [judge_answer] raise: the assignment of the cost to the score data is
    outside the [try] block. *)
Lemma judge_result_raises_on_non_object returncode stdout stderr envelope t v :
  process_failed returncode stdout = false ->
  json_loads stdout = Some (JObj envelope) ->
  Py.get "result" (JStr EmptyString) envelope = JStr t ->
  json_loads (Str.strip (strip_fences t)) = Some v ->
  (forall d, v <> JObj d) ->
  judge_result (Completed returncode stdout stderr) = Raise TypeError.
Proof.
  intros Hp Henv Hres Hv Hobj.
  rewrite (judge_result_envelope _ _ _ envelope Hp Henv), Hres.
  unfold parse_score. rewrite Hv. simpl.
  destruct v; try reflexivity. now destruct (Hobj kv).
Qed.

(** A result that is not a string makes [judge_answer] raise: the handler
    of the [TypeError] searches the same value. *)
Lemma judge_result_raises_on_non_string returncode stdout stderr envelope v :
  process_failed returncode stdout = false ->
  json_loads stdout = Some (JObj envelope) ->
  Py.get "result" (JStr EmptyString) envelope = v ->
  (forall t, v <> JStr t) ->
  judge_result (Completed returncode stdout stderr) = Raise TypeError.
Proof.
  intros Hp Henv Hres Hstr.
  rewrite (judge_result_envelope _ _ _ envelope Hp Henv), Hres.
  destruct v; try reflexivity. now destruct (Hstr s).
Qed.

End JudgeRaises.

(** C1. The stages of the judge's score extraction do not end in the
    sentinel -1 on every failure.  When the grader answers with the bare
    number 7 (the envelope's result text is [7]), the stripped text decodes
    as JSON, but not to an object, and [judge_answer] raises [TypeError]
    instead of trying the regular expression and returning -1; the same
    happens when the envelope's result is [null].  A forced judge pass over
    a record holding the sentinel then ends with the exception, after the
    external call, with the stored record untouched. *)
Theorem judge_answer_raises_instead_of_sentinel :
  let bare := prints (text "{'result': '7'}") in
  let null := prints (text "{'result': null}") in
  let failed := example_record [("quality_score", JInt (-1))] in
  let w := example_world [("T1_baseline_run1.json", failed)] [bare] in
  let pass := @judge_main example_lib [example_task] (judge_args true false) w in
  @judge_result example_lib (outcome bare) = Raise TypeError
  /\ @judge_result example_lib (outcome null) = Raise TypeError
  /\ fst pass = Raise TypeError
  /\ spawned (snd pass) = 1%nat
  /\ cells (snd pass) = cells w.
Proof.
  cbv zeta.
  split; [vm_compute; reflexivity |]. split; [vm_compute; reflexivity |].
  split; [vm_compute; reflexivity |]. split; vm_compute; reflexivity.
Qed.

(** ** One cell of the run matrix *)

Section RunCell.
Context `{PyLib}.

Lemma success_object task condition run_id model envelope wall :
  match Py.lookup "usage" envelope with
  | None | Some (JObj _) => True
  | Some _ => False
  end ->
  success task condition run_id model (JObj envelope) wall
  = Ok (success_record task condition run_id model envelope wall).
Proof.
  intros Hu. unfold success, success_record, usage_of, Py.get_attr.
  unfold Py.get at 1.
  destruct (Py.lookup "usage" envelope) as [[| | | | | |usage]|];
    try contradiction; reflexivity.
Qed.

Lemma run_result_well_shaped task condition run_id model inv :
  well_shaped inv ->
  exists record,
    run_result task condition run_id model inv = Ok record
    /\ expected_record task condition run_id model inv record.
Proof.
  unfold well_shaped, run_result, expected_record.
  destruct (outcome inv) as [|returncode stdout stderr]; [eauto |].
  fold (process_failed returncode stdout).
  destruct (process_failed returncode stdout); [eauto |].
  destruct (json_loads stdout) as [[| | | | | |envelope]|];
    try contradiction; [| eauto].
  intros Hu. rewrite success_object by exact Hu. eauto.
Qed.

(** The progress line of a success record adds the two token counts and
    formats the cost. *)
Lemma progress_line_success task condition run_id model envelope wall :
  progress_line (success_record task condition run_id model envelope wall)
  = success_progress envelope.
Proof.
  unfold progress_line, success_progress, success_record.
  cbn -[py_add Py.format_fixed Py.get usage_of].
  destruct (py_add _ _); cbn -[Py.format_fixed Py.get]; [| reflexivity].
  destruct (Py.format_fixed _) as [[]|]; reflexivity.
Qed.


(** The progress line of the record of a well-shaped invocation: it
    evaluates for a failure record, and for the success record of a
    reportable invocation. *)
Lemma progress_line_expected task condition run_id model inv record :
  expected_record task condition run_id model inv record ->
  (Py.has "error" record = true -> progress_line record = Ok tt)
  /\ (forall envelope,
        record = success_record task condition run_id model envelope (elapsed inv) ->
        progress_line record = success_progress envelope)
  /\ (reportable inv -> progress_line record = Ok tt).
Proof.
  intros He. split; [| split].
  - unfold expected_record in He.
    destruct (outcome inv) as [|returncode stdout stderr]; [now subst |].
    destruct (process_failed returncode stdout); [now subst |].
    destruct (json_loads stdout) as [[| | | | | |envelope]|];
      try contradiction; [| now subst].
    subst record. discriminate.
  - intros envelope ->. apply progress_line_success.
  - unfold expected_record in He. unfold reportable.
    destruct (outcome inv) as [|returncode stdout stderr]; [now subst |].
    destruct (process_failed returncode stdout); [now subst |].
    destruct (json_loads stdout) as [[| | | | | |envelope]|];
      try contradiction; [| now subst].
    subst record. intros Hp. now rewrite progress_line_success.
Qed.

(** Under a file name that is a single path component, [save_result] writes
    the file of that name in the results directory. *)
Lemma save_result_plain task condition run_id result w :
  plain (result_name (id task) condition run_id) = true ->
  save_result task condition run_id result w
  = write_cell (result_name (id task) condition run_id) result w.
Proof. intros Hp. unfold save_result. now rewrite Hp. Qed.

(** A cell whose [run_task] returns a record appends it to the results and
    writes it under the cell's name before anything else happens; then the
    progress line is evaluated, and the cell ends there when it raises. *)
Lemma run_cell_persists total model max_turns pause run_id task completed all
    condition cfg record w :
  assoc condition CONDITIONS = Some cfg ->
  plain (result_name (id task) condition run_id) = true ->
  run_result task condition run_id model (script w (spawned w)) = Ok record ->
  run_cell total model max_turns false pause run_id task (completed, all)
           condition w
  = match progress_line record with
    | Ok _ =>
        (Ok (completed + 1, all ++ [record]),
         {| script := script w;
            spawned := S (spawned w);
            cells := <[result_name (id task) condition run_id := record]> (cells w);
            combined := combined w;
            trace := trace w ++ cell_events total pause model max_turns
                                  (completed + 1) run_id task condition record |})
    | Raise e =>
        (Raise e,
         {| script := script w;
            spawned := S (spawned w);
            cells := <[result_name (id task) condition run_id := record]> (cells w);
            combined := combined w;
            trace := trace w ++ cell_start model max_turns run_id task condition
                                  record |})
    end.
Proof.
  intros Hc Hp Hr.
  unfold run_cell, run_task, cell_events, cell_start, bind, subprocess_run, lift, ret.
  rewrite Hc. cbn -[run_result run_cmd turn_budget result_name positive save_result
                    progress_line].
  rewrite Hr, save_result_plain by exact Hp.
  unfold write_cell, sleep, emit.
  cbn -[run_cmd turn_budget result_name positive progress_line].
  destruct (progress_line record) as [[]|e].
  - destruct (positive pause && (completed + 1 <? total));
      cbn -[run_cmd turn_budget result_name]; rewrite <- ?app_assoc; reflexivity.
  - rewrite <- ?app_assoc. reflexivity.
Qed.



End RunCell.



(** ** File names of the cells *)

Lemma chars_app (a b : string) :
  list_ascii_of_string (a +:+ b)
  = list_ascii_of_string a ++ list_ascii_of_string b.
Proof. induction a as [|c a IH]; simpl; [reflexivity | now rewrite IH]. Qed.

Lemma chars_inj (a b : string) :
  list_ascii_of_string a = list_ascii_of_string b -> a = b.
Proof.
  intros Hab. rewrite <- (string_of_list_ascii_of_string a),
    <- (string_of_list_ascii_of_string b). now rewrite Hab.
Qed.

Lemma all_chars p s :
  Str.all p s = true <-> Forall (fun c => p c = true) (list_ascii_of_string s).
Proof.
  induction s as [|c s IH]; simpl.
  - split; [constructor | reflexivity].
  - rewrite andb_true_iff, IH. split.
    + intros [Hc Hs]. now constructor.
    + intros Hf. inversion Hf; subst. auto.
Qed.

Lemma digit_prefix_unique (d1 d2 r1 r2 : list ascii) (x : ascii) :
  Str.isdigit x = false ->
  Forall (fun c => Str.isdigit c = true) d1 ->
  Forall (fun c => Str.isdigit c = true) d2 ->
  d1 ++ x :: r1 = d2 ++ x :: r2 -> d1 = d2 /\ r1 = r2.
Proof.
  intros Hx. revert d2. induction d1 as [|a d1 IH]; intros d2 H1 H2 Heq.
  - destruct d2 as [|b d2]; simpl in Heq.
    + split; [reflexivity | congruence].
    + inversion H2; subst. inversion Heq; subst. congruence.
  - destruct d2 as [|b d2]; simpl in Heq.
    + inversion H1; subst. inversion Heq; subst. congruence.
    + inversion H1; subst. inversion H2; subst. inversion Heq; subst.
      destruct (IH d2) as [-> ->]; auto.
Qed.

Lemma digit_suffix_unique (a1 a2 d1 d2 : list ascii) (x : ascii) :
  Str.isdigit x = false ->
  Forall (fun c => Str.isdigit c = true) d1 ->
  Forall (fun c => Str.isdigit c = true) d2 ->
  a1 ++ x :: d1 = a2 ++ x :: d2 -> a1 = a2 /\ d1 = d2.
Proof.
  intros Hx H1 H2 Heq. apply (f_equal (@List.rev ascii)) in Heq.
  rewrite !rev_app_distr in Heq. simpl in Heq. rewrite <- !app_assoc in Heq.
  apply (digit_prefix_unique _ _ _ _ x Hx) in Heq.
  - destruct Heq as [Hd Ha]. split.
    + now rewrite <- (rev_involutive a1), Ha, rev_involutive.
    + now rewrite <- (rev_involutive d1), Hd, rev_involutive.
  - now apply Forall_rev.
  - now apply Forall_rev.
Qed.

Lemma pretty_N_char_digit x : Str.isdigit (pretty_N_char x) = true.
Proof. unfold pretty_N_char. repeat case_match; reflexivity. Qed.

Lemma pretty_N_go_digits x s :
  Str.all Str.isdigit s = true -> Str.all Str.isdigit (pretty_N_go x s) = true.
Proof.
  revert s. induction (N.lt_wf_0 x) as [x _ IH]; intros s Hs.
  assert (x = 0 \/ 0 < x)%N as [-> | Hpos] by lia.
  - now rewrite pretty_N_go_0.
  - rewrite pretty_N_go_step by exact Hpos. apply IH.
    + now apply N.div_lt.
    + simpl. now rewrite pretty_N_char_digit, Hs.
Qed.

Lemma pretty_positive_run_digits (run_id : Z) :
  0 < run_id -> Str.all Str.isdigit (pretty run_id) = true.
Proof.
  destruct run_id as [|p|p]; try lia. intros _.
  unfold pretty, pretty_Z, pretty, pretty_positive, pretty, pretty_N.
  destruct (decide (N.pos p = 0%N)); [reflexivity |].
  now apply pretty_N_go_digits.
Qed.

(** File names tell apart the cells of the two conditions. *)
Lemma result_name_inj t1 t2 c1 c2 r1 r2 :
  (c1 = "baseline" \/ c1 = "with-gnapsis") ->
  (c2 = "baseline" \/ c2 = "with-gnapsis") ->
  0 < r1 -> 0 < r2 ->
  result_name t1 c1 r1 = result_name t2 c2 r2 ->
  t1 = t2 /\ c1 = c2 /\ r1 = r2.
Proof.
  intros Hc1 Hc2 Hr1 Hr2 Heq. unfold result_name in Heq.
  apply (f_equal list_ascii_of_string) in Heq. rewrite !chars_app in Heq.
  change (list_ascii_of_string "_run") with (["_"; "r"; "u"] ++ ["n"])%char in Heq.
  rewrite !app_assoc in Heq. apply app_inv_tail in Heq.
  rewrite <- !app_assoc in Heq.
  assert (Hd : forall r, 0 < r ->
            Forall (fun c => Str.isdigit c = true) (list_ascii_of_string (pretty r))).
  { intros r Hr. apply all_chars. now apply pretty_positive_run_digits. }
  assert (Heq' :
    (list_ascii_of_string t1 ++ list_ascii_of_string "_"
       ++ list_ascii_of_string c1 ++ ["_"; "r"; "u"])%char
      ++ "n"%char :: list_ascii_of_string (pretty r1)
    = (list_ascii_of_string t2 ++ list_ascii_of_string "_"
         ++ list_ascii_of_string c2 ++ ["_"; "r"; "u"])%char
        ++ "n"%char :: list_ascii_of_string (pretty r2)).
  { rewrite <- !app_assoc. exact Heq. }
  apply (digit_suffix_unique _ _ _ _ "n"%char eq_refl (Hd r1 Hr1) (Hd r2 Hr2))
    in Heq' as [Hhead Hp].
  apply chars_inj in Hp. apply (inj pretty) in Hp.
  rewrite !app_assoc in Hhead. apply app_inv_tail in Hhead.
  rewrite <- !app_assoc in Hhead.
  assert (Htc : t1 = t2 /\ c1 = c2).
  { destruct Hc1 as [-> | ->], Hc2 as [-> | ->].
    - rewrite !app_assoc in Hhead. apply app_inv_tail in Hhead.
      apply app_inv_tail in Hhead. apply chars_inj in Hhead. auto.
    - apply (f_equal (@List.rev ascii)) in Hhead.
      rewrite !rev_app_distr in Hhead. discriminate Hhead.
    - apply (f_equal (@List.rev ascii)) in Hhead.
      rewrite !rev_app_distr in Hhead. discriminate Hhead.
    - rewrite !app_assoc in Hhead. apply app_inv_tail in Hhead.
      apply app_inv_tail in Hhead. apply chars_inj in Hhead. auto. }
  tauto.
Qed.

(** A digit is neither a separator nor a NUL character. *)
Lemma digit_plain c :
  Str.isdigit c = true ->
  negb (Ascii.eqb c "/") && negb (Ascii.eqb c "000") = true.
Proof.
  destruct c as [[] [] [] [] [] [] [] []]; vm_compute; congruence.
Qed.

(** The file name of a cell of a known condition and a positive run id is a
    single path component when the task id is. *)
Lemma plain_result_name task_id condition run_id :
  plain task_id = true ->
  (condition = "baseline" \/ condition = "with-gnapsis") ->
  0 < run_id ->
  plain (result_name task_id condition run_id) = true.
Proof.
  intros Ht Hc Hr. unfold plain, result_name in *.
  apply all_chars. rewrite !chars_app. apply all_chars in Ht.
  pose proof (pretty_positive_run_digits run_id Hr) as Hd. apply all_chars in Hd.
  repeat (apply Forall_app; split).
  - exact Ht.
  - repeat constructor.
  - destruct Hc as [-> | ->]; repeat constructor.
  - repeat constructor.
  - eapply Forall_impl; [exact Hd |]. intros c. apply digit_plain.
  - repeat constructor.
Qed.

(** ** The batch *)

Lemma for_each_app {A S} (body : S -> A -> M S) (l1 l2 : list A) (s : S)
    (w : world) :
  for_each body (l1 ++ l2) s w =
  match for_each body l1 s w with
  | (Ok s', w') => for_each body l2 s' w'
  | (Raise e, w') => (Raise e, w')
  end.
Proof.
  revert s w; induction l1 as [|x l1 IH]; intros s w; [reflexivity |].
  simpl. unfold bind.
  destruct (body s x w) as [[s' | e] w']; [apply IH | reflexivity].
Qed.

Lemma for_each_ext {A S} (b1 b2 : S -> A -> M S) (l : list A) (s : S)
    (w : world) :
  (forall s x w, b1 s x w = b2 s x w) ->
  for_each b1 l s w = for_each b2 l s w.
Proof.
  intros Hb. revert s w; induction l as [|x l IH]; intros s w; [reflexivity |].
  simpl. unfold bind. rewrite Hb.
  destruct (b2 s x w) as [[s' | e] w']; [apply IH | reflexivity].
Qed.

Lemma for_each_map {A B S} (f : A -> B) (body : S -> B -> M S) (l : list A)
    (s : S) (w : world) :
  for_each body (map f l) s w = for_each (fun s x => body s (f x)) l s w.
Proof.
  revert s w; induction l as [|x l IH]; intros s w; [reflexivity |].
  simpl. unfold bind.
  destruct (body s (f x) w) as [[s' | e] w']; [apply IH | reflexivity].
Qed.

(** A loop nested in a loop is a loop over the concatenated inner lists. *)
Lemma for_each_flat_map {A B S} (f : A -> list B) (body : S -> B -> M S)
    (l : list A) (s : S) (w : world) :
  for_each (fun s x => for_each body (f x) s) l s w
  = for_each body (flat_map f l) s w.
Proof.
  revert s w; induction l as [|x l IH]; intros s w; [reflexivity |].
  cbn [for_each flat_map]. rewrite for_each_app. unfold bind.
  destruct (for_each body (f x) s w) as [[s' | e] w']; [apply IH | reflexivity].
Qed.

Section Batch.
Context `{PyLib}.

(** With [dry_run], a cell of a known condition runs nothing and returns
    no record. *)
Lemma run_task_dry_run task condition run_id model max_turns cfg w :
  assoc condition CONDITIONS = Some cfg ->
  run_task task condition run_id model max_turns true w = (Ok None, w).
Proof. intros Hc. unfold run_task. now rewrite Hc. Qed.

(** The three nested loops of [run_benchmark] are one loop over the run
    matrix. *)
Lemma nested_loops_matrix total model max_turns dry_run pause tasks num_runs
    conditions acc w :
  for_each (fun acc run_id =>
    for_each (fun acc task =>
      for_each (run_cell total model max_turns dry_run pause run_id task)
               conditions acc)
      tasks acc)
    (run_ids num_runs) acc w
  = for_each (fun acc (c : cell) =>
                let '(run_id, task, condition) := c in
                run_cell total model max_turns dry_run pause run_id task acc
                         condition)
             (matrix tasks num_runs conditions) acc w.
Proof.
  unfold matrix. rewrite <- for_each_flat_map.
  apply for_each_ext. intros acc1 run_id w1.
  rewrite <- for_each_flat_map.
  apply for_each_ext. intros acc2 task w2.
  now rewrite for_each_map.
Qed.

Lemma matrix_conditions tasks num_runs conditions run_id task condition :
  In (run_id, task, condition) (matrix tasks num_runs conditions) ->
  In run_id (run_ids num_runs) /\ In task tasks /\ In condition conditions.
Proof.
  unfold matrix. rewrite in_flat_map. intros [r [Hr Hin]].
  rewrite in_flat_map in Hin. destruct Hin as [t [Ht Hin]].
  rewrite in_map_iff in Hin. destruct Hin as [c [Heq Hc]].
  inversion Heq; subst. auto.
Qed.

(** The loop over a list of cells, from any accumulator and world. *)
Lemma run_cells total model max_turns pause (cells0 : list cell) :
  forall completed all w,
    (forall run_id task condition, In (run_id, task, condition) cells0 ->
       is_Some (assoc condition CONDITIONS)
       /\ plain (result_name (id task) condition run_id) = true) ->
    (forall k, well_shaped (script w k) /\ reportable (script w k)) ->
    exists records,
      ran model (script w) (spawned w) cells0 records
      /\ for_each (fun acc (c : cell) =>
                     let '(run_id, task, condition) := c in
                     run_cell total model max_turns false pause run_id task acc
                              condition)
                  cells0 (completed, all) w
         = (Ok (completed + Z.of_nat (length cells0), all ++ records),
            {| script := script w;
               spawned := spawned w + length cells0;
               cells := batch_files cells0 records (cells w);
               combined := combined w;
               trace := trace w ++ batch_events total pause model max_turns
                                     completed cells0 records |}).
Proof.
  induction cells0 as [|[[run_id task] condition] cells0 IH];
    intros completed all w Hcond Hshape.
  - exists []. split; [exact I |]. cbn.
    rewrite Z.add_0_r, !app_nil_r, Nat.add_0_r. now destruct w.
  - destruct (Hcond run_id task condition (or_introl eq_refl)) as [[cfg Hcfg] Hplain].
    destruct (run_result_well_shaped task condition run_id model
                (script w (spawned w)) (proj1 (Hshape (spawned w))))
      as [record [Hr He]].
    pose proof (run_cell_persists total model max_turns pause run_id task
                  completed all condition cfg record w Hcfg Hplain Hr) as Hcell.
    destruct (progress_line_expected _ _ _ _ _ _ He) as [_ [_ Hrep]].
    rewrite (Hrep (proj2 (Hshape (spawned w)))) in Hcell.
    set (w1 := {| script := script w;
                  spawned := S (spawned w);
                  cells := <[result_name (id task) condition run_id := record]> (cells w);
                  combined := combined w;
                  trace := trace w ++ cell_events total pause model max_turns
                                        (completed + 1) run_id task condition record |})
      in Hcell.
    destruct (IH (completed + 1) (all ++ [record]) w1) as [records [Hran Hrest]].
    { intros r t c Hin. apply (Hcond r t c). now right. }
    { exact Hshape. }
    exists (record :: records). split; [split; [exact Hr | exact Hran] |].
    cbn [for_each]. unfold bind at 1. rewrite Hcell, Hrest.
    unfold w1. cbn [length batch_files batch_events script spawned cells combined trace].
    f_equal.
    + f_equal. f_equal; [lia | now rewrite <- app_assoc].
    + f_equal; [lia | now rewrite <- app_assoc].
Qed.

Lemma conditions_known condition :
  is_Some (assoc condition CONDITIONS) ->
  condition = "baseline" \/ condition = "with-gnapsis".
Proof.
  unfold CONDITIONS. cbn [assoc].
  destruct (String.eqb_spec condition "baseline") as [-> | _]; [auto |].
  destruct (String.eqb_spec condition "with-gnapsis") as [-> | _]; [auto |].
  intros [x Hx]. discriminate Hx.
Qed.

Lemma In_run_ids num_runs run_id :
  In run_id (run_ids num_runs) <-> 1 <= run_id <= num_runs.
Proof.
  unfold run_ids. rewrite in_map_iff. split.
  - intros [k [<- Hk]]. apply in_seq in Hk. lia.
  - intros Hr. exists (Z.to_nat run_id). split; [lia |]. apply in_seq. lia.
Qed.

Lemma NoDup_run_ids num_runs : NoDup (run_ids num_runs).
Proof.
  unfold run_ids. apply NoDup_fmap_2; [| apply NoDup_ListNoDup, seq_NoDup].
  intros a b Hab. lia.
Qed.

Lemma In_matrix tasks num_runs conditions run_id task condition :
  In (run_id, task, condition) (matrix tasks num_runs conditions) <->
  1 <= run_id <= num_runs /\ In task tasks /\ In condition conditions.
Proof.
  rewrite <- In_run_ids. split; [apply matrix_conditions |].
  intros [Hr [Ht Hc]]. unfold matrix.
  apply in_flat_map. exists run_id. split; [exact Hr |].
  apply in_flat_map. exists task. split; [exact Ht |].
  apply in_map_iff. exists condition. auto.
Qed.

Lemma map_flat_map {A B C} (g : B -> C) (f : A -> list B) (l : list A) :
  map g (flat_map f l) = flat_map (fun x => map g (f x)) l.
Proof.
  induction l as [|x l IH]; [reflexivity |].
  cbn [flat_map]. now rewrite map_app, IH.
Qed.

Lemma NoDup_flat_map {A B} (f : A -> list B) (l : list A) :
  NoDup l ->
  (forall x, In x l -> NoDup (f x)) ->
  (forall x1 x2 y, In x1 l -> In x2 l -> In y (f x1) -> In y (f x2) -> x1 = x2) ->
  NoDup (flat_map f l).
Proof.
  induction l as [|x l IH]; intros Hl Hf Hd; [constructor |].
  cbn [flat_map]. apply NoDup_cons in Hl as [Hx Hl].
  apply NoDup_app. split; [apply Hf; now left |]. split.
  - intros y Hy Hy'. apply list_elem_of_In in Hy, Hy'.
    apply in_flat_map in Hy' as [x' [Hx' Hy']].
    assert (x = x') as <-.
    { apply (Hd x x' y); [now left | now right | exact Hy | exact Hy']. }
    apply Hx. now apply list_elem_of_In.
  - apply IH; [exact Hl | |].
    + intros x' Hx'. apply Hf. now right.
    + intros x1 x2 y H1 H2. apply Hd; now right.
Qed.

Lemma NoDup_map_on {A B} (f : A -> B) (l : list A) :
  NoDup l ->
  (forall x y, In x l -> In y l -> f x = f y -> x = y) ->
  NoDup (map f l).
Proof.
  induction l as [|x l IH]; intros Hl Hinj; [constructor |].
  apply NoDup_cons in Hl as [Hx Hl]. cbn [map]. apply NoDup_cons. split.
  - intros Hfx. apply list_elem_of_In, in_map_iff in Hfx as [y [Hy Hin]].
    apply Hx, list_elem_of_In.
    assert (y = x) as <-; [| exact Hin].
    apply Hinj; [now right | now left | exact Hy].
  - apply IH; [exact Hl |]. intros a b Ha Hb. apply Hinj; now right.
Qed.

Lemma NoDup_map_eq {A B} (f : A -> B) (l : list A) x y :
  NoDup (map f l) -> In x l -> In y l -> f x = f y -> x = y.
Proof.
  induction l as [|a l IH]; intros Hl Hx Hy Hf; [destruct Hx |].
  cbn [map] in Hl. apply NoDup_cons in Hl as [Ha Hl].
  destruct Hx as [-> | Hx], Hy as [-> | Hy]; [reflexivity | | | now apply IH].
  - exfalso. apply Ha. rewrite Hf. apply list_elem_of_In, in_map, Hy.
  - exfalso. apply Ha. rewrite <- Hf. apply list_elem_of_In, in_map, Hx.
Qed.

(** With distinct task ids and distinct conditions, no two cells of the
    matrix share a file name. *)
Lemma matrix_names_NoDup tasks num_runs conditions :
  (forall c, In c conditions -> is_Some (assoc c CONDITIONS)) ->
  NoDup (map id tasks) ->
  NoDup conditions ->
  NoDup (map cell_name (matrix tasks num_runs conditions)).
Proof.
  intros Hknown Htasks Hconds. unfold matrix.
  rewrite map_flat_map. apply NoDup_flat_map.
  - apply NoDup_run_ids.
  - intros run_id Hr. apply In_run_ids in Hr.
    rewrite map_flat_map. apply NoDup_flat_map.
    + eapply NoDup_fmap_1. exact Htasks.
    + intros task _. rewrite map_map. cbn [cell_name].
      apply NoDup_map_on; [exact Hconds |].
      intros c1 c2 Hc1 Hc2 Heq.
      apply result_name_inj in Heq as [_ [Hc _]];
        try (apply conditions_known, Hknown; assumption); try lia.
      exact Hc.
    + intros t1 t2 y Ht1 Ht2 Hy1 Hy2.
      rewrite map_map in Hy1, Hy2. cbn [cell_name] in Hy1, Hy2.
      apply in_map_iff in Hy1 as [c1 [<- Hc1]].
      apply in_map_iff in Hy2 as [c2 [Heq Hc2]].
      apply result_name_inj in Heq as [Hid [_ _]];
        try (apply conditions_known, Hknown; assumption); try lia.
      symmetry. now apply (NoDup_map_eq id tasks).
  - intros r1 r2 y Hr1 Hr2 Hy1 Hy2.
    apply In_run_ids in Hr1, Hr2.
    rewrite map_flat_map in Hy1, Hy2.
    apply in_flat_map in Hy1 as [t1 [Ht1 Hy1]].
    apply in_flat_map in Hy2 as [t2 [Ht2 Hy2]].
    rewrite map_map in Hy1, Hy2. cbn [cell_name] in Hy1, Hy2.
    apply in_map_iff in Hy1 as [c1 [<- Hc1]].
    apply in_map_iff in Hy2 as [c2 [Heq Hc2]].
    apply result_name_inj in Heq as [_ [_ Hr]];
      try (apply conditions_known, Hknown; assumption); try lia.
Qed.

Lemma batch_files_other (cells0 : list cell) records files name :
  ~ In name (map cell_name cells0) ->
  batch_files cells0 records files !! name = files !! name.
Proof.
  revert records files.
  induction cells0 as [|[[run_id task] condition] cells0 IH];
    intros records files Hn; [reflexivity |].
  destruct records as [|record records]; [reflexivity |].
  cbn [batch_files]. rewrite IH.
  - apply lookup_insert_ne. intros Heq. apply Hn. now left.
  - intros Hin. apply Hn. now right.
Qed.

(** With distinct file names, the record of every cell is in the store
    after the batch. *)
Lemma batch_files_lookup (cells0 : list cell) records files k c record :
  NoDup (map cell_name cells0) ->
  cells0 !! k = Some c ->
  records !! k = Some record ->
  batch_files cells0 records files !! cell_name c = Some record.
Proof.
  revert records files k.
  induction cells0 as [|[[run_id task] condition] cells0 IH];
    intros records files k Hnd Hc Hr; [discriminate Hc |].
  destruct records as [|record0 records]; [discriminate Hr |].
  cbn [map] in Hnd. apply NoDup_cons in Hnd as [Hfresh Hnd].
  cbn [batch_files]. destruct k as [|k].
  - inversion Hc; subst c. inversion Hr; subst record0.
    rewrite batch_files_other.
    + apply lookup_insert_eq.
    + intros Hin. apply Hfresh. now apply list_elem_of_In.
  - now apply (IH records _ k).
Qed.

Lemma ran_length model script0 k (cells0 : list cell) records :
  ran model script0 k cells0 records -> length records = length cells0.
Proof.
  revert k records.
  induction cells0 as [|[[run_id task] condition] cells0 IH];
    intros k [|record records] Hran; try reflexivity; try contradiction.
  destruct Hran as [_ Hran]. cbn [length]. f_equal. now apply (IH (S k)).
Qed.

(** C6 (as amended). For every list of tasks whose ids are single path
    components, every list of known conditions and every repetition count,
    on a script of invocations that are well-shaped and reportable (so that
    no cell raises), [run_benchmark] runs the cells of the run matrix - every
    (task, condition, run id in 1..N), repetition outermost, then task, then
    condition - in that order, the k-th cell with the k-th invocation, and
    returns their records.  Its events are, cell after cell, the external
    call, then the write of the cell's record under the cell's file name,
    then the pause; the combined file is written after the last cell.  When
    moreover the task ids are pairwise distinct and so are the conditions,
    the file names are pairwise distinct, so that each cell is run exactly
    once and the store holds the record of every cell when the batch ends. *)
Theorem run_benchmark_runs_matrix_once_in_order
    (tasks : list Task) (num_runs : Z) (conditions : list string)
    (model : string) (max_turns : option Z) (pause : Q) (w : world) :
  (forall c, In c conditions -> is_Some (assoc c CONDITIONS)) ->
  (forall task, In task tasks -> plain (id task) = true) ->
  (forall k, well_shaped (script w k)) ->
  (forall k, reportable (script w k)) ->
  let cells0 := matrix tasks num_runs conditions in
  let total := num_runs * Z.of_nat (length tasks) * Z.of_nat (length conditions) in
  exists records w',
    run_benchmark tasks num_runs conditions model max_turns false pause w
    = (Ok records, w')
    /\ ran model (script w) (spawned w) cells0 records
    /\ length records = length cells0
    /\ spawned w' = (spawned w + length cells0)%nat
    /\ trace w' =
         trace w ++ batch_events total pause model max_turns 0 cells0 records
         ++ match records with [] => [] | _ => [EvWriteCombined records] end
    /\ cells w' = batch_files cells0 records (cells w)
    /\ (forall run_id task condition,
          In (run_id, task, condition) cells0 <->
          1 <= run_id <= num_runs /\ In task tasks /\ In condition conditions)
    /\ (NoDup (map id tasks) -> NoDup conditions ->
        NoDup (map cell_name cells0)
        /\ forall k c record,
             cells0 !! k = Some c -> records !! k = Some record ->
             cells w' !! cell_name c = Some record).
Proof.
  intros Hknown Hplain Hshape Hrep cells0 total.
  destruct (run_cells total model max_turns pause cells0 0 [] w)
    as [records [Hran Hloop]].
  { intros r t c Hin. apply In_matrix in Hin as [Hr [Ht Hc]].
    split; [now apply Hknown |].
    apply plain_result_name;
      [now apply Hplain | now apply conditions_known, Hknown | lia]. }
  { intros k. split; [apply Hshape | apply Hrep]. }
  unfold run_benchmark. fold total. unfold bind at 1.
  rewrite nested_loops_matrix. fold cells0. rewrite Hloop. cbn [snd app].
  assert (Hfiles :
            NoDup (map id tasks) -> NoDup conditions ->
            NoDup (map cell_name cells0)
            /\ forall k c record,
                 cells0 !! k = Some c -> records !! k = Some record ->
                 batch_files cells0 records (cells w) !! cell_name c = Some record).
  { intros Ht Hc.
    assert (Hnd : NoDup (map cell_name cells0))
      by now apply matrix_names_NoDup.
    split; [exact Hnd |]. intros k c record Hk Hrec.
    now apply (batch_files_lookup cells0 records (cells w) k). }
  assert (Hlen : length records = length cells0)
    by now apply (ran_length model (script w) (spawned w)).
  destruct records as [|record records].
  - eexists [], _. split; [reflexivity |]. cbn [trace spawned cells].
    split; [exact Hran |]. split; [exact Hlen |]. split; [reflexivity |].
    split; [now rewrite app_nil_r |]. split; [reflexivity |].
    split; [intros; apply In_matrix |].
    exact Hfiles.
  - eexists (record :: records), _. split; [reflexivity |].
    cbn [trace spawned cells].
    split; [exact Hran |]. split; [exact Hlen |]. split; [reflexivity |].
    split; [now rewrite <- app_assoc |]. split; [reflexivity |].
    split; [intros; apply In_matrix |].
    exact Hfiles.
Qed.

End Batch.

(** C6 on one task, the two conditions and two repetitions, with an agent
    that answers, times out, prints no JSON, and answers again: four cells
    are run and four records returned. *)
Lemma run_benchmark_runs_matrix_once_in_order_witness :
  let w := example_world []
             [ prints (text "{'result': 'It uses a queue.'}");
               Invocation TimeoutExpired 600;
               prints "not json";
               prints (text "{'result': 'Retries are queued.', 'num_turns': 2}") ] in
  exists records w',
    @run_benchmark example_lib [example_task] 2 ["baseline"; "with-gnapsis"]
                   "sonnet" None false 3 w = (Ok records, w')
    /\ length records = 4%nat
    /\ spawned w' = 4%nat
    /\ exists record,
         records !! 3%nat = Some record
         /\ cells w' !! "T1_with-gnapsis_run2.json" = Some record.
Proof.
  intros w.
  destruct (@run_benchmark_runs_matrix_once_in_order example_lib
              [example_task] 2 ["baseline"; "with-gnapsis"] "sonnet" None 3 w)
    as [records [w' [Hrun [Hran [Hlen [Hsp [_ [_ [_ Hstore]]]]]]]]].
  - intros c [<- | [<- | []]]; eexists; reflexivity.
  - intros task [<- | []]; reflexivity.
  - intros [|[|[|[|k]]]]; vm_compute; exact I.
  - intros [|[|[|[|k]]]]; vm_compute; try exact I; reflexivity.
  - exists records, w'. split; [exact Hrun |]. split; [exact Hlen |].
    split; [exact Hsp |].
    destruct records as [|r0 [|r1 [|r2 [|r3 records]]]]; try discriminate Hlen.
    exists r3. split; [reflexivity |].
    destruct Hstore as [_ Hlook].
    + repeat constructor; intros Hin; inversion Hin.
    + repeat constructor; intros Hin; inversion Hin; subst;
        match goal with Hx : _ ∈ _ |- _ => inversion Hx end.
    + apply (Hlook 3%nat (2, example_task, "with-gnapsis") r3); reflexivity.
Defined.

(** C6 as stated fails.  With an agent whose envelope gives the cost as a
    string, the record of the first cell is written and the progress line
    then raises [ValueError]: the second cell of the matrix is never run.
    With a condition that is not in [CONDITIONS] no cell is run at all.
    With a condition listed twice both cells are run, and the record of the
    second replaces that of the first under their common file name.  And
    with a task id that is not a single path component, where no file can be
    opened under the cell's name, the record of the first cell is not
    persisted. *)
Lemma run_benchmark_does_not_run_every_cell_counterexample :
  let both := ["baseline"; "with-gnapsis"] in
  let costly := prints (text "{'result': 'ok', 'total_cost_usd': '0.01'}") in
  let out1 := @run_benchmark example_lib [example_task] 1 both "sonnet" None false 0
                (example_world [] [costly; prints "{}"]) in
  let out2 := @run_benchmark example_lib [example_task] 1 ["fast"] "sonnet" None
                false 0 (example_world [] [prints "{}"]) in
  let out3 := @run_benchmark example_lib [example_task] 1 ["baseline"; "baseline"]
                "sonnet" None false 0
                (example_world [] [ prints (text "{'result': 'first'}");
                                    prints (text "{'result': 'second'}") ]) in
  let nested := {| id := "group/T1"; prompt := "How are failed jobs retried?";
                   rubric := EmptyString; expected_answer_keywords := [];
                   max_turns := None |} in
  let out4 := @run_benchmark example_lib [nested] 1 both "sonnet" None false 0
                (example_world [] [prints "{}"; prints "{}"]) in
  (length (matrix [example_task] 1 both) = 2%nat
   /\ @well_shaped example_lib costly
   /\ fst out1 = Raise ValueError
   /\ spawned (snd out1) = 1%nat
   /\ is_Some (cells (snd out1) !! "T1_baseline_run1.json")
   /\ combined (snd out1) = None)
  /\ (fst out2 = Raise KeyError /\ spawned (snd out2) = 0%nat)
  /\ (exists first second,
        fst out3 = Ok [first; second]
        /\ Py.lookup "result_text" first = Some (JStr "first")
        /\ Py.lookup "result_text" second = Some (JStr "second")
        /\ map_to_list (cells (snd out3)) = [("T1_baseline_run1.json", second)])
  /\ (fst out4 = Raise OSError
      /\ spawned (snd out4) = 1%nat
      /\ cells (snd out4) = ∅).
Proof.
  cbv zeta. split; [| split; [| split]].
  - split; [reflexivity |]. split; [vm_compute; exact I |].
    split; [vm_compute; reflexivity |]. split; [vm_compute; reflexivity |].
    split; [vm_compute; eexists; reflexivity | vm_compute; reflexivity].
  - split; vm_compute; reflexivity.
  - eexists _, _. split; [vm_compute; reflexivity |].
    split; [vm_compute; reflexivity |]. split; vm_compute; reflexivity.
  - split; [vm_compute; reflexivity |]. split; vm_compute; reflexivity.
Qed.

(** ** Loading the results *)

Lemma with_total_input_tokens_ok data r :
  with_total_input_tokens data = Ok r ->
  exists s total,
    py_add (Py.get "input_tokens" (JInt 0) data)
           (Py.get "cache_read_input_tokens" (JInt 0) data) = Ok s
    /\ py_add s (Py.get "cache_creation_input_tokens" (JInt 0) data) = Ok total
    /\ r = Py.set "total_input_tokens" total data.
Proof.
  unfold with_total_input_tokens.
  destruct (py_add (Py.get "input_tokens" (JInt 0) data) _) as [s|] eqn:Hs;
    [| discriminate].
  cbn [res_bind].
  destruct (py_add s _) as [total|] eqn:Ht; [| discriminate].
  cbn [res_bind]. intros [= <-]. eauto.
Qed.

(** The records [load_files] returns are those of the files without an
    error entry, in order, each with its total recomputed. *)
Lemma load_files_ok files results :
  load_files files = Ok results ->
  Forall2 (fun (f : string * dict) r => with_total_input_tokens (snd f) = Ok r)
          (List.filter (fun f : string * dict => negb (Py.has "error" (snd f))) files)
          results.
Proof.
  revert results. induction files as [|[name data] files IH]; intros results Hl.
  - inversion Hl. constructor.
  - cbn [load_files] in Hl. cbn [List.filter snd].
    destruct (Py.has "error" data); cbn [negb]; [now apply IH |].
    destruct (with_total_input_tokens data) as [r|] eqn:Hr; [| discriminate].
    cbn [res_bind] in Hl.
    destruct (load_files files) as [rest|]; [| discriminate].
    cbn [res_bind] in Hl. inversion Hl; subst.
    constructor; [exact Hr | now apply IH].
Qed.

(** C7. Every record the aggregator loads carries a [total_input_tokens]
    that is the sum, by Python's [+], of its [input_tokens],
    [cache_read_input_tokens] and [cache_creation_input_tokens] (each 0 when
    absent): the loaded records are the stored records without an error
    entry, in file order, each with that field set anew from the three
    components, whatever value the stored record had there.  For integer
    components the field is exactly their sum. *)
Theorem total_input_tokens_recomputed_at_load :
  (forall w results,
     load_results w = Ok results ->
     Forall2 (fun (f : string * dict) r =>
                exists s total,
                  py_add (Py.get "input_tokens" (JInt 0) (snd f))
                         (Py.get "cache_read_input_tokens" (JInt 0) (snd f)) = Ok s
                  /\ py_add s (Py.get "cache_creation_input_tokens" (JInt 0) (snd f))
                     = Ok total
                  /\ r = Py.set "total_input_tokens" total (snd f))
             (List.filter (fun f : string * dict => negb (Py.has "error" (snd f)))
                          (result_files w))
             results
     /\ forall r, In r results ->
          exists s total,
            Py.lookup "total_input_tokens" r = Some total
            /\ py_add (Py.get "input_tokens" (JInt 0) r)
                      (Py.get "cache_read_input_tokens" (JInt 0) r) = Ok s
            /\ py_add s (Py.get "cache_creation_input_tokens" (JInt 0) r) = Ok total)
  /\ (forall data a b c,
        Py.get "input_tokens" (JInt 0) data = JInt a ->
        Py.get "cache_read_input_tokens" (JInt 0) data = JInt b ->
        Py.get "cache_creation_input_tokens" (JInt 0) data = JInt c ->
        with_total_input_tokens data
        = Ok (Py.set "total_input_tokens" (JInt (a + b + c)) data)).
Proof.
  split.
  - intros w results Hl. unfold load_results in Hl.
    apply load_files_ok in Hl.
    assert (Hall : Forall2 (fun (f : string * dict) r =>
                exists s total,
                  py_add (Py.get "input_tokens" (JInt 0) (snd f))
                         (Py.get "cache_read_input_tokens" (JInt 0) (snd f)) = Ok s
                  /\ py_add s (Py.get "cache_creation_input_tokens" (JInt 0) (snd f))
                     = Ok total
                  /\ r = Py.set "total_input_tokens" total (snd f))
             (List.filter (fun f : string * dict => negb (Py.has "error" (snd f)))
                          (result_files w))
             results).
    { eapply Forall2_impl; [exact Hl |].
      intros f r Hr. now apply with_total_input_tokens_ok. }
    split; [exact Hall |].
    clear Hl. induction Hall as [|f r fs rs Hf _ IH]; intros r0 Hr0;
      [destruct Hr0 |].
    destruct Hr0 as [<- | Hr0]; [| now apply IH].
    destruct Hf as [s [total [Hs [Ht ->]]]].
    exists s, total. rewrite lookup_set_eq, !get_set_ne by discriminate. auto.
  - intros data a b c Ha Hb Hc. unfold with_total_input_tokens.
    rewrite Ha, Hb, Hc. reflexivity.
Qed.

(** C7 on a stored record with the components 10, 20 and 30 and a stale
    total of 999: the loaded record has the total 60. *)
Lemma total_input_tokens_recomputed_at_load_witness :
  let data := example_record [ ("input_tokens", JInt 10);
                               ("cache_read_input_tokens", JInt 20);
                               ("cache_creation_input_tokens", JInt 30);
                               ("total_input_tokens", JInt 999) ] in
  let w := example_world [("T1_baseline_run1.json", data)] [] in
  with_total_input_tokens data
  = Ok (Py.set "total_input_tokens" (JInt (10 + 20 + 30)) data)
  /\ load_results w = Ok [Py.set "total_input_tokens" (JInt 60) data]
  /\ forall r, In r [Py.set "total_input_tokens" (JInt 60) data] ->
       exists s total,
         Py.lookup "total_input_tokens" r = Some total
         /\ py_add (Py.get "input_tokens" (JInt 0) r)
                   (Py.get "cache_read_input_tokens" (JInt 0) r) = Ok s
         /\ py_add s (Py.get "cache_creation_input_tokens" (JInt 0) r) = Ok total.
Proof.
  intros data w.
  assert (Hload : load_results w = Ok [Py.set "total_input_tokens" (JInt 60) data])
    by (vm_compute; reflexivity).
  split; [| split; [exact Hload |]].
  - apply (proj2 total_input_tokens_recomputed_at_load); reflexivity.
  - apply (proj2 (proj1 total_input_tokens_recomputed_at_load w _ Hload)).
Defined.

(** ** Grouping and statistics *)

Lemma runs_of_group_add key k r grouped :
  runs_of key (group_add k r grouped)
  = if bool_decide (k = key) then runs_of key grouped ++ [r]
    else runs_of key grouped.
Proof.
  induction grouped as [|[k0 runs] grouped IH]; cbn [group_add runs_of].
  - destruct (bool_decide (k = key)); reflexivity.
  - destruct (bool_decide (k0 = k)) eqn:E0; cbn [runs_of].
    + apply bool_decide_eq_true in E0. subst k0.
      destruct (bool_decide (k = key)); reflexivity.
    + apply bool_decide_eq_false in E0.
      destruct (bool_decide (k0 = key)) eqn:E1; [| exact IH].
      apply bool_decide_eq_true in E1. subst k0.
      destruct (bool_decide (k = key)) eqn:E2; [| reflexivity].
      apply bool_decide_eq_true in E2. congruence.
Qed.

Lemma keys_group_add k r grouped key :
  In key (map fst (group_add k r grouped)) <-> key = k \/ In key (map fst grouped).
Proof.
  induction grouped as [|[k0 runs] grouped IH]; cbn [group_add map fst In].
  - intuition.
  - destruct (bool_decide (k0 = k)) eqn:E0; cbn [map fst In].
    + apply bool_decide_eq_true in E0. subst k0. intuition.
    + rewrite IH. intuition.
Qed.

Lemma NoDup_group_add k r grouped :
  NoDup (map fst grouped) -> NoDup (map fst (group_add k r grouped)).
Proof.
  induction grouped as [|[k0 runs] grouped IH]; cbn [group_add map fst]; intros Hnd.
  - repeat constructor. intros Hin. inversion Hin.
  - apply NoDup_cons in Hnd as [Hk0 Hnd].
    destruct (bool_decide (k0 = k)) eqn:E0; cbn [map fst].
    + apply NoDup_cons. auto.
    + apply bool_decide_eq_false in E0. apply NoDup_cons. split; [| auto].
      intros Hin. apply list_elem_of_In, keys_group_add in Hin as [-> | Hin];
        [congruence |].
      apply Hk0. now apply list_elem_of_In.
Qed.

Lemma group_runs_spec results :
  forall acc grouped,
    group_runs results acc = Ok grouped ->
    NoDup (map fst acc) ->
    NoDup (map fst grouped)
    /\ (forall key, runs_of key grouped = runs_of key acc ++ group_of results key)
    /\ (forall key, In key (map fst grouped) ->
          In key (map fst acc) \/ group_of results key <> []).
Proof.
  induction results as [|r results IH]; intros acc grouped Hg Hnd.
  - inversion Hg; subst. split; [exact Hnd |].
    split; [intros key; now rewrite app_nil_r | auto].
  - cbn [group_runs] in Hg.
    destruct (group_key r) as [k|] eqn:Hk; [| discriminate]. cbn [res_bind] in Hg.
    destruct (IH _ _ Hg (NoDup_group_add k r acc Hnd)) as [Hnd' [Hruns Hkeys]].
    split; [exact Hnd' |]. split.
    + intros key. rewrite Hruns, runs_of_group_add.
      unfold group_of. cbn [List.filter]. rewrite Hk.
      destruct (bool_decide (k = key)); [now rewrite <- app_assoc | reflexivity].
    + intros key Hin. unfold group_of. cbn [List.filter]. rewrite Hk.
      destruct (Hkeys key Hin) as [Hacc | Hne].
      * apply keys_group_add in Hacc as [-> | Hacc]; [| now left].
        right. rewrite bool_decide_eq_true_2 by reflexivity. discriminate.
      * right. destruct (bool_decide (k = key)); [discriminate | exact Hne].
Qed.

Lemma runs_of_In key runs grouped :
  NoDup (map fst grouped) -> In (key, runs) grouped -> runs_of key grouped = runs.
Proof.
  induction grouped as [|[k0 runs0] grouped IH]; intros Hnd Hin; [destruct Hin |].
  cbn [map fst] in Hnd. apply NoDup_cons in Hnd as [Hk0 Hnd]. cbn [runs_of].
  destruct Hin as [Heq | Hin].
  - inversion Heq; subst. now rewrite bool_decide_eq_true_2.
  - destruct (bool_decide (k0 = key)) eqn:E; [| now apply IH].
    apply bool_decide_eq_true in E. subst k0. exfalso. apply Hk0.
    apply list_elem_of_In. change key with (fst (key, runs)). now apply in_map.
Qed.

Section Aggregation.
Context `{PyLib}.

Lemma make_entries_In groups report :
  make_entries groups = Ok report ->
  forall e, In e report -> exists g, In g groups /\ make_entry g = Ok e.
Proof.
  revert report. induction groups as [|g groups IH]; intros report Hm e He.
  - inversion Hm; subst. destruct He.
  - cbn [make_entries] in Hm.
    destruct (make_entry g) as [e0|] eqn:Hg; [| discriminate]. cbn [res_bind] in Hm.
    destruct (make_entries groups) as [es|]; [| discriminate].
    cbn [res_bind] in Hm. inversion Hm; subst.
    destruct He as [<- | He].
    + exists g. split; [now left | exact Hg].
    + destruct (IH es eq_refl e He) as [g' [Hin Hg']]. exists g'. split; [now right | exact Hg'].
Qed.

Lemma make_entry_fields task_id condition runs e :
  make_entry ((task_id, condition), runs) = Ok e ->
  e_task_id e = task_id /\ e_condition e = condition
  /\ n_runs e = length runs
  /\ metric_fields METRICS runs = Ok (fields e).
Proof.
  unfold make_entry.
  destruct (metric_fields METRICS runs) as [fs|]; [| discriminate]. cbn [res_bind].
  destruct (total_tokens runs) as [tt|]; [| discriminate]. cbn [res_bind].
  destruct (numbers tt) as [tq|]; [| discriminate]. cbn [res_bind].
  intros [= <-]. auto.
Qed.

Lemma metric_sample_quality runs sample :
  metric_sample "quality_score" runs = Ok sample ->
  exists values,
    numbers (present "quality_score" runs) = Ok values
    /\ sample = List.filter (fun v => Qle_bool 0 v) values.
Proof.
  unfold metric_sample.
  destruct (numbers (present "quality_score" runs)) as [values|]; [| discriminate].
  cbn. intros [= <-]. eauto.
Qed.

Lemma quality_fields runs fs :
  metric_fields METRICS runs = Ok fs ->
  exists sample,
    metric_sample "quality_score" runs = Ok sample
    /\ forall d,
         field "quality_score_mean" d fs = mean (compute_stats sample)
         /\ field "quality_score_median" d fs = median (compute_stats sample)
         /\ field "quality_score_stdev" d fs = stdev (compute_stats sample).
Proof.
  unfold METRICS. cbn [metric_fields].
  repeat match goal with
         | |- context [metric_sample ?k runs] =>
             let E := fresh "E" in
             destruct (metric_sample k runs) eqn:E; cbn [res_bind];
             [| discriminate]
         end.
  intros [= <-]. eexists. split; [reflexivity |].
  intros d. repeat split.
Qed.

(** C2. For every group of the aggregate report, the three quality-score
    statistics are those of the sample that remains of the group's quality
    scores after the values below zero are dropped: the sentinel is never
    averaged in.  The scores 8, -1, 9 give the sample 8, 9 with mean 8.5 and
    n = 2, not the mean 16/3 over n = 3. *)
Theorem quality_statistics_exclude_sentinels :
  (forall results report,
     aggregate results = Ok report ->
     forall e, In e report ->
       let runs := group_of results (e_task_id e, e_condition e) in
       n_runs e = length runs
       /\ exists values,
            numbers (present "quality_score" runs) = Ok values
            /\ let scores := List.filter (fun v => Qle_bool 0 v) values in
               (forall v, In v scores <-> In v values /\ (0 <= v)%Q)
               /\ field "quality_score_mean" 0 (fields e) = mean (compute_stats scores)
               /\ field "quality_score_median" 0 (fields e) = median (compute_stats scores)
               /\ field "quality_score_stdev" 0 (fields e) = stdev (compute_stats scores))
  /\ (metric_sample "quality_score" judged_runs = Ok [8; 9]%Q
      /\ n (compute_stats [8; 9]%Q) = 2%nat
      /\ (mean (compute_stats [8; 9]%Q) == 17 # 2)%Q
      /\ ~ (mean (compute_stats [8; 9]%Q) == 16 # 3)%Q).
Proof.
  split.
  - intros results report Hagg e He runs. unfold aggregate in Hagg.
    destruct (group_runs results []) as [grouped|] eqn:Hg; [| discriminate].
    cbn [res_bind] in Hagg.
    destruct (group_runs_spec results [] grouped Hg (NoDup_nil_2))
      as [Hnd [Hruns _]].
    destruct (make_entries_In _ _ Hagg e He) as [[[t c] rs] [Hin Hmk]].
    apply In_sort_by in Hin.
    destruct (make_entry_fields t c rs e Hmk) as [Ht [Hc [Hn Hf]]].
    assert (Hrs : rs = runs).
    { unfold runs. rewrite Ht, Hc.
      rewrite <- (runs_of_In (t, c) rs grouped Hnd Hin). now rewrite Hruns. }
    subst rs. split; [exact Hn |].
    destruct (quality_fields runs (fields e) Hf) as [sample [Hs Hq]].
    destruct (metric_sample_quality runs sample Hs) as [values [Hv ->]].
    exists values. split; [exact Hv |]. cbv zeta. split.
    + intros v. rewrite filter_In, Qle_bool_iff. tauto.
    + apply Hq.
  - split; [reflexivity |]. split; [reflexivity |].
    split; [reflexivity |]. intros Hq. vm_compute in Hq. discriminate Hq.
Qed.

End Aggregation.

(** C2 on the three judged runs: the report has one group of three runs
    whose quality mean is 8.5. *)
Lemma quality_statistics_exclude_sentinels_witness :
  exists e,
    @aggregate example_lib judged_runs = Ok [e]
    /\ n_runs e = 3%nat
    /\ (field "quality_score_mean" 0 (fields e) == 17 # 2)%Q.
Proof.
  destruct (@aggregate example_lib judged_runs) as [report|] eqn:Hagg;
    [| vm_compute in Hagg; discriminate Hagg].
  assert (Hlen : exists e, report = [e]).
  { vm_compute in Hagg. inversion Hagg. eauto. }
  destruct Hlen as [e ->]. exists e. split; [reflexivity |].
  destruct (proj1 (@quality_statistics_exclude_sentinels example_lib)
              judged_runs [e] Hagg e (or_introl eq_refl))
    as [Hn [values [Hv [_ [Hmean _]]]]].
  assert (Hgroup : group_of judged_runs (e_task_id e, e_condition e) = judged_runs).
  { clear Hn Hv Hmean values. vm_compute in Hagg. inversion Hagg. reflexivity. }
  rewrite Hgroup in Hn, Hv. split; [exact Hn |].
  rewrite Hmean. vm_compute in Hv. inversion Hv. reflexivity.
Defined.

(** ** Comparison rendering *)











(** * Further properties of the judge ([bench/judge.py]) *)

(** ** Fence stripping *)

Lemma startswith_other a r c s :
  Ascii.eqb c a = false -> Str.startswith (String a r) (String c s) = false.
Proof. intros Hc. cbn [Str.startswith]. now rewrite Ascii.eqb_sym, Hc. Qed.

Lemma append_assoc (a b c : string) : (a +:+ b) +:+ c = a +:+ b +:+ c.
Proof. induction a as [|x a IH]; simpl; [reflexivity | now rewrite IH]. Qed.

Lemma append_empty_r (a : string) : a +:+ EmptyString = a.
Proof. induction a as [|x a IH]; simpl; [reflexivity | now rewrite IH]. Qed.

Lemma all_append p a b :
  Str.all p (a +:+ b) = Str.all p a && Str.all p b.
Proof.
  induction a as [|x a IH]; simpl; [reflexivity |].
  now rewrite IH, andb_assoc.
Qed.

Lemma all_drop p k s : Str.all p s = true -> Str.all p (Str.drop k s) = true.
Proof.
  revert s; induction k as [|k IH]; intros [|c s] Hs; try exact Hs.
  cbn [Str.drop]. apply IH. cbn [Str.all] in Hs. now apply andb_true_iff in Hs.
Qed.

Lemma drop_spaces s : Str.drop (spaces s) s = Str.lstrip s.
Proof.
  induction s as [|c s IH]; [reflexivity |].
  cbn [spaces Str.lstrip]. destruct (Str.isspace c); [exact IH | reflexivity].
Qed.

Lemma drop_all k s : (String.length s <= k)%nat -> Str.drop k s = EmptyString.
Proof.
  revert k; induction s as [|c s IH]; intros [|k] Hk; try reflexivity.
  - cbn in Hk. lia.
  - cbn [Str.drop]. apply IH. cbn in Hk. lia.
Qed.

Lemma length_append (a b : string) :
  String.length (a +:+ b) = (String.length a + String.length b)%nat.
Proof. induction a as [|x a IH]; simpl; [reflexivity | now rewrite IH]. Qed.

Lemma backtick_not_space c : Str.isspace c = true -> Ascii.eqb c backtick = false.
Proof. intros Hc. destruct (Ascii.eqb_spec c backtick) as [->|]; [discriminate Hc | reflexivity]. Qed.

Lemma lstrip_all_space s : Str.all Str.isspace s = true -> Str.lstrip s = EmptyString.
Proof.
  intros Hs. rewrite <- (append_empty_r s). now rewrite lstrip_spaces.
Qed.

(** The text stripped on the left is empty or starts with a character that
    is not white space. *)
Lemma lstrip_head s :
  match Str.lstrip s with
  | EmptyString => Str.all Str.isspace s = true
  | String c _ => Str.isspace c = false
  end.
Proof.
  induction s as [|c s IH]; [reflexivity |].
  cbn [Str.lstrip Str.all]. destruct (Str.isspace c) eqn:Hc; [| exact Hc].
  destruct (Str.lstrip s); [exact IH | exact IH].
Qed.

Lemma lstrip_append s t :
  Str.all Str.isspace s = false -> Str.lstrip (s +:+ t) = Str.lstrip s +:+ t.
Proof.
  induction s as [|c s IH]; [discriminate |].
  cbn [Str.all Str.lstrip String.append]. destruct (Str.isspace c); [| reflexivity].
  exact IH.
Qed.

Lemma rstrip_all_space s : Str.all Str.isspace s = true -> Str.rstrip s = EmptyString.
Proof.
  induction s as [|c s IH]; [reflexivity |].
  cbn [Str.all Str.rstrip]. intros Hs. apply andb_true_iff in Hs as [Hc Hs].
  now rewrite (IH Hs), Hc.
Qed.

Lemma rstrip_empty s : Str.rstrip s = EmptyString -> Str.all Str.isspace s = true.
Proof.
  induction s as [|c s IH]; [reflexivity |].
  cbn [Str.all Str.rstrip]. destruct (Str.rstrip s); [| discriminate].
  destruct (Str.isspace c); [| discriminate]. intros _. now apply IH.
Qed.

Lemma rstrip_cons c s :
  Str.all Str.isspace (String c s) = false ->
  Str.rstrip (String c s) = String c (Str.rstrip s).
Proof.
  cbn [Str.all Str.rstrip]. intros Hs.
  destruct (Str.rstrip s) eqn:Hr; [| reflexivity].
  rewrite (rstrip_empty s Hr), andb_true_r in Hs. now rewrite Hs.
Qed.

Lemma rstrip_unfold c s :
  Str.rstrip (String c s)
  = match Str.rstrip s with
    | EmptyString => if Str.isspace c then EmptyString else String c EmptyString
    | r => String c r
    end.
Proof. reflexivity. Qed.

Lemma rstrip_idempotent s : Str.rstrip (Str.rstrip s) = Str.rstrip s.
Proof.
  induction s as [|c s IH]; [reflexivity |].
  rewrite rstrip_unfold. destruct (Str.rstrip s) as [|c' r] eqn:Hr.
  - destruct (Str.isspace c) eqn:Hc; [reflexivity |].
    rewrite rstrip_unfold. cbn [Str.rstrip]. now rewrite Hc.
  - rewrite rstrip_unfold, IH. reflexivity.
Qed.

Lemma strip_idempotent s : Str.strip (Str.strip s) = Str.strip s.
Proof.
  unfold Str.strip. pose proof (lstrip_head s) as Hh.
  destruct (Str.lstrip s) as [|c r] eqn:Hl; [reflexivity |].
  assert (Hns : Str.all Str.isspace (String c r) = false)
    by (cbn [Str.all]; now rewrite Hh).
  rewrite (rstrip_cons c r Hns). cbn [Str.lstrip]. rewrite Hh.
  rewrite <- (rstrip_cons c r Hns). apply rstrip_idempotent.
Qed.

Lemma startswith_fence_free r s :
  fence_free s = true -> Str.startswith (String backtick r) s = false.
Proof.
  intros Hs. destruct s as [|a s]; [reflexivity |].
  cbn [fence_free Str.all] in Hs. apply andb_true_iff in Hs as [Ha _].
  apply startswith_other. now apply negb_true_iff in Ha.
Qed.

Lemma fence_match_fence_free s : fence_free s = true -> fence_match s = None.
Proof.
  intros Hs. unfold fence_match.
  rewrite (startswith_fence_free _ s Hs).
  rewrite (startswith_fence_free _ (Str.drop (spaces s) s)); [reflexivity |].
  now apply all_drop.
Qed.

Lemma strip_fences_from_unfold c r :
  strip_fences_from O (String c r)
  = match fence_match (String c r) with
    | Some n => strip_fences_from (Nat.pred n) r
    | None => String c (strip_fences_from O r)
    end.
Proof. reflexivity. Qed.

Lemma strip_fences_from_skip k s :
  strip_fences_from k s = strip_fences_from O (Str.drop k s).
Proof.
  revert k; induction s as [|c s IH]; intros [|k]; try reflexivity.
  cbn [strip_fences_from Str.drop]. apply IH.
Qed.

(** White space followed by the closing fence is one match, and is deleted. *)
Lemma strip_fences_closing ws :
  Str.all Str.isspace ws = true ->
  strip_fences_from O (ws +:+ "```") = EmptyString.
Proof.
  intros Hws.
  assert (Hm : fence_match (ws +:+ "```") = Some (String.length ws + 3)%nat).
  { unfold fence_match.
    assert (Hj : Str.startswith "```json" (ws +:+ "```") = false).
    { destruct ws as [|c ws]; [reflexivity |].
      cbn [Str.all] in Hws. apply andb_true_iff in Hws as [Hc _].
      apply (startswith_other backtick). now apply backtick_not_space. }
    rewrite Hj.
    assert (Hk : spaces (ws +:+ "```") = String.length ws).
    { clear Hj. induction ws as [|c ws IH]; [reflexivity |].
      cbn [Str.all] in Hws. apply andb_true_iff in Hws as [Hc Hws].
      cbn [String.append spaces String.length]. rewrite Hc. f_equal. now apply IH. }
    rewrite Hk.
    assert (Hd : Str.drop (String.length ws) (ws +:+ "```") = "```").
    { clear. induction ws as [|c ws IH]; [reflexivity | exact IH]. }
    now rewrite Hd. }
  destruct (ws +:+ "```") as [|c r] eqn:He.
  - reflexivity.
  - cbn [strip_fences_from]. rewrite Hm, strip_fences_from_skip.
    rewrite drop_all; [reflexivity |].
    assert (Hl : String.length (String c r) = (String.length ws + 3)%nat)
      by (rewrite <- He, length_append; reflexivity).
    cbn [String.length] in Hl. lia.
Qed.

(** A text without backticks followed by the closing fence loses the fence
    and its own trailing white space. *)
Lemma strip_fences_body x ws :
  fence_free x = true ->
  Str.all Str.isspace ws = true ->
  strip_fences_from O (x +:+ ws +:+ "```") = Str.rstrip x.
Proof.
  intros Hx Hws. induction x as [|c x IH].
  - cbn [String.append Str.rstrip]. now apply strip_fences_closing.
  - destruct (Str.all Str.isspace (String c x)) eqn:Hsp.
    + rewrite (rstrip_all_space _ Hsp), <- append_assoc.
      apply strip_fences_closing. now rewrite all_append, Hsp.
    + rewrite (rstrip_cons c x Hsp).
      assert (Hcx := Hx).
      cbn [fence_free Str.all] in Hx. apply andb_true_iff in Hx as [Hc Hx].
      cbn [String.append strip_fences_from].
      assert (Hm : fence_match (String c (x +:+ ws +:+ "```")) = None).
      { unfold fence_match.
        assert (Hj : Str.startswith "```json" (String c (x +:+ ws +:+ "```")) = false).
        { apply (startswith_other backtick). now apply negb_true_iff in Hc. }
        rewrite Hj, drop_spaces.
        change (String c (x +:+ ws +:+ "```")) with (String c x +:+ ws +:+ "```").
        rewrite (lstrip_append _ _ Hsp).
        pose proof (lstrip_head (String c x)) as Hh.
        assert (Hf : fence_free (Str.lstrip (String c x)) = true).
        { rewrite <- drop_spaces. unfold fence_free. apply all_drop. exact Hcx. }
        destruct (Str.lstrip (String c x)) as [|a r].
        - congruence.
        - cbn [fence_free Str.all] in Hf. apply andb_true_iff in Hf as [Ha _].
          apply negb_true_iff in Ha.
          now rewrite (startswith_other backtick _ a (r +:+ ws +:+ "```") Ha). }
      rewrite Hm. f_equal. now apply IH.
Qed.

Lemma strip_fences_fenced ws1 body ws2 :
  Str.all Str.isspace ws1 = true ->
  Str.all Str.isspace ws2 = true ->
  fence_free body = true ->
  strip_fences (fenced ws1 body ws2) = Str.strip body.
Proof.
  intros H1 H2 Hb. unfold strip_fences, fenced.
  set (rest := ws1 +:+ body +:+ ws2 +:+ "```").
  change ("```json" +:+ rest)
    with (String backtick (String backtick (String backtick ("json" +:+ rest)))).
  assert (Hm : fence_match (String backtick (String backtick (String backtick ("json" +:+ rest))))
               = Some (7 + spaces rest)%nat) by reflexivity.
  rewrite strip_fences_from_unfold, Hm, strip_fences_from_skip.
  change (Str.drop (Nat.pred (7 + spaces rest))
                   (String backtick (String backtick ("json" +:+ rest))))
    with (Str.drop (spaces rest) rest).
  rewrite drop_spaces. unfold rest. rewrite (lstrip_spaces ws1 _ H1).
  unfold Str.strip.
  destruct (Str.all Str.isspace body) eqn:Hsp.
  - rewrite (lstrip_spaces body _ Hsp), (lstrip_spaces ws2 _ H2).
    rewrite (lstrip_all_space body Hsp). reflexivity.
  - rewrite (lstrip_append _ _ Hsp). apply strip_fences_body; [| exact H2].
    rewrite <- drop_spaces. unfold fence_free. apply all_drop. exact Hb.
Qed.

Lemma strip_fences_fence_free s : fence_free s = true -> strip_fences s = s.
Proof.
  unfold strip_fences. induction s as [|c s IH]; intros Hs; [reflexivity |].
  cbn [strip_fences_from]. rewrite (fence_match_fence_free _ Hs).
  f_equal. apply IH. cbn [fence_free Str.all] in Hs.
  now apply andb_true_iff in Hs.
Qed.

(** X1. Fence stripping in [judge_answer] leaves a text without backticks as it
    is, and takes a text wrapped in a json fence - the opening fence, white
    space, a body without backticks, white space, the closing fence - to
    the body stripped of its surrounding white space.  So a score object
    that decodes when sent bare decodes to the same value when sent fenced. *)
Theorem fence_stripping_unwraps_json_block :
  (forall s, fence_free s = true -> strip_fences s = s)
  /\ (forall ws1 body ws2,
        Str.all Str.isspace ws1 = true ->
        Str.all Str.isspace ws2 = true ->
        fence_free body = true ->
        strip_fences (fenced ws1 body ws2) = Str.strip body)
  /\ (forall (L : PyLib) ws1 body ws2 score_data,
        Str.all Str.isspace ws1 = true ->
        Str.all Str.isspace ws2 = true ->
        fence_free body = true ->
        json_loads (Str.strip body) = Some score_data ->
        parse_score (JStr body) = Ok score_data
        /\ parse_score (JStr (fenced ws1 body ws2)) = Ok score_data).
Proof.
  split; [exact strip_fences_fence_free |].
  split; [exact strip_fences_fenced |].
  intros L ws1 body ws2 score_data H1 H2 Hb Hj. unfold parse_score.
  rewrite (strip_fences_fence_free body Hb), (strip_fences_fenced _ _ _ H1 H2 Hb).
  rewrite strip_idempotent, Hj. auto.
Qed.

(** ** The regular-expression fallback *)

Lemma digits_all s : Str.all Str.isdigit (digits s) = true.
Proof.
  induction s as [|c s IH]; [reflexivity |].
  cbn [digits]. destruct (Str.isdigit c) eqn:Hc; [| reflexivity].
  cbn [Str.all]. now rewrite Hc.
Qed.

Lemma score_match_digits s d :
  score_match s = Some d ->
  d <> EmptyString /\ Str.all Str.isdigit d = true
  /\ Str.startswith (quoted "score") s = true.
Proof.
  unfold score_match.
  destruct (Str.startswith (quoted "score") s); [| discriminate].
  destruct (Str.lstrip (Str.drop 7 s)) as [|c r]; [discriminate |].
  destruct (Ascii.eqb_spec c ":") as [-> | Hne].
  - destruct (digits (Str.lstrip r)) as [|c0 ds] eqn:Hd; [discriminate |].
    cbn [Str.nonempty]. intros [= <-]. split; [discriminate |].
    split; [| reflexivity]. rewrite <- Hd. apply digits_all.
  - destruct c as [[] [] [] [] [] [] [] []]; try discriminate.
    now contradiction Hne.
Qed.

Lemma score_search_digits s d :
  score_search s = Some d ->
  d <> EmptyString /\ Str.all Str.isdigit d = true
  /\ Str.contains (quoted "score") s = true.
Proof.
  induction s as [|c s IH]; rewrite score_search_unfold.
  - destruct (score_match EmptyString) eqn:Hm; [| discriminate].
    intros [= <-]. apply score_match_digits in Hm as [? [? Hs]].
    cbn [Str.contains]. rewrite Hs. auto.
  - destruct (score_match (String c s)) eqn:Hm.
    + intros [= <-]. apply score_match_digits in Hm as [? [? Hs]].
      cbn [Str.contains]. rewrite Hs. auto.
    + intros Hd. destruct (IH Hd) as [? [? Hs]].
      cbn [Str.contains]. rewrite Hs, orb_true_r. auto.
Qed.

(** X2. The regular-expression fallback of [judge_answer] reads a non-empty
    run of decimal digits after a quoted score key, and nothing else.  So
    when the result text does not decode, the score data is either a
    non-negative integer read from the text, with the first 200 characters
    of the text as the reasoning, or the sentinel -1; a negative number
    after the key is not read, and an earlier score key that is followed
    by no number is passed over. *)
Theorem regex_fallback_yields_non_negative_score_or_sentinel :
  (forall s d,
     score_search s = Some d ->
     d <> EmptyString /\ Str.all Str.isdigit d = true /\ 0 <= Py.int d
     /\ Str.contains (quoted "score") s = true)
  /\ (forall (L : PyLib) t,
        json_loads (Str.strip (strip_fences t)) = None ->
        (exists d,
           score_search t = Some d
           /\ 0 <= Py.int d
           /\ parse_score (JStr t)
              = Ok (JObj [("score", JInt (Py.int d));
                          ("reasoning", JStr (Str.take 200 t))]))
        \/ (score_search t = None
            /\ parse_score (JStr t)
               = Ok (JObj (sentinel ("Failed to parse: " +:+ Str.take 200 t)))))
  /\ score_search (text "{'score': -3, 'reasoning': 'poor'}") = None
  /\ score_search (text "no 'score' here; 'score' : 12 of 10") = Some "12".
Proof.
  assert (Hd : forall s d,
     score_search s = Some d ->
     d <> EmptyString /\ Str.all Str.isdigit d = true /\ 0 <= Py.int d
     /\ Str.contains (quoted "score") s = true).
  { intros s d Hs. apply score_search_digits in Hs as [Hne [Hall Hc]].
    split; [exact Hne |]. split; [exact Hall |]. split; [| exact Hc].
    apply int_digits_nonneg; [lia | exact Hall]. }
  split; [exact Hd |]. split; [| split; reflexivity].
  intros L t Hj. destruct (score_search t) as [d|] eqn:Hs.
  - left. exists d. split; [reflexivity |].
    split; [apply (Hd t d Hs) |]. now apply parse_score_regex.
  - right. split; [reflexivity |]. now apply parse_score_sentinel.
Qed.

(** ** Keyword coverage and the answer text *)

Lemma filter_sublist_mono {A} (f g : A -> bool) (l : list A) :
  (forall x, f x = true -> g x = true) ->
  sublist (List.filter f l) (List.filter g l).
Proof.
  intros Hfg. induction l as [|x l IH]; [constructor |].
  cbn [List.filter]. destruct (f x) eqn:Hf.
  - rewrite (Hfg x Hf). now constructor.
  - destruct (g x); [now constructor | exact IH].
Qed.

Lemma contains_extended needle pre hay post :
  Str.contains needle hay = true ->
  Str.contains needle (pre +:+ hay +:+ post) = true.
Proof.
  rewrite !contains_spec. intros [a [b ->]].
  exists (pre +:+ a), (b +:+ post). now rewrite !append_assoc.
Qed.

(** X3. Text added before or after an answer never loses a keyword hit: the
    hits on the answer are a sub-list of the hits on the longer text.  The
    hits on a concatenated keyword list are the hits on its two parts, so a
    keyword listed twice is counted twice. *)
Theorem keyword_hits_grow_with_the_answer :
  (forall text pre post keywords,
     sublist (snd (count_keyword_hits text keywords))
             (snd (count_keyword_hits (pre +:+ text +:+ post) keywords))
     /\ (fst (count_keyword_hits text keywords)
         <= fst (count_keyword_hits (pre +:+ text +:+ post) keywords))%nat)
  /\ (forall text keywords more,
        count_keyword_hits text (keywords ++ more)
        = ((fst (count_keyword_hits text keywords)
            + fst (count_keyword_hits text more))%nat,
           snd (count_keyword_hits text keywords)
           ++ snd (count_keyword_hits text more))).
Proof.
  split.
  - intros text pre post keywords. unfold count_keyword_hits.
    rewrite !keyword_loop_filter. cbn [app fst snd].
    assert (Hsub : sublist
              (List.filter (fun kw => Str.contains (Str.lower kw) (Str.lower text))
                           keywords)
              (List.filter (fun kw => Str.contains (Str.lower kw)
                                        (Str.lower (pre +:+ text +:+ post)))
                           keywords)).
    { apply filter_sublist_mono. intros kw Hkw.
      rewrite !lower_append. now apply contains_extended. }
    split; [exact Hsub | now apply sublist_length].
  - intros text keywords more. unfold count_keyword_hits.
    rewrite !keyword_loop_filter. cbn [app fst snd].
    now rewrite List.filter_app, length_app.
Qed.

(** ** The loop of the judge *)

Section JudgeLoop.
Context `{PyLib}.

(** The test for an already scored record finds none when the record needs
    judging. *)
Lemma scored_check_false {A} args data task answer (k : bool -> M A) w :
  needs_judging args data ->
  bind (if j_force args then ret false
        else match Py.lookup "quality_score" (with_keywords task answer data) with
             | Some v => lift (Py.ge0 v)
             | None => ret false
             end) k w
  = k false w.
Proof.
  intros Hn. unfold with_keywords. rewrite !lookup_set_ne by discriminate.
  destruct Hn as [-> | [-> | [v [q [-> [Hq Hlt]]]]]]; [reflexivity | |].
  - destruct (j_force args); reflexivity.
  - destruct (j_force args); [reflexivity |].
    unfold Py.ge0. rewrite Hq, bind_lift_ok. f_equal.
    destruct (Qle_bool 0 q) eqn:Hle; [| reflexivity].
    apply Qle_bool_iff in Hle. exfalso. apply (Qlt_not_le _ _ Hlt Hle).
Qed.

Lemma judge_record_unfold tasks args n total i name data task answer w :
  find_task tasks data = Ok (Some task) ->
  Py.get "result_text" (JStr EmptyString) data = JStr answer ->
  answer <> EmptyString ->
  judge_record tasks args n total (i, (name, data)) w
  = (let data := with_keywords task answer data in
     if negb (j_keywords_only args) then
       let* scored :=
         (if j_force args then ret false
          else match Py.lookup "quality_score" data with
               | Some v => lift (Py.ge0 v)
               | None => ret false
               end) in
       if scored then ret total
       else
         let* score_data := judge_answer task answer (j_model args) in
         let data := with_score score_data data in
         let* total' := lift (add_cost total (Py.get "judge_cost_usd" JNull data)) in
         (if positive (j_pause args) && (Z.of_nat i <? Z.of_nat n - 1)
          then sleep (j_pause args) else ret tt);;
         write_cell name data;;
         ret total'
     else write_cell name data;; ret total) w.
Proof.
  intros Ht Ha Hne. unfold judge_record. rewrite Ht, bind_lift_ok, Ha.
  destruct answer as [|c0 answer]; [contradiction |].
  cbn [Py.truthy Str.nonempty negb]. unfold with_keywords.
  destruct (count_keyword_hits (String c0 answer) (expected_answer_keywords task))
    as [hits hit_list].
  reflexivity.
Qed.

(** A record that needs judging is graded by one external call; when the
    call yields score data with a numeric cost, the record is written back
    with the new score. *)
Lemma judge_record_judges tasks args n total i name data task answer w :
  j_keywords_only args = false ->
  needs_judging args data ->
  find_task tasks data = Ok (Some task) ->
  Py.get "result_text" (JStr EmptyString) data = JStr answer ->
  answer <> EmptyString ->
  judge_record tasks args n total (i, (name, data)) w
  = match judge_result (outcome (script w (spawned w))) with
    | Raise e => (Raise e, called w args task answer)
    | Ok score_data =>
        let data' := with_score score_data (with_keywords task answer data) in
        match Py.number (Py.get "judge_cost_usd" (JInt 0) score_data) with
        | None => (Raise TypeError, called w args task answer)
        | Some c =>
            (Ok (total + c)%Q,
             after w 1 name data' (grading_events args n i task answer name data'))
        end
    end.
Proof.
  intros Hk Hn Ht Ha Hne.
  rewrite (judge_record_unfold _ _ _ _ _ _ _ task answer) by assumption.
  cbv zeta. rewrite Hk. cbn [negb]. rewrite scored_check_false by exact Hn.
  cbv iota. unfold judge_answer, subprocess_run, bind at 1 2. cbv beta iota.
  cbn [outcome script spawned cells combined trace].
  destruct (judge_result (outcome (script w (spawned w)))) as [score_data | e];
    [| reflexivity].
  unfold lift at 1. cbn beta iota.
  unfold with_score at 1. rewrite get_set_eq. unfold add_cost.
  destruct (Py.number (Py.get "judge_cost_usd" (JInt 0) score_data)) as [c|];
    [| reflexivity].
  rewrite bind_lift_ok. unfold after, grading_events.
  destruct (positive (j_pause args) && (Z.of_nat i <? Z.of_nat n - 1));
    cbn; rewrite <- ?app_assoc, ?Nat.add_1_r; reflexivity.
Qed.

Lemma judge_record_step tasks args n total i name data w r w' :
  judge_record tasks args n total (i, (name, data)) w = (r, w') ->
  judge_step tasks args n i total name data w r w'.
Proof.
  intros Hr.
  assert (Hskip : forall r0, (r0 = Ok total \/ forall x : Q, r0 <> Ok x) ->
            (r0, w) = (r, w') ->
            judge_step tasks args n i total name data w r w').
  { intros r0 Hr0 Heq. inversion Heq; subst. now apply step_skipped. }
  destruct (find_task tasks data) as [[task|]|e] eqn:Ht;
    [| unfold judge_record in Hr; rewrite Ht in Hr;
       apply (Hskip _ (or_introl eq_refl) Hr)
     | unfold judge_record in Hr; rewrite Ht in Hr;
       refine (Hskip _ (or_intror _) Hr); discriminate].
  destruct (Py.get "result_text" (JStr EmptyString) data) as [| | | |answer| |] eqn:Ha;
    try (unfold judge_record in Hr; rewrite Ht, bind_lift_ok, Ha in Hr;
         cbn [Py.truthy negb] in Hr;
         repeat match type of Hr with
                | context [match ?x with _ => _ end] => destruct x
                end;
         first [ apply (Hskip _ (or_introl eq_refl) Hr)
               | refine (Hskip _ (or_intror _) Hr); discriminate ]).
  destruct answer as [|c0 answer];
    [unfold judge_record in Hr; rewrite Ht, bind_lift_ok, Ha in Hr;
     apply (Hskip _ (or_introl eq_refl) Hr) |].
  set (ans := String c0 answer) in *.
  assert (Hne : ans <> EmptyString) by discriminate.
  assert (Hj : judgeable tasks data task ans) by (repeat split; assumption).
  assert (Hgraded : j_keywords_only args = false -> needs_judging args data ->
            judge_step tasks args n i total name data w r w').
  { intros Hk Hn.
    rewrite (judge_record_judges _ _ _ _ _ _ _ task ans) in Hr by assumption.
    cbv zeta in Hr.
    destruct (judge_result (outcome (script w (spawned w)))) as [score_data | e] eqn:Hres.
    - destruct (Py.number (Py.get "judge_cost_usd" (JInt 0) score_data)) as [c|] eqn:Hc.
      + inversion Hr; subst. now apply (step_graded _ _ _ _ _ _ _ _ task ans score_data c).
      + inversion Hr; subst.
        apply (step_call_failed _ _ _ _ _ _ _ _ task ans); auto; discriminate.
    - inversion Hr; subst.
      apply (step_call_failed _ _ _ _ _ _ _ _ task ans); auto; discriminate. }
  destruct (j_keywords_only args) eqn:Hk.
  - rewrite (judge_record_unfold _ _ _ _ _ _ _ task ans) in Hr by assumption.
    cbv zeta in Hr. rewrite Hk in Hr. cbn in Hr. inversion Hr; subst.
    replace (spawned w) with (spawned w + 0)%nat at 1 by apply Nat.add_0_r.
    now apply (step_keywords _ _ _ _ _ _ _ _ task ans).
  - specialize (Hgraded eq_refl).
    rewrite (judge_record_unfold _ _ _ _ _ _ _ task ans) in Hr by assumption.
    cbv zeta in Hr. rewrite Hk in Hr. cbn [negb] in Hr.
    unfold with_keywords in Hr at 1.
    rewrite !lookup_set_ne in Hr by discriminate.
    destruct (j_force args) eqn:Hf; [apply Hgraded; left; exact Hf |].
    destruct (Py.lookup "quality_score" data) as [v|] eqn:Hv;
      [| apply Hgraded; right; left; exact Hv].
    unfold Py.ge0 in Hr. destruct (Py.number v) as [q|] eqn:Hq.
    + destruct (Qle_bool 0 q) eqn:Hle.
      * rewrite bind_lift_ok in Hr. apply (Hskip _ (or_introl eq_refl) Hr).
      * apply Hgraded. right. right. exists v, q.
        split; [exact Hv |]. split; [exact Hq |]. apply Qnot_le_lt. intros Hc.
        apply Qle_bool_iff in Hc. congruence.
    + rewrite bind_lift_raise in Hr.
      refine (Hskip _ (or_intror _) Hr). discriminate.
Qed.

Lemma for_each_invariant {A S} (I : S -> world -> Prop) (J : world -> Prop)
    (body : S -> A -> M S) (l : list A) :
  (forall s x w, In x l -> I s w ->
     match body s x w with
     | (Ok s', w') => I s' w'
     | (Raise _, w') => J w'
     end) ->
  forall s w, I s w ->
    match for_each body l s w with
    | (Ok s', w') => I s' w'
    | (Raise _, w') => J w'
    end.
Proof.
  induction l as [|x l IH]; intros Hb s w Hi; [exact Hi |].
  cbn [for_each]. unfold bind.
  pose proof (Hb s x w (or_introl eq_refl) Hi) as Hx.
  destruct (body s x w) as [[s' | e] w']; [| exact Hx].
  apply IH; [| exact Hx]. intros s0 y w0 Hy. apply Hb. now right.
Qed.

Lemma judge_pass_refl tasks args w : judge_pass tasks args w w.
Proof.
  split; [reflexivity |]. split; [reflexivity |]. split.
  - exists []. rewrite app_nil_r. cbn. split; [reflexivity |].
    split; [now rewrite Nat.add_0_r | reflexivity].
  - intros name. now left.
Qed.

Lemma judge_pass_step tasks args n i total name data w0 w r w' :
  cells w0 !! name = Some data ->
  Py.has "error" data = false ->
  judge_pass tasks args w0 w ->
  judge_step tasks args n i total name data w r w' ->
  judge_pass tasks args w0 w'
  /\ (j_keywords_only args = true -> forall x, r = Ok x -> x = total).
Proof.
  intros Hd He [Hs [Hc [[evs [Ht [Hn Hw]]] Hst]]] Hstep.
  assert (Hstore : forall data',
            rewritten tasks args data data' ->
            judged_store tasks args (cells w0) (<[name := data']> (cells w))).
  { intros data' Hrw name'. destruct (decide (name' = name)) as [-> | Hne].
    - right. exists data, data'. rewrite lookup_insert_eq. auto.
    - rewrite lookup_insert_ne by congruence. apply Hst. }
  destruct Hstep as [r Hr | task answer Hj Hk | task answer r Hj Hk Hneed Hr
                    | task answer score_data c Hj Hk Hneed Hres Hcost data'].
  - split; [repeat split; eauto |].
    intros _ x ->. destruct Hr as [[= ->] | Hr]; [reflexivity |].
    now destruct (Hr x).
  - split; [| intros _ x [= ->]; reflexivity].
    split; [exact Hs |]. split; [exact Hc |]. split.
    + exists (evs ++ [EvWrite name (with_keywords task answer data)]).
      cbn [after trace spawned]. rewrite Ht, <- app_assoc.
      split; [reflexivity |]. rewrite List.filter_app, length_app, forallb_app.
      cbn. split; [lia |]. intros Hkw. now rewrite (Hw Hkw).
    + apply Hstore. exists task, answer. split; [exact Hj |]. now rewrite Hk.
  - split; [| congruence].
    split; [exact Hs |]. split; [exact Hc |]. split; [| exact Hst].
    exists (evs ++ [EvSpawn (judge_cmd task answer (j_model args)) 120]).
    cbn [called trace spawned]. rewrite Ht, <- app_assoc.
    split; [reflexivity |]. rewrite List.filter_app, length_app.
    cbn. split; [lia | congruence].
  - split; [| congruence].
    split; [exact Hs |]. split; [exact Hc |]. split.
    + exists (evs ++ grading_events args n i task answer name data').
      cbn [after trace spawned]. rewrite Ht, <- app_assoc.
      split; [reflexivity |]. rewrite List.filter_app, length_app.
      split; [| congruence]. unfold grading_events.
      destruct (positive (j_pause args) && (Z.of_nat i <? Z.of_nat n - 1));
        cbn; lia.
    + apply Hstore. exists task, answer. split; [exact Hj |]. rewrite Hk.
      now exists score_data.
Qed.

Lemma select_results_filter task_ids files sel :
  select_results task_ids files = Ok sel ->
  sel = List.filter (fun f => selects task_ids (snd f)) files.
Proof.
  revert sel; induction files as [|[name data] files IH]; intros sel Hs.
  - now inversion Hs.
  - cbn [select_results] in Hs.
    destruct (selected task_ids data) as [keep|] eqn:Hk; [| discriminate].
    cbn [res_bind] in Hs.
    destruct (select_results task_ids files) as [rest|]; [| discriminate].
    cbn [res_bind] in Hs. inversion Hs; subst. cbn [List.filter snd].
    rewrite <- (IH rest eq_refl).
    assert (Hkeep : selects task_ids data = keep).
    { unfold selected in Hk. unfold selects.
      destruct (Py.has "error" data); [now inversion Hk |]. cbn [negb andb].
      destruct task_ids as [|t0 ids]; [now inversion Hk |].
      destruct (Py.lookup "task_id" data) as [[| | | |t| |]|];
        now inversion Hk. }
    now rewrite Hkeep.
Qed.

(** The whole loop of the judge's [main] over the selected results. *)
Lemma judge_loop_pass tasks args n (w0 : world) items :
  (forall i name data, In (i, (name, data)) items ->
     cells w0 !! name = Some data /\ Py.has "error" data = false) ->
  forall total w r w',
    judge_pass tasks args w0 w ->
    for_each (judge_record tasks args n) items total w = (r, w') ->
    judge_pass tasks args w0 w'
    /\ (j_keywords_only args = true -> forall x, r = Ok x -> x = total).
Proof.
  intros Hitems total w r w' Hp Hr.
  assert (Hgoal : match for_each (judge_record tasks args n) items total w with
                  | (Ok s', w') => judge_pass tasks args w0 w'
                                   /\ (j_keywords_only args = true -> s' = total)
                  | (Raise _, w') => judge_pass tasks args w0 w'
                  end).
  { apply (for_each_invariant
             (fun s w => judge_pass tasks args w0 w
                         /\ (j_keywords_only args = true -> s = total))
             (fun w => judge_pass tasks args w0 w));
      [| split; [exact Hp | reflexivity]].
    intros s [i [name data]] w1 Hin [Hp1 Hs1].
    destruct (Hitems i name data Hin) as [Hd He].
    destruct (judge_record tasks args n s (i, (name, data)) w1) as [r1 w1'] eqn:Hr1.
    apply judge_record_step in Hr1.
    destruct (judge_pass_step _ _ _ _ _ _ _ _ _ _ _ Hd He Hp1 Hr1) as [Hp' Hx].
    destruct r1 as [s' | e]; [| exact Hp'].
    split; [exact Hp' |]. intros Hk. rewrite (Hx Hk s' eq_refl). now apply Hs1. }
  rewrite Hr in Hgoal.
  destruct r as [s' | e].
  - destruct Hgoal as [Hg Hs]. split; [exact Hg |].
    intros Hk x [= <-]. now apply Hs.
  - split; [exact Hgoal | congruence].
Qed.

Lemma judge_main_pass catalogue args w r w' :
  judge_main catalogue args w = (r, w') ->
  judge_pass (judge_load_tasks catalogue) args w w'
  /\ (j_keywords_only args = true -> forall x, r = Ok (Some x) -> x = 0%Q).
Proof.
  unfold judge_main, judge_load_results, bind at 1.
  destruct (select_results (j_tasks args) (result_files w)) as [sel|] eqn:Hsel.
  2: { intros [= <- <-]. split; [apply judge_pass_refl | congruence]. }
  destruct sel as [|item sel].
  { intros [= <- <-]. split; [apply judge_pass_refl | congruence]. }
  set (results := item :: sel) in *. unfold bind.
  destruct (for_each (judge_record (judge_load_tasks catalogue) args (length results))
                     (enumerate results) 0%Q w) as [r1 w1] eqn:Hloop.
  assert (Hitems : forall i name data, In (i, (name, data)) (enumerate results) ->
            cells w !! name = Some data /\ Py.has "error" data = false).
  { intros i name data Hin. apply In_enumerate in Hin.
    rewrite (select_results_filter _ _ _ Hsel) in Hin.
    apply filter_In in Hin as [Hin Hs]. split; [now apply In_result_files |].
    unfold selects in Hs. cbn [snd] in Hs.
    apply andb_true_iff in Hs as [Hs _]. now apply negb_true_iff in Hs. }
  destruct (judge_loop_pass _ _ _ _ _ Hitems _ _ _ _ (judge_pass_refl _ _ w) Hloop)
    as [Hp Hx].
  destruct r1 as [total | e]; intros [= <- <-]; (split; [exact Hp |]).
  - intros Hk x [= <-]. now apply (Hx Hk).
  - congruence.
Qed.

Lemma rewritten_measurements tasks args data data' :
  rewritten tasks args data data' ->
  forall k, k ∉ judging_fields -> Py.lookup k data' = Py.lookup k data.
Proof.
  intros [task [answer [_ Hd]]] k Hk. unfold judging_fields in Hk.
  repeat (apply not_elem_of_cons in Hk as [? Hk]).
  assert (Hkw : Py.lookup k (with_keywords task answer data) = Py.lookup k data)
    by (unfold with_keywords; now rewrite !lookup_set_ne).
  destruct (j_keywords_only args); [now subst |].
  destruct Hd as [score_data ->]. unfold with_score.
  now rewrite !lookup_set_ne.
Qed.

Lemma rewritten_keywords_only tasks args data data' :
  j_keywords_only args = true ->
  rewritten tasks args data data' ->
  forall k, k ∈ ["quality_score"; "quality_reasoning"; "judge_cost_usd"] ->
    Py.lookup k data' = Py.lookup k data.
Proof.
  intros Hk [task [answer [_ Hd]]] k Hin. rewrite Hk in Hd. subst data'.
  unfold with_keywords.
  repeat (apply elem_of_cons in Hin as [-> | Hin];
          [now rewrite !lookup_set_ne by discriminate |]).
  now apply elem_of_nil in Hin.
Qed.

Lemma rewritten_keyword_fields tasks args data data' :
  rewritten tasks args data data' ->
  exists task answer,
    judgeable tasks data task answer
    /\ let hits := count_keyword_hits answer (expected_answer_keywords task) in
       Py.lookup "keyword_hits" data' = Some (JInt (Z.of_nat (fst hits)))
       /\ Py.lookup "keyword_total" data'
          = Some (JInt (Z.of_nat (length (expected_answer_keywords task))))
       /\ Py.lookup "keyword_list" data' = Some (JArr (map JStr (snd hits))).
Proof.
  intros [task [answer [Hj Hd]]]. exists task, answer. split; [exact Hj |].
  assert (Hkw : forall d,
            (forall k, In k ["keyword_hits"; "keyword_total"; "keyword_list"] ->
               Py.lookup k d = Py.lookup k (with_keywords task answer data)) ->
            let hits := count_keyword_hits answer (expected_answer_keywords task) in
            Py.lookup "keyword_hits" d = Some (JInt (Z.of_nat (fst hits)))
            /\ Py.lookup "keyword_total" d
               = Some (JInt (Z.of_nat (length (expected_answer_keywords task))))
            /\ Py.lookup "keyword_list" d = Some (JArr (map JStr (snd hits)))).
  { intros d Hsame hits. rewrite !Hsame by (cbn; auto). unfold with_keywords.
    fold hits. split; [| split].
    - now rewrite !lookup_set_ne, lookup_set_eq by discriminate.
    - now rewrite !lookup_set_ne, lookup_set_eq by discriminate.
    - now rewrite lookup_set_eq. }
  apply Hkw. intros k Hk.
  destruct (j_keywords_only args); [now subst |].
  destruct Hd as [score_data ->]. unfold with_score.
  cbn in Hk. destruct Hk as [<- | [<- | [<- | []]]];
    now rewrite !lookup_set_ne by discriminate.
Qed.

Lemma count_keyword_hits_sublist text keywords :
  fst (count_keyword_hits text keywords)
  = length (snd (count_keyword_hits text keywords))
  /\ sublist (snd (count_keyword_hits text keywords)) keywords.
Proof.
  pose proof ci_substring_dec as dec.
  rewrite (@count_keyword_hits_filter text keywords (fun kw => dec kw text)).
  split; [reflexivity | apply sublist_filter].
Qed.

Lemma load_tasks_lookup catalogue t task :
  judge_load_tasks catalogue !! t = Some task -> In task catalogue /\ id task = t.
Proof.
  unfold judge_load_tasks.
  assert (Hgen : forall (m : gmap string Task),
            fold_left (fun m t => <[id t := t]> m) catalogue m !! t = Some task ->
            (In task catalogue /\ id task = t) \/ m !! t = Some task).
  { induction catalogue as [|t0 catalogue IH]; intros m Hm; [now right |].
    cbn [fold_left] in Hm. destruct (IH _ Hm) as [[Hin Hid] | Hl].
    - left. split; [now right | exact Hid].
    - apply lookup_insert_Some in Hl as [[Hid Heq] | [_ Hl]].
      + left. subst. split; [now left | reflexivity].
      + now right. }
  intros Hl. destruct (Hgen ∅ Hl) as [Hin | Hl']; [exact Hin |].
  rewrite lookup_empty in Hl'. discriminate.
Qed.

Lemma find_task_known tasks data task :
  find_task tasks data = Ok (Some task) ->
  exists t, Py.lookup "task_id" data = Some (JStr t) /\ tasks !! t = Some task.
Proof.
  unfold find_task.
  destruct (Py.lookup "task_id" data) as [[| | | |t| |]|]; try discriminate.
  intros [= Ht]. eauto.
Qed.

End JudgeLoop.

(** X4. Whatever a run of the judge's [main] returns or raises, it leaves the
    combined file alone, creates and deletes no result file, leaves every
    failure record as it is, and changes in a success record the six
    judging fields only; the external calls it makes are the spawn events
    it adds to the trace. *)
Theorem judge_pass_rewrites_only_judging_fields `{PyLib}
    (catalogue : list Task) (args : JudgeArgs) (w : world)
    (r : res (option Q)) (w' : world) :
  judge_main catalogue args w = (r, w') ->
  script w' = script w
  /\ combined w' = combined w
  /\ (exists evs, trace w' = trace w ++ evs
        /\ spawned w' = (spawned w + length (List.filter is_spawn evs))%nat)
  /\ forall name,
       match cells w !! name, cells w' !! name with
       | Some d, Some d' =>
           (Py.has "error" d = true -> d' = d)
           /\ forall k, k ∉ judging_fields -> Py.lookup k d' = Py.lookup k d
       | None, None => True
       | _, _ => False
       end.
Proof.
  intros Hr. apply judge_main_pass in Hr as [[Hs [Hc [[evs [Ht [Hn _]]] Hst]]] _].
  split; [exact Hs |]. split; [exact Hc |]. split; [eauto |].
  intros name. destruct (Hst name) as [-> | [d [d' [Hd [He [-> Hrw]]]]]].
  - destruct (cells w !! name); auto.
  - rewrite Hd. split; [congruence |]. now apply (rewritten_measurements _ _ _ _ Hrw).
Qed.

(** X4 on a store with one success record and one failure record: the pass
    makes one external call and the conclusions hold of its outcome. *)
Lemma judge_pass_rewrites_only_judging_fields_witness :
  let name := "T1_baseline_run1.json" in
  let w := example_world
             [ (name, example_record []);
               ("T1_baseline_run2.json", failure example_task "baseline" 2 "timeout") ]
             [prints (text "{'result': '{\'score\': 8, \'reasoning\': \'ok\'}'}")] in
  let out := @judge_main example_lib [example_task] (judge_args false false) w in
  spawned (snd out) = 1%nat
  /\ combined (snd out) = combined w
  /\ forall name,
       match cells w !! name, cells (snd out) !! name with
       | Some d, Some d' =>
           (Py.has "error" d = true -> d' = d)
           /\ forall k, k ∉ judging_fields -> Py.lookup k d' = Py.lookup k d
       | None, None => True
       | _, _ => False
       end.
Proof.
  intros name w out. split; [vm_compute; reflexivity |].
  destruct (@judge_pass_rewrites_only_judging_fields example_lib [example_task]
              (judge_args false false) w (fst out) (snd out))
    as [_ [Hc [_ Hst]]]; [apply surjective_pairing |].
  split; [exact Hc | exact Hst].
Defined.

(** X5. With [--keywords-only], the judge's [main] makes no external call and
    does not sleep: the events it adds are writes of result files, the
    judging cost it reports is 0, and the quality score, the reasoning and
    the judging cost of every stored record are as they were. *)
Theorem keywords_only_pass_makes_no_call `{PyLib}
    (catalogue : list Task) (args : JudgeArgs) (w : world)
    (r : res (option Q)) (w' : world) :
  j_keywords_only args = true ->
  judge_main catalogue args w = (r, w') ->
  spawned w' = spawned w
  /\ (exists evs, trace w' = trace w ++ evs /\ forallb is_write evs = true)
  /\ (forall total, r = Ok (Some total) -> total = 0%Q)
  /\ forall name d d',
       cells w !! name = Some d -> cells w' !! name = Some d' ->
       forall k, k ∈ ["quality_score"; "quality_reasoning"; "judge_cost_usd"] ->
         Py.lookup k d' = Py.lookup k d.
Proof.
  intros Hk Hr.
  apply judge_main_pass in Hr as [[Hs [Hc [[evs [Ht [Hn Hw]]] Hst]]] Htot].
  specialize (Hw Hk).
  assert (Hnone : List.filter is_spawn evs = []).
  { clear -Hw. induction evs as [|e evs IH]; [reflexivity |].
    cbn in Hw. apply andb_true_iff in Hw as [He Hw].
    destruct e; try discriminate He. cbn. now apply IH. }
  rewrite Hnone in Hn. cbn in Hn. rewrite Nat.add_0_r in Hn.
  split; [exact Hn |]. split; [eauto |]. split; [now apply Htot |].
  intros name d d' Hd Hd' k Hin.
  destruct (Hst name) as [Heq | [d0 [d0' [Hd0 [_ [Hd0' Hrw]]]]]].
  - rewrite Hd, Hd' in Heq. now inversion Heq.
  - rewrite Hd in Hd0. rewrite Hd' in Hd0'. inversion Hd0; inversion Hd0'; subst.
    now apply (rewritten_keywords_only _ _ _ _ Hk Hrw).
Qed.

(** X5 on a record that holds the sentinel score: the pass writes the
    keyword count 2 and keeps the score -1. *)
Lemma keywords_only_pass_makes_no_call_witness :
  let name := "T1_baseline_run1.json" in
  let w := example_world
             [(name, example_record [("quality_score", JInt (-1))])] [] in
  let out := @judge_main example_lib [example_task] (judge_args false true) w in
  spawned (snd out) = spawned w
  /\ fst out = Ok (Some 0%Q)
  /\ (Py.lookup "keyword_hits" <$> cells (snd out) !! name) = Some (Some (JInt 2))
  /\ forall d', cells (snd out) !! name = Some d' ->
       Py.lookup "quality_score" d' = Some (JInt (-1)).
Proof.
  intros name w out.
  destruct (@keywords_only_pass_makes_no_call example_lib [example_task]
              (judge_args false true) w (fst out) (snd out))
    as [Hsp [_ [_ Hst]]]; [reflexivity | apply surjective_pairing |].
  split; [exact Hsp |]. split; [vm_compute; reflexivity |].
  split; [vm_compute; reflexivity |].
  intros d' Hd'.
  rewrite (Hst name (example_record [("quality_score", JInt (-1))]) d');
    [reflexivity | vm_compute; reflexivity | exact Hd' |].
  apply list_elem_of_In. now left.
Defined.

(** X6. Every result file that a run of the judge's [main] has changed holds
    the keyword fields of its task: a task of the catalogue with the
    record's task id, a hit list that is a sub-list of the task's expected
    keywords, the hit count equal to the length of that list, and the
    total equal to the number of expected keywords. *)
Theorem judged_records_carry_consistent_keyword_fields `{PyLib}
    (catalogue : list Task) (args : JudgeArgs) (w : world)
    (r : res (option Q)) (w' : world) (name : string) (d' : dict) :
  judge_main catalogue args w = (r, w') ->
  cells w' !! name = Some d' ->
  cells w !! name <> Some d' ->
  exists task hit_list,
    In task catalogue
    /\ Py.lookup "task_id" d' = Some (JStr (id task))
    /\ sublist hit_list (expected_answer_keywords task)
    /\ Py.lookup "keyword_list" d' = Some (JArr (map JStr hit_list))
    /\ Py.lookup "keyword_hits" d' = Some (JInt (Z.of_nat (length hit_list)))
    /\ Py.lookup "keyword_total" d'
       = Some (JInt (Z.of_nat (length (expected_answer_keywords task))))
    /\ (length hit_list <= length (expected_answer_keywords task))%nat.
Proof.
  intros Hr Hd' Hne.
  apply judge_main_pass in Hr as [[_ [_ [_ Hst]]] _].
  destruct (Hst name) as [Heq | [d0 [d0' [Hd0 [_ [Hd0' Hrw]]]]]];
    [congruence |].
  rewrite Hd' in Hd0'. inversion Hd0'; subst d0'.
  destruct (rewritten_keyword_fields _ _ _ _ Hrw)
    as [task [answer [[Hfind _] Hf]]].
  cbv zeta in Hf. destruct Hf as [Hh [Ht Hl]].
  apply find_task_known in Hfind as [t [Htid Htask]].
  apply load_tasks_lookup in Htask as [Hin Hid].
  destruct (count_keyword_hits_sublist answer (expected_answer_keywords task))
    as [Hlen Hsub].
  rewrite Hlen in Hh.
  exists task, (snd (count_keyword_hits answer (expected_answer_keywords task))).
  split; [exact Hin |]. split.
  { rewrite (rewritten_measurements _ _ _ _ Hrw), Htid, Hid; [reflexivity |].
    intros Hk. unfold judging_fields in Hk.
    repeat (apply elem_of_cons in Hk as [Hk | Hk]; [discriminate |]).
    now apply elem_of_nil in Hk. }
  split; [exact Hsub |]. split; [exact Hl |]. split; [exact Hh |].
  split; [exact Ht |]. now apply sublist_length.
Qed.

(** X6 on the example record in keywords-only mode: the file is rewritten
    with two hits. *)
Lemma judged_records_carry_consistent_keyword_fields_witness :
  let name := "T1_baseline_run1.json" in
  let w := example_world [(name, example_record [])] [] in
  let out := @judge_main example_lib [example_task] (judge_args false true) w in
  let d' := default [] (cells (snd out) !! name) in
  exists task hit_list,
    In task [example_task]
    /\ sublist hit_list (expected_answer_keywords task)
    /\ Py.lookup "keyword_list" d' = Some (JArr (map JStr hit_list))
    /\ Py.lookup "keyword_hits" d' = Some (JInt (Z.of_nat (length hit_list)))
    /\ Py.lookup "keyword_hits" d' = Some (JInt 2).
Proof.
  intros name w out d'.
  destruct (@judged_records_carry_consistent_keyword_fields example_lib
              [example_task] (judge_args false true) w (fst out) (snd out) name d')
    as [task [hit_list [Hin [_ [Hsub [Hl [Hh _]]]]]]].
  - apply surjective_pairing.
  - vm_compute. reflexivity.
  - intros Heq. vm_compute in Heq. discriminate Heq.
  - exists task, hit_list. split; [exact Hin |]. split; [exact Hsub |].
    split; [exact Hl |]. split; [exact Hh |]. vm_compute. reflexivity.
Defined.


Section Grading.
Context `{PyLib}.

Lemma judge_failure_sentinel p reason :
  judge_failure p = Some reason -> judge_result p = Ok (sentinel reason).
Proof.
  unfold judge_failure, judge_result.
  destruct p as [|returncode stdout stderr]; [now intros [= <-] |].
  fold (process_failed returncode stdout).
  destruct (process_failed returncode stdout); [now intros [= <-] |].
  destruct (json_loads stdout); [discriminate | now intros [= <-]].
Qed.

Lemma select_results_nil files :
  select_results [] files
  = Ok (List.filter (fun f : string * dict => negb (Py.has "error" (snd f))) files).
Proof.
  induction files as [|[name data] files IH]; [reflexivity |].
  cbn [select_results List.filter snd]. rewrite IH. unfold selected.
  destruct (Py.has "error" data); reflexivity.
Qed.

Lemma select_results_raises task_ids files e :
  select_results task_ids files = Raise e ->
  e = KeyError /\ task_ids <> []
  /\ exists name data,
       In (name, data) files
       /\ Py.has "error" data = false /\ Py.lookup "task_id" data = None.
Proof.
  induction files as [|[name data] files IH]; [discriminate |].
  cbn [select_results].
  destruct (selected task_ids data) as [keep|e0] eqn:Hk; cbn [res_bind].
  - destruct (select_results task_ids files) as [rest|e1]; [discriminate |].
    cbn [res_bind]. intros [= <-].
    destruct (IH eq_refl) as [He [Hne [n [d [Hin Hd]]]]].
    split; [exact He |]. split; [exact Hne |]. exists n, d.
    split; [now right | exact Hd].
  - intros [= <-]. unfold selected in Hk.
    destruct (Py.has "error" data) eqn:Herr; [discriminate |].
    destruct task_ids as [|t0 ids]; [discriminate |].
    destruct (Py.lookup "task_id" data) as [[| | | |t| |]|] eqn:Ht;
      try discriminate.
    inversion Hk; subst. split; [reflexivity |]. split; [discriminate |].
    exists name, data. split; [now left | auto].
Qed.

Lemma judge_main_nothing_to_judge catalogue args w :
  (forall name data, cells w !! name = Some data -> Py.has "error" data = true) ->
  judge_main catalogue args w = (Ok None, w).
Proof.
  intros Hall. unfold judge_main, judge_load_results, bind at 1.
  assert (Hsel : select_results (j_tasks args) (result_files w) = Ok []).
  { assert (Hfiles : forall name data, In (name, data) (result_files w) ->
              Py.has "error" data = true).
    { intros name data Hin. apply (Hall name). now apply In_result_files. }
    induction (result_files w) as [|[name data] files IH]; [reflexivity |].
    cbn [select_results]. unfold selected.
    rewrite (Hfiles name data (or_introl eq_refl)). cbn [res_bind].
    rewrite IH; [reflexivity |]. intros n d Hin. apply (Hfiles n d). now right. }
  now rewrite Hsel.
Qed.

End Grading.

(** X7. Outside keywords-only mode, a record of a known task with a non-empty
    answer is graded by exactly one external call whenever [force] is set,
    or the record has no quality score, or its stored score is a negative
    number: a stored sentinel never blocks judging.  When the call yields
    score data with a numeric cost, the cost is added to the total and the
    record is written back with the new score. *)
Theorem unscored_record_is_graded `{PyLib}
    (tasks : gmap string Task) (args : JudgeArgs) (n : nat) (total : Q)
    (i : nat) (name : string) (data : dict) (task : Task) (answer : string)
    (w : world) :
  j_keywords_only args = false ->
  needs_judging args data ->
  judgeable tasks data task answer ->
  exists r w',
    judge_record tasks args n total (i, (name, data)) w = (r, w')
    /\ spawned w' = S (spawned w)
    /\ (exists rest,
          trace w' = trace w
            ++ EvSpawn (judge_cmd task answer (j_model args)) 120 :: rest)
    /\ forall score_data c,
         judge_result (outcome (script w (spawned w))) = Ok score_data ->
         Py.number (Py.get "judge_cost_usd" (JInt 0) score_data) = Some c ->
         r = Ok (total + c)%Q
         /\ cells w'
            = <[name := with_score score_data (with_keywords task answer data)]>
                (cells w).
Proof.
  intros Hk Hn [Ht [Ha Hne]].
  rewrite (judge_record_judges _ _ _ _ _ _ _ task answer) by assumption.
  destruct (judge_result (outcome (script w (spawned w)))) as [score_data | e].
  - cbv zeta.
    destruct (Py.number (Py.get "judge_cost_usd" (JInt 0) score_data)) as [c|] eqn:Hc.
    + eexists _, _. split; [reflexivity |]. cbn [after spawned trace cells].
      split; [lia |]. split; [unfold grading_events; eauto |].
      intros sd c' [= <-] Hc'. rewrite Hc in Hc'. inversion Hc'; subst. auto.
    + eexists _, _. split; [reflexivity |]. cbn [called spawned trace].
      split; [reflexivity |]. split; [now exists [] |].
      intros sd c' [= <-] Hc'. rewrite Hc in Hc'. discriminate.
  - eexists _, _. split; [reflexivity |]. cbn [called spawned trace].
    split; [reflexivity |]. split; [now exists [] |]. discriminate.
Qed.

(** X7 on a record holding the sentinel -1, without [force]: the judge is
    called and its score 8 is written back. *)
Lemma unscored_record_is_graded_witness :
  let failed := example_record [("quality_score", JInt (-1))] in
  let name := "T1_baseline_run1.json" in
  let w := example_world [(name, failed)]
             [prints (text "{'result': '{\'score\': 8, \'reasoning\': \'ok\'}'}")] in
  exists r w',
    @judge_record example_lib (judge_load_tasks [example_task])
       (judge_args false false) 1 0%Q (0%nat, (name, failed)) w = (r, w')
    /\ spawned w' = 1%nat
    /\ r = Ok (0 + 0)%Q
    /\ exists data',
         cells w' = <[name := data']> (cells w)
         /\ Py.lookup "quality_score" data' = Some (JInt 8).
Proof.
  intros failed name w.
  destruct (@unscored_record_is_graded example_lib
              (judge_load_tasks [example_task]) (judge_args false false)
              1%nat 0%Q 0%nat name failed example_task
              "uses a retry strategy with a QUEUE" w)
    as [r [w' [Hrun [Hsp [_ Hsc]]]]].
  - reflexivity.
  - right. right. exists (JInt (-1)), (-1)%Q. repeat split.
  - split; [reflexivity |]. split; [reflexivity | discriminate].
  - exists r, w'. split; [exact Hrun |]. split; [exact Hsp |].
    destruct (Hsc [("score", JInt 8); ("reasoning", JStr "ok");
                   ("judge_cost_usd", JInt 0)] 0%Q) as [Hr Hc];
      [reflexivity | reflexivity |].
    split; [exact Hr |]. eexists. split; [exact Hc | reflexivity].
Defined.

(** X8. When the judge's external call times out, or exits with a non-zero
    status and blank output, or prints something that does not decode, the
    record is still written back: with the quality score -1, the
    diagnostic as the reasoning and the judging cost 0, which leaves the
    total cost unchanged.  The record written needs judging again, whatever
    the options of the next pass. *)
Theorem failed_judge_call_is_stored_as_sentinel `{PyLib}
    (tasks : gmap string Task) (args : JudgeArgs) (n : nat) (total : Q)
    (i : nat) (name : string) (data : dict) (task : Task) (answer : string)
    (reason : string) (w : world) :
  j_keywords_only args = false ->
  needs_judging args data ->
  judgeable tasks data task answer ->
  judge_failure (outcome (script w (spawned w))) = Some reason ->
  exists data' w',
    judge_record tasks args n total (i, (name, data)) w = (Ok (total + 0)%Q, w')
    /\ spawned w' = S (spawned w)
    /\ cells w' = <[name := data']> (cells w)
    /\ Py.lookup "quality_score" data' = Some (JInt (-1))
    /\ Py.lookup "quality_reasoning" data' = Some (JStr reason)
    /\ Py.lookup "judge_cost_usd" data' = Some (JInt 0)
    /\ forall args', needs_judging args' data'.
Proof.
  intros Hk Hn [Ht [Ha Hne]] Hf.
  rewrite (judge_record_judges _ _ _ _ _ _ _ task answer) by assumption.
  rewrite (judge_failure_sentinel _ _ Hf). cbv zeta.
  change (Py.number (Py.get "judge_cost_usd" (JInt 0) (sentinel reason)))
    with (Some 0%Q).
  eexists _, _. split; [reflexivity |]. cbn [after spawned cells].
  split; [lia |]. split; [reflexivity |].
  assert (Hscore : Py.lookup "quality_score"
                     (with_score (sentinel reason) (with_keywords task answer data))
                   = Some (JInt (-1))).
  { unfold with_score. now rewrite !lookup_set_ne, lookup_set_eq by discriminate. }
  split; [exact Hscore |]. split.
  { unfold with_score. now rewrite !lookup_set_ne, lookup_set_eq by discriminate. }
  split.
  { unfold with_score. now rewrite lookup_set_eq. }
  intros args'. right. right. exists (JInt (-1)), (-1)%Q.
  split; [exact Hscore |]. split; reflexivity.
Qed.

(** X8 on a call that times out. *)
Lemma failed_judge_call_is_stored_as_sentinel_witness :
  let stored := example_record [] in
  let name := "T1_baseline_run1.json" in
  let w := example_world [(name, stored)] [] in
  exists data' w',
    @judge_record example_lib (judge_load_tasks [example_task])
       (judge_args false false) 1 0%Q (0%nat, (name, stored)) w
    = (Ok (0 + 0)%Q, w')
    /\ cells w' = <[name := data']> (cells w)
    /\ Py.lookup "quality_score" data' = Some (JInt (-1))
    /\ Py.lookup "quality_reasoning" data' = Some (JStr "Judge timed out").
Proof.
  intros stored name w.
  destruct (@failed_judge_call_is_stored_as_sentinel example_lib
              (judge_load_tasks [example_task]) (judge_args false false)
              1%nat 0%Q 0%nat name stored example_task
              "uses a retry strategy with a QUEUE" "Judge timed out" w)
    as [data' [w' [Hrun [_ [Hc [Hs [Hr _]]]]]]].
  - reflexivity.
  - right. left. reflexivity.
  - split; [reflexivity |]. split; [reflexivity | discriminate].
  - reflexivity.
  - exists data', w'. auto.
Defined.

(** X9. The judge's [load_results] keeps, in the order of the files, the
    records without an [error] entry whose task id is among the ids given;
    with no ids it keeps every record without an [error] entry and never
    raises.  It raises only [KeyError], only under a filter, on a record
    that has neither an [error] entry nor a task id.  A store that holds
    failure records only makes [main] exit with status 1 and no effect. *)
Theorem judge_selects_success_records_of_chosen_tasks :
  (forall task_ids files sel,
     select_results task_ids files = Ok sel ->
     sel = List.filter (fun f => selects task_ids (snd f)) files)
  /\ (forall files,
        select_results [] files
        = Ok (List.filter (fun f : string * dict => negb (Py.has "error" (snd f)))
                          files))
  /\ (forall task_ids files e,
        select_results task_ids files = Raise e ->
        e = KeyError /\ task_ids <> []
        /\ exists name data,
             In (name, data) files
             /\ Py.has "error" data = false /\ Py.lookup "task_id" data = None)
  /\ (forall (L : PyLib) catalogue args w,
        (forall name data, cells w !! name = Some data ->
           Py.has "error" data = true) ->
        judge_main catalogue args w = (Ok None, w)).
Proof.
  split; [exact select_results_filter |]. split; [exact select_results_nil |].
  split; [exact select_results_raises |].
  intros L. apply judge_main_nothing_to_judge.
Qed.

(** X10. The judge is blind to the condition: two records of the same task
    with the same answer text that both need judging are graded, whatever
    else they hold, by the same external command and get the same outcome,
    and when they are written back they get the same score, reasoning and
    judging cost. *)
Theorem judge_is_blind_to_the_condition `{PyLib}
    (tasks : gmap string Task) (args : JudgeArgs) (n : nat) (total : Q)
    (i : nat) (name1 name2 : string) (data1 data2 : dict) (task : Task)
    (answer : string) (w : world) :
  j_keywords_only args = false ->
  judgeable tasks data1 task answer ->
  judgeable tasks data2 task answer ->
  needs_judging args data1 ->
  needs_judging args data2 ->
  exists r w1 w2 evs,
    judge_record tasks args n total (i, (name1, data1)) w = (r, w1)
    /\ judge_record tasks args n total (i, (name2, data2)) w = (r, w2)
    /\ spawned w1 = spawned w2
    /\ trace w1 = trace w
         ++ EvSpawn (judge_cmd task answer (j_model args)) 120 :: evs
    /\ List.filter is_spawn (trace w1) = List.filter is_spawn (trace w2)
    /\ (forall x, r = Ok x ->
          exists d1 d2,
            cells w1 !! name1 = Some d1 /\ cells w2 !! name2 = Some d2
            /\ forall k, k ∈ ["quality_score"; "quality_reasoning"; "judge_cost_usd"] ->
                 Py.lookup k d1 = Py.lookup k d2).
Proof.
  intros Hk [Ht1 [Ha1 Hne]] [Ht2 [Ha2 _]] Hn1 Hn2.
  rewrite (judge_record_judges _ _ _ _ _ name1 data1 task answer) by assumption.
  rewrite (judge_record_judges _ _ _ _ _ name2 data2 task answer) by assumption.
  destruct (judge_result (outcome (script w (spawned w)))) as [score_data | e].
  - cbv zeta.
    destruct (Py.number (Py.get "judge_cost_usd" (JInt 0) score_data)) as [c|].
    + eexists _, _, _, _. split; [reflexivity |]. split; [reflexivity |].
      cbn [after spawned trace cells]. split; [reflexivity |].
      split; [unfold grading_events; reflexivity |]. split.
      * unfold grading_events. rewrite !List.filter_app. cbn [List.filter is_spawn].
        destruct (positive (j_pause args) && (Z.of_nat i <? Z.of_nat n - 1));
          reflexivity.
      * intros x _. eexists _, _. rewrite !lookup_insert_eq.
        split; [reflexivity |]. split; [reflexivity |].
        intros k Hin. unfold with_score.
        repeat (apply elem_of_cons in Hin as [-> | Hin];
                [repeat (first [ rewrite lookup_set_eq
                               | rewrite lookup_set_ne by discriminate ]);
                 reflexivity |]).
        now apply elem_of_nil in Hin.
    + eexists _, _, _, []. split; [reflexivity |]. split; [reflexivity |].
      cbn [called spawned trace]. repeat split. discriminate.
  - eexists _, _, _, []. split; [reflexivity |]. split; [reflexivity |].
    cbn [called spawned trace]. repeat split. discriminate.
Qed.

(** X10 on the same answer stored under the two conditions. *)
Lemma judge_is_blind_to_the_condition_witness :
  let stored1 := example_record [] in
  let stored2 :=
    [ ("task_id", JStr "T1"); ("condition", JStr "with-gnapsis");
      ("run_id", JInt 1);
      ("result_text", JStr "uses a retry strategy with a QUEUE") ] in
  let w := example_world []
             [prints (text "{'result': '{\'score\': 8, \'reasoning\': \'ok\'}'}")] in
  fst (@judge_record example_lib (judge_load_tasks [example_task])
         (judge_args false false) 2 0%Q (0%nat, ("T1_baseline_run1.json", stored1)) w)
  = fst (@judge_record example_lib (judge_load_tasks [example_task])
           (judge_args false false) 2 0%Q
           (0%nat, ("T1_with-gnapsis_run1.json", stored2)) w).
Proof.
  intros stored1 stored2 w.
  destruct (@judge_is_blind_to_the_condition example_lib
              (judge_load_tasks [example_task]) (judge_args false false)
              2%nat 0%Q 0%nat "T1_baseline_run1.json" "T1_with-gnapsis_run1.json"
              stored1 stored2 example_task "uses a retry strategy with a QUEUE" w)
    as [r [w1 [w2 [evs [H1 [H2 _]]]]]].
  - reflexivity.
  - split; [reflexivity |]. split; [reflexivity | discriminate].
  - split; [reflexivity |]. split; [reflexivity | discriminate].
  - right. left. reflexivity.
  - right. left. reflexivity.
  - now rewrite H1, H2.
Defined.


(** * Further properties of the orchestrator ([bench/run.py]) *)

Section Orchestrator.
Context `{PyLib}.

(** What [save_result] does to the world: it writes one document, or
    raises without any effect. *)
Lemma save_result_effect task condition run_id record w r w1 :
  save_result task condition run_id record w = (r, w1) ->
  script w1 = script w
  /\ spawned w1 = spawned w
  /\ combined w1 = combined w
  /\ (forall name, is_Some (cells w !! name) -> is_Some (cells w1 !! name))
  /\ match r with
     | Ok _ => exists name, trace w1 = trace w ++ [EvWrite name record]
     | Raise _ => trace w1 = trace w
     end.
Proof.
  unfold save_result.
  assert (Hwrite : forall name,
            write_cell name record w = (r, w1) ->
            script w1 = script w
            /\ spawned w1 = spawned w
            /\ combined w1 = combined w
            /\ (forall name, is_Some (cells w !! name) -> is_Some (cells w1 !! name))
            /\ match r with
               | Ok _ => exists name, trace w1 = trace w ++ [EvWrite name record]
               | Raise _ => trace w1 = trace w
               end).
  { intros name [= <- <-]. cbn. repeat split; eauto.
    intros name' Hn. apply lookup_insert_is_Some'. now right. }
  destruct (plain _); [apply Hwrite |].
  unfold bind, lift. destruct (locate _) as [[name|]|e].
  - apply Hwrite.
  - intros [= <- <-]. cbn. repeat split; eauto.
  - intros [= <- <-]. repeat split; auto.
Qed.

Lemma run_cell_unfold total model max_turns dry_run pause run_id task completed
    all condition w :
  run_cell total model max_turns dry_run pause run_id task (completed, all)
           condition w
  = match assoc condition CONDITIONS with
    | None => (Raise KeyError, w)
    | Some cfg =>
        if dry_run then (Ok (completed + 1, all), w)
        else
          match run_result task condition run_id model (script w (spawned w)) with
          | Raise e => (Raise e, launched w task cfg model max_turns)
          | Ok record =>
              match save_result task condition run_id record
                      (launched w task cfg model max_turns) with
              | (Raise e, w1) => (Raise e, w1)
              | (Ok _, w1) =>
                  match progress_line record with
                  | Raise e => (Raise e, w1)
                  | Ok _ =>
                      (Ok (completed + 1, all ++ [record]),
                       if positive pause && (completed + 1 <? total)
                       then {| script := script w1;
                               spawned := spawned w1;
                               cells := cells w1;
                               combined := combined w1;
                               trace := trace w1 ++ [EvSleep pause] |}
                       else w1)
                  end
              end
          end
    end.
Proof.
  destruct (assoc condition CONDITIONS) as [cfg|] eqn:Hc.
  - destruct dry_run.
    + unfold run_cell, bind.
      rewrite (run_task_dry_run _ _ _ _ _ cfg) by exact Hc. reflexivity.
    + unfold run_cell, run_task, bind, subprocess_run, lift, ret.
      rewrite Hc. cbn -[run_result run_cmd turn_budget save_result progress_line
                        positive].
      fold (launched w task cfg model max_turns).
      destruct (run_result task condition run_id model (script w (spawned w)))
        as [record | e]; [| reflexivity].
      destruct (save_result task condition run_id record
                  (launched w task cfg model max_turns)) as [[[]|e] w1];
        [| reflexivity].
      destruct (progress_line record) as [[]|e]; [| reflexivity].
      destruct (positive pause && (completed + 1 <? total)); reflexivity.
  - unfold run_cell, run_task, bind. now rewrite Hc.
Qed.

Lemma count_app kind evs1 evs2 :
  count kind (evs1 ++ evs2) = (count kind evs1 + count kind evs2)%nat.
Proof. unfold count. now rewrite List.filter_app, length_app. Qed.

Lemma written_app evs1 evs2 : written (evs1 ++ evs2) = written evs1 ++ written evs2.
Proof. unfold written. apply flat_map_app. Qed.

Lemma run_cells_pass total model max_turns dry_run pause cells0 :
  forall c all w r w',
    run_cells_loop total model max_turns dry_run pause cells0 (c, all) w = (r, w') ->
    batch_pass total dry_run pause cells0 c all w r w'.
Proof.
  induction cells0 as [|[[run_id task] condition] cells0 IH]; intros c all w r w'.
  { intros [= <- <-]. split; [reflexivity |]. split; [reflexivity |].
    split; [auto |]. exists []. rewrite !app_nil_r. cbn.
    repeat split; auto; lia. }
  unfold run_cells_loop. cbn [for_each]. unfold bind at 1.
  rewrite run_cell_unfold.
  destruct (assoc condition CONDITIONS) as [cfg|].
  2: { intros [= <- <-]. split; [reflexivity |]. split; [reflexivity |].
       split; [auto |]. exists []. rewrite !app_nil_r. cbn. repeat split; auto. }
  destruct dry_run.
  { intros Hr. apply (IH _ _ _ _ _) in Hr.
    destruct Hr as [Hs [Hc [Hf [evs [Ht [Hcomb [Hsp [Hsl [Hdry Hres]]]]]]]]].
    split; [exact Hs |]. split; [exact Hc |]. split; [exact Hf |].
    exists evs. repeat (split; [assumption |]).
    destruct r as [[c' all'] | e]; [| exact I].
    destruct Hres as [Hc' [Hall _]]. split; [cbn [length]; lia |].
    split; [exact Hall | discriminate]. }
  set (spawn := EvSpawn (run_cmd task cfg model (turn_budget task max_turns)) 600).
  destruct (run_result task condition run_id model (script w (spawned w)))
    as [record | e].
  2: { intros [= <- <-]. split; [reflexivity |]. split; [reflexivity |].
       split; [auto |]. exists [spawn].
       cbn. repeat split; auto; try lia; discriminate. }
  destruct (save_result task condition run_id record
              (launched w task cfg model max_turns)) as [rs w1] eqn:Hsave.
  apply save_result_effect in Hsave as [Hs1 [Hsp1 [Hc1 [Hf1 Ht1]]]].
  cbn [launched script spawned combined cells trace] in Hs1, Hsp1, Hc1, Hf1, Ht1.
  fold spawn in Ht1.
  destruct rs as [[]|e].
  2: { intros [= <- <-]. split; [exact Hs1 |]. split; [exact Hc1 |].
       split; [exact Hf1 |]. exists [spawn]. rewrite Ht1, Hsp1.
       cbn. repeat split; auto; try lia; discriminate. }
  destruct Ht1 as [name Ht1].
  destruct (progress_line record) as [[]|e].
  2: { intros [= <- <-]. split; [exact Hs1 |]. split; [exact Hc1 |].
       split; [exact Hf1 |]. exists [spawn; EvWrite name record].
       rewrite Ht1, Hsp1, <- app_assoc.
       cbn. repeat split; auto; try lia; discriminate. }
  set (pausing := positive pause && (c + 1 <? total)).
  set (w2 := if pausing then _ else w1).
  assert (Hw2 : script w2 = script w1 /\ spawned w2 = spawned w1
                /\ cells w2 = cells w1 /\ combined w2 = combined w1
                /\ trace w2 = trace w1 ++ (if pausing then [EvSleep pause] else [])).
  { unfold w2. destruct pausing; cbn; rewrite ?app_nil_r; auto. }
  destruct Hw2 as [Hs2 [Hsp2 [Hcl2 [Hc2 Ht2]]]].
  intros Hr. apply (IH _ _ _ _ _) in Hr.
  destruct Hr as [Hs [Hc [Hf [evs [Ht [Hcomb [Hsp [Hsl [Hdry Hres]]]]]]]]].
  rewrite Hs2, Hs1 in Hs. rewrite Hc2, Hc1 in Hc. rewrite Hcl2 in Hf.
  rewrite Ht2, Ht1 in Ht. rewrite Hsp2, Hsp1 in Hsp.
  split; [exact Hs |]. split; [exact Hc |]. split; [auto |].
  exists (spawn :: EvWrite name record
          :: (if pausing then [EvSleep pause] else []) ++ evs).
  split. { rewrite Ht, <- !app_assoc. reflexivity. }
  unfold pausing in *.
  destruct (positive pause && (c + 1 <? total)) eqn:Hp.
  - cbn [app]. change (spawn :: EvWrite name record :: EvSleep pause :: evs)
      with ([spawn; EvWrite name record; EvSleep pause] ++ evs).
    rewrite !count_app, !written_app. cbn.
    split; [exact Hcomb |]. split; [lia |].
    split. { intros Hpp. rewrite Hpp in Hp. discriminate Hp. }
    split; [discriminate |].
    destruct r as [[c' all'] | e]; [| exact I].
    destruct Hres as [Hc' [Hall Hnd]]. specialize (Hnd eq_refl).
    destruct Hnd as [Hlen [Hspn Hslp]].
    split; [lia |]. split; [now rewrite Hall, <- app_assoc |].
    intros _. split; [lia |]. split; [lia |]. intros Hpp. specialize (Hslp Hpp).
    apply andb_true_iff in Hp as [_ Hlt]. apply Z.ltb_lt in Hlt. lia.
  - cbn [app]. change (spawn :: EvWrite name record :: evs)
      with ([spawn; EvWrite name record] ++ evs).
    rewrite !count_app, !written_app. cbn.
    split; [exact Hcomb |]. split; [lia |].
    split. { intros Hpp. now rewrite (Hsl Hpp). }
    split; [discriminate |].
    destruct r as [[c' all'] | e]; [| exact I].
    destruct Hres as [Hc' [Hall Hnd]]. specialize (Hnd eq_refl).
    destruct Hnd as [Hlen [Hspn Hslp]].
    split; [lia |]. split; [now rewrite Hall, <- app_assoc |].
    intros _. split; [lia |]. split; [lia |]. intros Hpp. specialize (Hslp Hpp).
    rewrite Hpp in Hp. cbn [andb] in Hp. apply Z.ltb_ge in Hp. lia.
Qed.

End Orchestrator.

Section Batches.
Context `{PyLib}.

Lemma run_benchmark_loop tasks num_runs conditions model max_turns dry_run pause w :
  run_benchmark tasks num_runs conditions model max_turns dry_run pause w
  = let total :=
      num_runs * Z.of_nat (length tasks) * Z.of_nat (length conditions) in
    match run_cells_loop total model max_turns dry_run pause
            (matrix tasks num_runs conditions) (0, []) w with
    | (Ok (_, []), w') => (Ok [], w')
    | (Ok (_, all_results), w') =>
        (Ok all_results,
         {| script := script w'; spawned := spawned w'; cells := cells w';
            combined := Some all_results;
            trace := trace w' ++ [EvWriteCombined all_results] |})
    | (Raise e, w') => (Raise e, w')
    end.
Proof.
  unfold run_benchmark, run_cells_loop. cbv zeta. unfold bind at 1.
  rewrite nested_loops_matrix.
  destruct (for_each _ (matrix tasks num_runs conditions) (0, []) w)
    as [[[c all] | e] w']; [| reflexivity].
  destruct all; reflexivity.
Qed.

Lemma length_flat_map_const {A B} (f : A -> list B) (l : list A) (k : nat) :
  (forall x, length (f x) = k) -> length (flat_map f l) = (length l * k)%nat.
Proof.
  intros Hk. induction l as [|x l IH]; [reflexivity |].
  cbn [flat_map length]. rewrite length_app, Hk, IH. lia.
Qed.

Lemma length_matrix tasks num_runs conditions :
  0 <= num_runs ->
  Z.of_nat (length (matrix tasks num_runs conditions))
  = num_runs * Z.of_nat (length tasks) * Z.of_nat (length conditions).
Proof.
  intros Hn. unfold matrix.
  rewrite (length_flat_map_const _ _ (length tasks * length conditions)%nat).
  - unfold run_ids. rewrite length_map, length_seq. lia.
  - intros run_id. apply length_flat_map_const. intros task. apply length_map.
Qed.

(** With [dry_run], the loop over the cells changes nothing: it ends at the
    first unknown condition, if there is one. *)
Lemma dry_run_loop total model max_turns pause cells0 :
  forall c all w,
    run_cells_loop total model max_turns true pause cells0 (c, all) w
    = (if forallb (fun cell : cell => known (snd cell)) cells0
       then Ok (c + Z.of_nat (length cells0), all)
       else Raise KeyError, w).
Proof.
  induction cells0 as [|[[run_id task] condition] cells0 IH]; intros c all w.
  - cbn. now rewrite Z.add_0_r.
  - unfold run_cells_loop. cbn [for_each]. unfold bind at 1.
    rewrite run_cell_unfold. cbn [forallb snd]. unfold known at 1.
    destruct (assoc condition CONDITIONS); [| reflexivity].
    cbn [andb]. specialize (IH (c + 1) all w). unfold run_cells_loop in IH.
    rewrite IH. destruct (forallb _ cells0); [| reflexivity].
    assert (E : forall k : nat, c + 1 + Z.of_nat k = c + Z.of_nat (S k))
      by (intros; lia).
    now rewrite E.
Qed.

End Batches.

Section Records.
Context `{PyLib}.

(** A record [run_task] returns carries the identity of its cell; it has an
    [error] entry exactly when it is a failure record. *)
Lemma run_result_identity task condition run_id model inv record :
  run_result task condition run_id model inv = Ok record ->
  Py.lookup "task_id" record = Some (JStr (id task))
  /\ Py.lookup "condition" record = Some (JStr condition)
  /\ Py.lookup "run_id" record = Some (JInt run_id)
  /\ Py.has "error" record = run_failed inv.
Proof.
  unfold run_result, run_failed.
  destruct (outcome inv) as [|returncode stdout stderr];
    [intros [= <-]; repeat split |].
  fold (process_failed returncode stdout).
  destruct (process_failed returncode stdout); [intros [= <-]; repeat split |].
  destruct (json_loads stdout) as [response|]; [| intros [= <-]; repeat split].
  cbn [orb]. unfold success.
  destruct response as [| | | | | |envelope]; try discriminate.
  cbn [Py.get_attr res_bind].
  destruct (Py.get "usage" (JObj []) envelope) as [| | | | | |usage];
    try discriminate.
  cbn [Py.get_attr res_bind]. intros [= <-]. repeat split.
Qed.

End Records.

(** X11. A dry run of [run_benchmark] over known conditions makes no external
    call, writes no result file and no combined file, does not sleep, and
    returns no record: the world is left as it was. *)
Theorem dry_run_spawns_and_writes_nothing `{PyLib}
    (tasks : list Task) (num_runs : Z) (conditions : list string)
    (model : string) (max_turns : option Z) (pause : Q) (w : world) :
  (forall c, In c conditions -> is_Some (assoc c CONDITIONS)) ->
  run_benchmark tasks num_runs conditions model max_turns true pause w
  = (Ok [], w).
Proof.
  intros Hknown. rewrite run_benchmark_loop. cbv zeta. rewrite dry_run_loop.
  assert (Hall : forallb (fun cell : cell => known (snd cell))
                         (matrix tasks num_runs conditions) = true).
  { apply forallb_forall. intros [[run_id task] condition] Hin.
    apply matrix_conditions in Hin as [_ [_ Hc]].
    unfold known. cbn [snd]. now destruct (Hknown _ Hc) as [cfg ->]. }
  now rewrite Hall.
Qed.

(** X11 on one task, the two conditions and two repetitions. *)
Lemma dry_run_spawns_and_writes_nothing_witness :
  let w := example_world [] [] in
  @run_benchmark example_lib [example_task] 2 ["baseline"; "with-gnapsis"]
                 "sonnet" None true 3 w
  = (Ok [], w).
Proof.
  intros w. apply (@dry_run_spawns_and_writes_nothing example_lib).
  intros c [<- | [<- | []]]; eexists; reflexivity.
Defined.

(** X12. [run_task] looks the condition up before anything else, so a condition
    that is not in [CONDITIONS] raises [KeyError] without any effect, also
    in a dry run.  A dry run of a non-empty batch that names such a
    condition anywhere raises [KeyError], and so does any batch whose first
    condition is unknown, before its first external call. *)
Theorem unknown_condition_raises_key_error `{PyLib} :
  (forall task condition run_id model max_turns dry_run w,
     assoc condition CONDITIONS = None ->
     run_task task condition run_id model max_turns dry_run w
     = (Raise KeyError, w))
  /\ (forall tasks num_runs conditions model max_turns pause w c,
        tasks <> [] -> 1 <= num_runs ->
        In c conditions -> assoc c CONDITIONS = None ->
        run_benchmark tasks num_runs conditions model max_turns true pause w
        = (Raise KeyError, w))
  /\ (forall task tasks num_runs c conditions model max_turns dry_run pause w,
        1 <= num_runs ->
        assoc c CONDITIONS = None ->
        run_benchmark (task :: tasks) num_runs (c :: conditions) model
                      max_turns dry_run pause w
        = (Raise KeyError, w)).
Proof.
  split; [| split].
  - intros task condition run_id model max_turns dry_run w Hc.
    unfold run_task. now rewrite Hc.
  - intros tasks num_runs conditions model max_turns pause w c Ht Hn Hin Hc.
    rewrite run_benchmark_loop. cbv zeta. rewrite dry_run_loop.
    destruct tasks as [|task tasks]; [contradiction |].
    assert (Hall : forallb (fun cell : cell => known (snd cell))
                           (matrix (task :: tasks) num_runs conditions) = false).
    { apply not_true_is_false. intros Hall.
      assert (Hcell : In (1, task, c) (matrix (task :: tasks) num_runs conditions)).
      { apply In_matrix. split; [lia |]. split; [now left | exact Hin]. }
      pose proof (proj1 (forallb_forall _ _) Hall _ Hcell) as Hk.
      unfold known in Hk. cbn [snd] in Hk. now rewrite Hc in Hk. }
    now rewrite Hall.
  - intros task tasks num_runs c conditions model max_turns dry_run pause w Hn Hc.
    rewrite run_benchmark_loop. cbv zeta.
    assert (Hm : exists rest,
               matrix (task :: tasks) num_runs (c :: conditions)
               = (1, task, c) :: rest).
    { unfold matrix, run_ids.
      destruct (Z.to_nat num_runs) as [|k] eqn:Hk; [lia |].
      cbn [seq map flat_map app]. eauto. }
    destruct Hm as [rest ->].
    unfold run_cells_loop. cbn [for_each]. unfold bind at 1.
    rewrite run_cell_unfold, Hc. reflexivity.
Qed.

(** X14. Every record [run_task] returns carries the task id, the condition
    and the run id of its cell, and has an [error] entry exactly when the
    external call failed (timeout, process failure or undecodable output).
    So the aggregator groups it under its cell's task and condition, the
    judge looks its task up by the cell's task id, and the judge's filter
    keeps it exactly when it is a success record of a chosen task. *)
Theorem records_carry_cell_identity_and_failures_an_error `{PyLib}
    (task : Task) (condition : string) (run_id : Z) (model : string)
    (inv : invocation) (record : dict) :
  run_result task condition run_id model inv = Ok record ->
  Py.lookup "task_id" record = Some (JStr (id task))
  /\ Py.lookup "condition" record = Some (JStr condition)
  /\ Py.lookup "run_id" record = Some (JInt run_id)
  /\ Py.has "error" record = run_failed inv
  /\ group_key record = Ok (id task, condition)
  /\ (forall tasks, find_task tasks record = Ok (tasks !! id task))
  /\ (forall task_ids,
        selected task_ids record
        = Ok (negb (run_failed inv)
              && match task_ids with
                 | [] => true
                 | _ => bool_decide (id task ∈ task_ids)
                 end)).
Proof.
  intros Hr. destruct (run_result_identity _ _ _ _ _ _ Hr) as [Ht [Hc [Hi He]]].
  split; [exact Ht |]. split; [exact Hc |]. split; [exact Hi |].
  split; [exact He |]. split; [| split].
  - unfold group_key. now rewrite Ht, Hc.
  - intros tasks. unfold find_task. now rewrite Ht.
  - intros task_ids. unfold selected. rewrite He, Ht.
    destruct (run_failed inv); [reflexivity |].
    destruct task_ids; reflexivity.
Qed.

(** X14 on a call that times out. *)
Lemma records_carry_cell_identity_and_failures_an_error_witness :
  let inv := Invocation TimeoutExpired 600 in
  let record := failure example_task "with-gnapsis" 2 "timeout" in
  Py.lookup "run_id" record = Some (JInt 2)
  /\ Py.has "error" record = true
  /\ group_key record = Ok ("T1", "with-gnapsis")
  /\ selected ["T1"; "T2"] record = Ok false.
Proof.
  intros inv record.
  destruct (@records_carry_cell_identity_and_failures_an_error example_lib
              example_task "with-gnapsis" 2 "sonnet" inv record)
    as [_ [_ [Hi [He [Hg [_ Hs]]]]]]; [reflexivity |].
  split; [exact Hi |]. split; [exact He |]. split; [exact Hg |].
  exact (Hs ["T1"; "T2"]).
Defined.

(** X15. [run_benchmark] writes the combined file once, after the last cell,
    and only when there is a record: a batch that ends normally with records
    leaves them in the combined file, and they are the documents written to
    the per-cell files, in order; a batch that raises, or that returns no
    record, leaves the combined file as it was.  In every case the result
    files that existed still exist, and the external calls made are the
    spawn events added to the trace. *)
Theorem combined_file_holds_the_records_written `{PyLib}
    (tasks : list Task) (num_runs : Z) (conditions : list string)
    (model : string) (max_turns : option Z) (dry_run : bool) (pause : Q)
    (w : world) (r : res (list dict)) (w' : world) :
  run_benchmark tasks num_runs conditions model max_turns dry_run pause w
  = (r, w') ->
  script w' = script w
  /\ (forall name, is_Some (cells w !! name) -> is_Some (cells w' !! name))
  /\ exists evs,
       count is_combined evs = 0%nat
       /\ spawned w' = (spawned w + count is_spawn evs)%nat
       /\ match r with
          | Raise _ => trace w' = trace w ++ evs /\ combined w' = combined w
          | Ok [] =>
              written evs = []
              /\ trace w' = trace w ++ evs /\ combined w' = combined w
          | Ok records =>
              written evs = records
              /\ trace w' = trace w ++ evs ++ [EvWriteCombined records]
              /\ combined w' = Some records
          end.
Proof.
  rewrite run_benchmark_loop. cbv zeta.
  destruct (run_cells_loop _ model max_turns dry_run pause
              (matrix tasks num_runs conditions) (0, []) w) as [r1 w1] eqn:Hloop.
  apply run_cells_pass in Hloop.
  destruct Hloop as [Hs [Hc [Hf [evs [Ht [Hcomb [Hsp [_ [_ Hres]]]]]]]]].
  destruct r1 as [[c all] | e].
  - destruct Hres as [_ [Hall _]]. cbn [app] in Hall.
    destruct all as [|record all]; intros [= <- <-].
    + split; [exact Hs |]. split; [exact Hf |]. exists evs. auto.
    + cbn [script cells spawned trace combined].
      split; [exact Hs |]. split; [exact Hf |]. exists evs.
      split; [exact Hcomb |]. split; [exact Hsp |].
      split; [now symmetry |]. split; [| reflexivity].
      now rewrite Ht, <- app_assoc.
  - intros [= <- <-]. split; [exact Hs |]. split; [exact Hf |].
    exists evs. auto.
Qed.

(** X15 on a batch of two cells. *)
Lemma combined_file_holds_the_records_written_witness :
  let w := example_world []
             [ prints (text "{'result': 'It uses a queue.'}");
               Invocation TimeoutExpired 600 ] in
  let out := @run_benchmark example_lib [example_task] 1
               ["baseline"; "with-gnapsis"] "sonnet" None false 3 w in
  (exists records, fst out = Ok records /\ length records = 2%nat
                   /\ combined (snd out) = Some records)
  /\ exists evs,
       count is_combined evs = 0%nat
       /\ spawned (snd out) = (spawned w + count is_spawn evs)%nat
       /\ match fst out with
          | Raise _ => trace (snd out) = trace w ++ evs
                       /\ combined (snd out) = combined w
          | Ok [] =>
              written evs = []
              /\ trace (snd out) = trace w ++ evs
              /\ combined (snd out) = combined w
          | Ok records =>
              written evs = records
              /\ trace (snd out) = trace w ++ evs ++ [EvWriteCombined records]
              /\ combined (snd out) = Some records
          end.
Proof.
  intros w out. split.
  - eexists. split; [vm_compute; reflexivity |].
    split; vm_compute; reflexivity.
  - destruct (@combined_file_holds_the_records_written example_lib
                [example_task] 1 ["baseline"; "with-gnapsis"] "sonnet" None false 3
                w (fst out) (snd out))
      as [_ [_ Hevs]]; [apply surjective_pairing | exact Hevs].
Defined.

(** X16. A batch that ends normally has run one external call and written one
    record per cell of the run matrix, and has slept once after every cell
    but the last when the pause is positive, and not at all otherwise. *)
Theorem batch_pauses_between_cells_only `{PyLib}
    (tasks : list Task) (num_runs : Z) (conditions : list string)
    (model : string) (max_turns : option Z) (pause : Q)
    (w : world) (records : list dict) (w' : world) :
  0 <= num_runs ->
  run_benchmark tasks num_runs conditions model max_turns false pause w
  = (Ok records, w') ->
  length records = length (matrix tasks num_runs conditions)
  /\ exists evs,
       trace w' = trace w ++ evs
                  ++ match records with
                     | [] => []
                     | _ => [EvWriteCombined records]
                     end
       /\ count is_spawn evs = length records
       /\ written evs = records
       /\ count is_sleep evs
          = if positive pause then (length records - 1)%nat else 0%nat.
Proof.
  intros Hn. rewrite run_benchmark_loop. cbv zeta.
  destruct (run_cells_loop _ model max_turns false pause
              (matrix tasks num_runs conditions) (0, []) w) as [r1 w1] eqn:Hloop.
  apply run_cells_pass in Hloop.
  destruct Hloop as [_ [_ [_ [evs [Ht [_ [_ [Hnp [_ Hres]]]]]]]]].
  destruct r1 as [[c all] | e]; [| destruct e; discriminate].
  destruct Hres as [Hc [Hall Hreal]]. cbn [app] in Hall.
  destruct (Hreal eq_refl) as [Hlen [Hspn Hslp]].
  pose proof (length_matrix tasks num_runs conditions Hn) as Hm.
  assert (Hsleeps : count is_sleep evs
                    = if positive pause
                      then (length (matrix tasks num_runs conditions) - 1)%nat
                      else 0%nat).
  { destruct (positive pause); [| now apply Hnp].
    specialize (Hslp eq_refl). rewrite <- Hm in Hslp. lia. }
  rewrite <- Hall in Hlen.
  destruct all as [|record all]; intros [= <- <-].
  - split; [now rewrite <- Hlen |]. exists evs. rewrite app_nil_r.
    split; [exact Ht |]. split; [now rewrite Hspn, <- Hlen |].
    split; [now symmetry |]. now rewrite Hlen.
  - split; [now rewrite <- Hlen |]. exists evs. cbn [trace].
    split; [now rewrite Ht, <- app_assoc |].
    split; [now rewrite Hspn, <- Hlen |].
    split; [now symmetry |]. now rewrite Hlen.
Qed.

(** X16 on a batch of two cells with a pause of 3 seconds: one sleep. *)
Lemma batch_pauses_between_cells_only_witness :
  let w := example_world []
             [ prints (text "{'result': 'It uses a queue.'}");
               Invocation TimeoutExpired 600 ] in
  let out := @run_benchmark example_lib [example_task] 1
               ["baseline"; "with-gnapsis"] "sonnet" None false 3 w in
  let records := match fst out with Ok records => records | Raise _ => [] end in
  length records = 2%nat
  /\ exists evs,
       trace (snd out) = trace w ++ evs ++ [EvWriteCombined records]
       /\ count is_spawn evs = 2%nat
       /\ count is_sleep evs = 1%nat.
Proof.
  intros w out records.
  assert (Hlen : length records = 2%nat) by (vm_compute; reflexivity).
  split; [exact Hlen |].
  destruct (@batch_pauses_between_cells_only example_lib
              [example_task] 1 ["baseline"; "with-gnapsis"] "sonnet" None 3
              w records (snd out))
    as [_ [evs [Ht [Hs [_ Hp]]]]]; [lia | vm_compute; reflexivity |].
  exists evs. rewrite Hlen in Hs, Hp.
  split; [| split; [exact Hs | exact Hp]].
  rewrite Ht. destruct records as [|r0 records]; [discriminate Hlen | reflexivity].
Defined.

(** X17. [load_tasks] of the orchestrator returns the whole catalogue when no
    task id is given, and otherwise the catalogue's tasks whose id is among
    those given, in the order of the catalogue.  When no task is selected
    [main] exits with status 1 before any effect. *)
Theorem task_selection_keeps_catalogue_order `{PyLib} :
  (forall catalogue, run_load_tasks catalogue [] = catalogue)
  /\ (forall catalogue task_ids,
        sublist (run_load_tasks catalogue task_ids) catalogue)
  /\ (forall catalogue task_ids task,
        task_ids <> [] ->
        (In task (run_load_tasks catalogue task_ids)
         <-> In task catalogue /\ id task ∈ task_ids))
  /\ (forall catalogue args w,
        r_tasks args <> [] ->
        (forall task, In task catalogue -> id task ∉ r_tasks args) ->
        run_main catalogue args w = (Ok None, w))
  /\ (forall args w, run_main [] args w = (Ok None, w)).
Proof.
  split; [reflexivity |]. split; [| split; [| split]].
  - intros catalogue [|t ids]; [reflexivity |]. cbn [run_load_tasks].
    induction catalogue as [|task catalogue IH]; [constructor |].
    cbn [List.filter]. destruct (bool_decide _); now constructor.
  - intros catalogue [|t ids] task Hne; [contradiction |].
    cbn [run_load_tasks]. rewrite filter_In. now rewrite bool_decide_eq_true.
  - intros catalogue args w Hne Hnone. unfold run_main.
    assert (Hsel : run_load_tasks catalogue (r_tasks args) = []).
    { destruct (r_tasks args) as [|t ids]; [contradiction |].
      cbn [run_load_tasks]. clear Hne.
      induction catalogue as [|task catalogue IH]; [reflexivity |].
      cbn [List.filter].
      rewrite bool_decide_eq_false_2 by (apply Hnone; now left).
      apply IH. intros task0 Hin. apply Hnone. now right. }
    now rewrite Hsel.
  - intros args w. unfold run_main. destruct (r_tasks args); reflexivity.
Qed.

(** * Further properties of the aggregator ([bench/analyze.py]) *)

(** ** Order and sorting *)

Lemma ascii_compare_lt_trans a b c :
  Ascii.compare a b = Lt -> Ascii.compare b c = Lt -> Ascii.compare a c = Lt.
Proof.
  unfold Ascii.compare. rewrite !N.compare_lt_iff. lia.
Qed.

Lemma string_compare_lt_trans a : forall b c,
  String.compare a b = Lt -> String.compare b c = Lt -> String.compare a c = Lt.
Proof.
  induction a as [|x a IH]; intros [|y b] [|z c]; cbn [String.compare];
    try discriminate; try reflexivity.
  destruct (Ascii.compare x y) eqn:Hxy; try discriminate.
  - apply Ascii.compare_eq_iff in Hxy. subst y.
    destruct (Ascii.compare x z); try discriminate; [apply IH | reflexivity].
  - intros _. destruct (Ascii.compare y z) eqn:Hyz; try discriminate.
    + apply Ascii.compare_eq_iff in Hyz. subst z. now rewrite Hxy.
    + intros _. now rewrite (ascii_compare_lt_trans x y z Hxy Hyz).
Qed.

Lemma string_le_trans a b c : string_le a b -> string_le b c -> string_le a c.
Proof.
  unfold string_le, String.leb.
  destruct (String.compare a b) eqn:Hab; try discriminate; intros _.
  - apply String.compare_eq_iff in Hab. now subst b.
  - destruct (String.compare b c) eqn:Hbc; try discriminate; intros _.
    + apply String.compare_eq_iff in Hbc. subst c. now rewrite Hab.
    + now rewrite (string_compare_lt_trans a b c Hab Hbc).
Qed.

Lemma string_le_total a b : string_le a b \/ string_le b a.
Proof. apply String.leb_total. Qed.

Lemma string_le_refl a : string_le a a.
Proof. now destruct (string_le_total a a). Qed.

Lemma string_le_antisym a b : string_le a b -> string_le b a -> a = b.
Proof. apply String.leb_antisym. Qed.

Lemma key_le_total a b : key_le a b \/ key_le b a.
Proof.
  unfold key_le, key_leb. rewrite (String.eqb_sym (fst b)).
  destruct (String.eqb (fst a) (fst b)); apply String.leb_total.
Qed.

Lemma key_le_trans a b c : key_le a b -> key_le b c -> key_le a c.
Proof.
  unfold key_le, key_leb.
  destruct a as [a1 a2], b as [b1 b2], c as [c1 c2]. cbn [fst snd].
  destruct (String.eqb_spec a1 b1) as [-> | Hab].
  - destruct (String.eqb_spec b1 c1) as [-> | Hbc]; [apply string_le_trans | auto].
  - destruct (String.eqb_spec b1 c1) as [-> | Hbc].
    + intros H1 _. destruct (String.eqb_spec a1 c1); [contradiction | exact H1].
    + intros H1 H2. destruct (String.eqb_spec a1 c1) as [-> | Hac].
      * exfalso. apply Hab. now apply string_le_antisym.
      * now apply (string_le_trans a1 b1 c1).
Qed.

Section Sorting.
Context {A : Type} (leb : A -> A -> bool).
Hypothesis leb_total : forall a b, leb a b = true \/ leb b a = true.
Hypothesis leb_trans : forall a b c, leb a b = true -> leb b c = true -> leb a c = true.

Lemma insert_by_sorted x l :
  StronglySorted (fun a b => leb a b = true) l ->
  StronglySorted (fun a b => leb a b = true) (insert_by leb x l).
Proof.
  induction 1 as [|y l Hs IH Hy]; cbn [insert_by].
  - repeat constructor.
  - destruct (leb x y) eqn:Hxy.
    + constructor; [now constructor |]. constructor; [exact Hxy |].
      eapply Forall_impl; [exact Hy |]. intros z Hz. now apply (leb_trans x y z).
    + constructor; [exact IH |].
      apply Forall_forall. intros z Hz.
      apply list_elem_of_In, In_insert_by in Hz as [-> | Hz].
      * destruct (leb_total x y) as [Hc | Hc]; [congruence | exact Hc].
      * rewrite Forall_forall in Hy. apply Hy. now apply list_elem_of_In.
Qed.

Lemma sort_by_sorted l : StronglySorted (fun a b => leb a b = true) (sort_by leb l).
Proof.
  unfold sort_by. induction l as [|x l IH]; [constructor |].
  cbn [foldr]. now apply insert_by_sorted.
Qed.

Lemma insert_by_perm x l : Permutation (insert_by leb x l) (x :: l).
Proof.
  induction l as [|y l IH]; cbn [insert_by]; [reflexivity |].
  destruct (leb x y); [reflexivity |].
  rewrite IH. apply perm_swap.
Qed.

Lemma sort_by_perm l : Permutation (sort_by leb l) l.
Proof.
  unfold sort_by. induction l as [|x l IH]; [reflexivity |].
  cbn [foldr]. rewrite insert_by_perm. now constructor.
Qed.

End Sorting.

(** ** The groups of the report *)

Lemma StronglySorted_map {A B} (f : A -> B) (R : B -> B -> Prop) (l : list A) :
  StronglySorted (fun a b => R (f a) (f b)) l -> StronglySorted R (map f l).
Proof.
  induction 1 as [|x l Hs IH Hx]; cbn [map]; constructor; [exact IH |].
  apply Forall_forall. intros y Hy. apply list_elem_of_In, in_map_iff in Hy as [z [<- Hz]].
  rewrite Forall_forall in Hx. apply Hx. now apply list_elem_of_In.
Qed.

Lemma list_sum_perm (l1 l2 : list nat) :
  Permutation l1 l2 -> list_sum l1 = list_sum l2.
Proof.
  induction 1 as [|x l1 l2 _ IH|x y l|l1 l2 l3 _ IH1 _ IH2]; simpl;
    [reflexivity | now rewrite IH | lia | congruence].
Qed.

Lemma group_add_total key r grouped :
  list_sum (map (fun g : (string * string) * list dict => length (snd g))
                (group_add key r grouped))
  = S (list_sum (map (fun g : (string * string) * list dict => length (snd g))
                     grouped)).
Proof.
  induction grouped as [|[k runs] grouped IH]; cbn [group_add]; [reflexivity |].
  destruct (bool_decide (k = key)); simpl.
  - rewrite length_app. simpl. lia.
  - simpl in IH. rewrite IH. lia.
Qed.

Lemma group_runs_total results :
  forall acc grouped,
    group_runs results acc = Ok grouped ->
    list_sum (map (fun g : (string * string) * list dict => length (snd g)) grouped)
    = (length results
       + list_sum (map (fun g : (string * string) * list dict => length (snd g)) acc))%nat.
Proof.
  induction results as [|r results IH]; intros acc grouped Hg.
  - now inversion Hg.
  - cbn [group_runs] in Hg.
    destruct (group_key r) as [k|]; [| discriminate]. cbn [res_bind] in Hg.
    rewrite (IH _ _ Hg), group_add_total. cbn [length]. lia.
Qed.

Section Report.
Context `{PyLib}.

Lemma make_entries_keys groups report :
  make_entries groups = Ok report ->
  map entry_key report = map fst groups
  /\ map n_runs report
     = map (fun g : (string * string) * list dict => length (snd g)) groups.
Proof.
  revert report; induction groups as [|[[t c] runs] groups IH]; intros report Hm.
  - now inversion Hm.
  - cbn [make_entries] in Hm.
    destruct (make_entry (t, c, runs)) as [e|] eqn:He; [| discriminate].
    cbn [res_bind] in Hm.
    destruct (make_entries groups) as [es|]; [| discriminate].
    cbn [res_bind] in Hm. inversion Hm; subst.
    destruct (IH es eq_refl) as [Hk Hn].
    apply make_entry_fields in He as [Ht [Hc [Hl _]]].
    cbn [map fst snd]. unfold entry_key at 1. rewrite Ht, Hc, Hl, Hk, Hn. auto.
Qed.

End Report.

(** X18. [aggregate] puts every result in exactly one entry: the run counts of
    the report add up to the number of results, every entry counts the
    results of its task and condition (at least one), no two entries have
    the same task and condition, and the entries are in ascending order
    of task id, then condition. *)
Theorem aggregate_partitions_results_into_sorted_groups `{PyLib}
    (results : list dict) (report : list Entry) :
  aggregate results = Ok report ->
  list_sum (map n_runs report) = length results
  /\ StronglySorted key_le (map entry_key report)
  /\ NoDup (map entry_key report)
  /\ forall e, In e report ->
       n_runs e = length (group_of results (entry_key e))
       /\ (1 <= n_runs e)%nat.
Proof.
  intros Hagg. unfold aggregate in Hagg.
  destruct (group_runs results []) as [grouped|] eqn:Hg; [| discriminate].
  cbn [res_bind] in Hagg.
  destruct (group_runs_spec results [] grouped Hg (NoDup_nil_2))
    as [Hnd [Hruns Hkeys]].
  set (sorted := sort_by (fun a b : (string * string) * list dict =>
                            key_leb (fst a) (fst b)) grouped) in *.
  assert (Hperm : Permutation sorted grouped) by apply sort_by_perm.
  destruct (make_entries_keys _ _ Hagg) as [Hk Hn].
  split; [| split; [| split]].
  - rewrite Hn, (list_sum_perm _ _ (Permutation_map _ Hperm)).
    rewrite (group_runs_total _ _ _ Hg). cbn. lia.
  - rewrite Hk. apply StronglySorted_map.
    apply (sort_by_sorted (fun a b : (string * string) * list dict =>
                             key_leb (fst a) (fst b))).
    + intros a b. apply key_le_total.
    + intros a b c. apply key_le_trans.
  - rewrite Hk, (Permutation_map fst Hperm). exact Hnd.
  - intros e He.
    destruct (make_entries_In _ _ Hagg e He) as [[[t c] rs] [Hin Hmk]].
    apply In_sort_by in Hin.
    destruct (make_entry_fields t c rs e Hmk) as [Ht [Hc [Hlen _]]].
    assert (Hrs : rs = group_of results (entry_key e)).
    { unfold entry_key. rewrite Ht, Hc.
      rewrite <- (runs_of_In (t, c) rs grouped Hnd Hin). now rewrite Hruns. }
    split; [now rewrite Hlen, Hrs |].
    destruct (Hkeys (t, c)) as [[] | Hne].
    { change (t, c) with (fst (t, c, rs)). now apply in_map. }
    rewrite Hlen, Hrs. unfold entry_key. rewrite Ht, Hc.
    destruct (group_of results (t, c)); [contradiction | cbn; lia].
Qed.

(** X18 on five results of three groups. *)
Lemma aggregate_partitions_results_into_sorted_groups_witness :
  let results :=
    judged_runs
    ++ [ [("task_id", JStr "T1"); ("condition", JStr "with-gnapsis")];
         [("task_id", JStr "T0"); ("condition", JStr "with-gnapsis")] ] in
  exists report,
    @aggregate example_lib results = Ok report
    /\ map entry_key report
       = [("T0", "with-gnapsis"); ("T1", "baseline"); ("T1", "with-gnapsis")]
    /\ list_sum (map n_runs report) = 5%nat
    /\ NoDup (map entry_key report).
Proof.
  intros results.
  destruct (@aggregate example_lib results) as [report|] eqn:Hagg;
    [| vm_compute in Hagg; discriminate Hagg].
  exists report. split; [reflexivity |].
  destruct (@aggregate_partitions_results_into_sorted_groups example_lib
              results report Hagg) as [Hsum [_ [Hnd _]]].
  split; [| split; [exact Hsum | exact Hnd]].
  vm_compute in Hagg. inversion Hagg. reflexivity.
Defined.

(** ** Statistics *)

Lemma Qsum_lower lo l :
  (forall v, In v l -> (lo <= v)%Q) ->
  (inject_Z (Z.of_nat (length l)) * lo <= Qsum l)%Q.
Proof.
  induction l as [|x l IH]; intros Hl.
  - change (0 * lo <= 0)%Q. lra.
  - cbn [length Qsum fold_right]. rewrite Nat2Z.inj_succ. unfold Z.succ.
    rewrite inject_Z_plus.
    assert (Hx : (lo <= x)%Q) by (apply Hl; now left).
    assert (Hr : (inject_Z (Z.of_nat (length l)) * lo <= Qsum l)%Q)
      by (apply IH; intros v Hv; apply Hl; now right).
    unfold Qsum in Hr. change (inject_Z 1) with 1%Q. lra.
Qed.

Lemma Qsum_upper hi l :
  (forall v, In v l -> (v <= hi)%Q) ->
  (Qsum l <= inject_Z (Z.of_nat (length l)) * hi)%Q.
Proof.
  induction l as [|x l IH]; intros Hl.
  - change (0 <= 0 * hi)%Q. lra.
  - cbn [length Qsum fold_right]. rewrite Nat2Z.inj_succ. unfold Z.succ.
    rewrite inject_Z_plus.
    assert (Hx : (x <= hi)%Q) by (apply Hl; now left).
    assert (Hr : (Qsum l <= inject_Z (Z.of_nat (length l)) * hi)%Q)
      by (apply IH; intros v Hv; apply Hl; now right).
    unfold Qsum in Hr. change (inject_Z 1) with 1%Q. lra.
Qed.

Lemma length_positive {A} (l : list A) :
  l <> [] -> (0 < inject_Z (Z.of_nat (length l)))%Q.
Proof.
  intros Hne. destruct l as [|x l]; [contradiction |].
  change 0%Q with (inject_Z 0). rewrite <- Zlt_Qlt. cbn [length]. lia.
Qed.

Lemma mean_lower values lo :
  values <> [] ->
  (forall v, In v values -> (lo <= v)%Q) ->
  (lo <= stat_mean values)%Q.
Proof.
  intros Hne Hb. unfold stat_mean.
  apply Qle_shift_div_l; [now apply length_positive |]. rewrite Qmult_comm.
  now apply Qsum_lower.
Qed.

Lemma mean_upper values hi :
  values <> [] ->
  (forall v, In v values -> (v <= hi)%Q) ->
  (stat_mean values <= hi)%Q.
Proof.
  intros Hne Hb. unfold stat_mean.
  apply Qle_shift_div_r; [now apply length_positive |]. rewrite Qmult_comm.
  now apply Qsum_upper.
Qed.

(** The median is the midpoint of two values of the sample (twice the same
    value when the sample has an odd number of values). *)
Lemma median_midpoint values :
  values <> [] ->
  exists a b, In a values /\ In b values
              /\ (stat_median values == (a + b) / 2)%Q.
Proof.
  intros Hne. unfold stat_median.
  set (data := sort_by Qle_bool values).
  assert (Hlen : length data = length values)
    by (apply Permutation_length, sort_by_perm).
  assert (Hpos : (0 < length data)%nat).
  { rewrite Hlen. destruct values; [contradiction | cbn; lia]. }
  assert (Hin : forall i, (i < length data)%nat -> In (nth i data 0%Q) values).
  { intros i Hi. apply (In_sort_by Qle_bool). now apply nth_In. }
  assert (Hhalf : (length data / 2 < length data)%nat)
    by (apply Nat.div_lt; lia).
  destruct (Nat.odd (length data)).
  - exists (nth (length data / 2) data 0%Q), (nth (length data / 2) data 0%Q).
    split; [now apply Hin |]. split; [now apply Hin |]. field.
  - exists (nth (length data / 2 - 1) data 0%Q), (nth (length data / 2) data 0%Q).
    split; [apply Hin; lia |]. split; [now apply Hin |]. reflexivity.
Qed.

Lemma median_lower values lo :
  values <> [] ->
  (forall v, In v values -> (lo <= v)%Q) ->
  (lo <= stat_median values)%Q.
Proof.
  intros Hne Hb. destruct (median_midpoint values Hne) as [a [b [Ha [Hb' ->]]]].
  pose proof (Hb a Ha). pose proof (Hb b Hb'). apply Qle_shift_div_l; lra.
Qed.

Lemma median_upper values hi :
  values <> [] ->
  (forall v, In v values -> (v <= hi)%Q) ->
  (stat_median values <= hi)%Q.
Proof.
  intros Hne Hb. destruct (median_midpoint values Hne) as [a [b [Ha [Hb' ->]]]].
  pose proof (Hb a Ha). pose proof (Hb b Hb'). apply Qle_shift_div_r; lra.
Qed.

(** X19. [compute_stats] of the empty sample is all zeros; of a single value
    it has that value as mean and median and the deviation 0.  For a
    non-empty sample the mean and the median lie between any bounds of the
    sample, the median is the midpoint of two values of the sample, and n
    is the size of the sample. *)
Theorem statistics_stay_within_the_sample `{PyLib} :
  compute_stats [] = {| mean := 0; median := 0; stdev := 0; n := 0 |}
  /\ (forall x : Q,
        (mean (compute_stats [x]) == x)%Q
        /\ median (compute_stats [x]) = x
        /\ stdev (compute_stats [x]) = 0%Q
        /\ n (compute_stats [x]) = 1%nat)
  /\ (forall values lo hi,
        values <> [] ->
        (forall v, In v values -> (lo <= v <= hi)%Q) ->
        (lo <= mean (compute_stats values) <= hi)%Q
        /\ (lo <= median (compute_stats values) <= hi)%Q
        /\ n (compute_stats values) = length values)
  /\ (forall values,
        values <> [] ->
        exists a b, In a values /\ In b values
                    /\ (median (compute_stats values) == (a + b) / 2)%Q).
Proof.
  split; [reflexivity |]. split; [| split].
  - intros x. split; [| repeat split].
    cbn. unfold stat_mean, Qsum. cbn. field.
  - intros values lo hi Hne Hb.
    destruct values as [|x values]; [contradiction |]. cbn [compute_stats mean median n].
    split; [split; [apply mean_lower | apply mean_upper];
            try discriminate; intros v Hv; now apply Hb |].
    split; [| reflexivity].
    split; [apply median_lower | apply median_upper];
      try discriminate; intros v Hv; now apply Hb.
  - intros values Hne. destruct values as [|x values]; [contradiction |].
    cbn [compute_stats median]. now apply median_midpoint.
Qed.

(** ** Records the aggregator accepts *)

Lemma get_numeric k r :
  In k (map fst METRICS) -> analyzable r ->
  is_Some (Py.number (Py.get k (JInt 0) r)).
Proof.
  intros Hk [_ Hm]. unfold Py.get.
  destruct (Py.lookup k r) as [v|] eqn:Hv; [now apply (Hm k) | now eexists].
Qed.

Section Accepts.
Context `{PyLib}.

Lemma numbers_present k runs :
  In k (map fst METRICS) ->
  (forall r, In r runs -> analyzable r) ->
  exists qs, numbers (present k runs) = Ok qs.
Proof.
  intros Hk. induction runs as [|r runs IH]; intros Hr; [now exists [] |].
  destruct IH as [qs Hqs]; [intros r0 Hr0; apply Hr; now right |].
  cbn [present].
  destruct (Py.lookup k r) as [v|] eqn:Hv; [| eauto].
  destruct (proj2 (Hr r (or_introl eq_refl)) k v Hk Hv) as [q Hq].
  destruct v; try discriminate; cbn [numbers]; rewrite ?Hq, Hqs; cbn; eauto.
Qed.

Lemma metric_fields_accepts metrics runs :
  (forall m, In m metrics -> In (fst m) (map fst METRICS)) ->
  (forall r, In r runs -> analyzable r) ->
  exists fs, metric_fields metrics runs = Ok fs.
Proof.
  intros Hm Hr. induction metrics as [|[k l] metrics IH]; [now exists [] |].
  destruct IH as [fs Hfs]; [intros m Hin; apply Hm; now right |].
  destruct (numbers_present k runs (Hm (k, l) (or_introl eq_refl)) Hr) as [qs Hqs].
  cbn [metric_fields]. unfold metric_sample. rewrite Hqs. cbn [res_bind].
  rewrite Hfs. cbn [res_bind]. eauto.
Qed.

Lemma total_tokens_accepts runs :
  (forall r, In r runs -> analyzable r) ->
  exists ts qs, total_tokens runs = Ok ts /\ numbers ts = Ok qs.
Proof.
  induction runs as [|r runs IH]; intros Hr; [now exists [], [] |].
  destruct IH as [ts [qs [Hts Hqs]]]; [intros r0 Hr0; apply Hr; now right |].
  assert (Ha : analyzable r) by (apply Hr; now left).
  destruct (py_add_numeric (Py.get "input_tokens" (JInt 0) r)
                           (Py.get "output_tokens" (JInt 0) r))
    as [v [Hv [q Hq]]].
  { apply get_numeric; [cbn; tauto | exact Ha]. }
  { apply get_numeric; [cbn; tauto | exact Ha]. }
  cbn [total_tokens]. rewrite Hv. cbn [res_bind]. rewrite Hts. cbn [res_bind].
  exists (v :: ts), (q :: qs). split; [reflexivity |].
  cbn [numbers]. rewrite Hq, Hqs. reflexivity.
Qed.

Lemma make_entries_accepts groups :
  (forall g r, In g groups -> In r (snd g) -> analyzable r) ->
  exists report, make_entries groups = Ok report.
Proof.
  induction groups as [|[[t c] runs] groups IH]; intros Hg; [now exists [] |].
  destruct IH as [report Hrep]; [intros g r Hin; apply Hg; now right |].
  assert (Hr : forall r, In r runs -> analyzable r)
    by (intros r Hin; apply (Hg (t, c, runs)); [now left | exact Hin]).
  destruct (metric_fields_accepts METRICS runs) as [fs Hfs];
    [intros m Hin; now apply in_map | exact Hr |].
  destruct (total_tokens_accepts runs Hr) as [ts [qs [Hts Hqs]]].
  cbn [make_entries]. unfold make_entry. rewrite Hfs. cbn [res_bind].
  rewrite Hts. cbn [res_bind]. rewrite Hqs. cbn [res_bind].
  rewrite Hrep. cbn [res_bind]. eauto.
Qed.

Lemma group_runs_accepts results :
  (forall r, In r results -> analyzable r) ->
  forall acc, exists grouped, group_runs results acc = Ok grouped.
Proof.
  induction results as [|r results IH]; intros Hr acc; [now exists acc |].
  destruct (Hr r (or_introl eq_refl)) as [[t [c [Ht Hc]]] _].
  cbn [group_runs]. unfold group_key. rewrite Ht, Hc. cbn [res_bind].
  apply IH. intros r0 Hr0. apply Hr. now right.
Qed.

End Accepts.

Lemma aggregate_accepts `{PyLib} results :
  (forall r, In r results -> analyzable r) ->
  exists report, aggregate results = Ok report.
Proof.
  intros Hr. unfold aggregate.
  destruct (group_runs_accepts results Hr []) as [grouped Hg].
  rewrite Hg. cbn [res_bind].
  destruct (group_runs_spec results [] grouped Hg (NoDup_nil_2))
    as [Hnd [Hruns _]].
  apply make_entries_accepts. intros [key runs] r Hin Hrun.
  apply In_sort_by in Hin. cbn [snd] in Hrun.
  rewrite <- (runs_of_In key runs grouped Hnd Hin), Hruns in Hrun.
  cbn [runs_of app] in Hrun. unfold group_of in Hrun.
  apply filter_In in Hrun as [Hrun _]. now apply Hr.
Qed.

(** X20. [aggregate] returns a report whenever every result has a string task
    id and condition and numbers for the metrics it carries.  It raises
    [KeyError] at the first result without a task id or a condition.  The
    report of no results is empty. *)
Theorem aggregate_accepts_records_of_the_orchestrator `{PyLib} :
  (forall results,
     (forall r, In r results -> analyzable r) ->
     exists report, aggregate results = Ok report)
  /\ (forall results r rest,
        (forall x, In x results -> analyzable x) ->
        Py.lookup "task_id" r = None \/ Py.lookup "condition" r = None ->
        aggregate (results ++ r :: rest) = Raise KeyError)
  /\ aggregate [] = Ok [].
Proof.
  split; [exact aggregate_accepts | split; [| reflexivity]].
  intros results r rest Hr Hnone. unfold aggregate.
  assert (Hraise : forall acc, group_runs (results ++ r :: rest) acc = Raise KeyError).
  { induction results as [|x results IH]; intros acc.
    - cbn [app group_runs]. unfold group_key.
      destruct Hnone as [-> | Hc]; [reflexivity |].
      rewrite Hc. destruct (Py.lookup "task_id" r) as [[]|]; reflexivity.
    - destruct (Hr x (or_introl eq_refl)) as [[t [c [Ht Hc]]] _].
      cbn [app group_runs]. unfold group_key. rewrite Ht, Hc. cbn [res_bind].
      apply IH. intros x0 Hx0. apply Hr. now right. }
  now rewrite Hraise.
Qed.

(** ** Fields of the report entries *)

Section Fields.
Context `{PyLib}.

Lemma metric_fields_complete runs fs :
  metric_fields METRICS runs = Ok fs ->
  forall k l, In (k, l) METRICS ->
    is_Some (field_opt (k +:+ "_mean") fs)
    /\ is_Some (field_opt (k +:+ "_median") fs)
    /\ is_Some (field_opt (k +:+ "_stdev") fs).
Proof.
  unfold METRICS. cbn [metric_fields].
  repeat match goal with
         | |- context [metric_sample ?k runs] =>
             let E := fresh "E" in
             destruct (metric_sample k runs) eqn:E; cbn [res_bind];
             [| discriminate]
         end.
  intros [= <-] k l Hin. cbn [In] in Hin.
  repeat (destruct Hin as [[= <- <-] | Hin];
          [repeat split; eexists; reflexivity |]).
  destruct Hin.
Qed.

Lemma quality_sample_non_negative runs sample :
  metric_sample "quality_score" runs = Ok sample ->
  forall v, In v sample -> (0 <= v)%Q.
Proof.
  intros Hs v Hv. apply metric_sample_quality in Hs as [values [_ ->]].
  apply filter_In in Hv as [_ Hv]. now apply Qle_bool_iff.
Qed.

Lemma quality_statistics_non_negative sample :
  (forall v, In v sample -> (0 <= v)%Q) ->
  (0 <= mean (compute_stats sample))%Q /\ (0 <= median (compute_stats sample))%Q.
Proof.
  intros Hs. destruct sample as [|x sample]; [cbn; split; lra |].
  cbn [compute_stats mean median].
  split; [apply mean_lower | apply median_lower]; try discriminate; exact Hs.
Qed.

End Fields.

(** X21. Every entry of an aggregated report has a mean, a median and a
    deviation for each of the ten metrics, so no default of the printing
    code applies to it; its quality mean and median are never negative, so
    the single-condition listing never shows a negative quality. *)
Theorem report_entries_carry_every_statistic `{PyLib}
    (results : list dict) (report : list Entry) :
  aggregate results = Ok report ->
  (forall e, In e report ->
     (forall k l, In (k, l) METRICS ->
        is_Some (field_opt (k +:+ "_mean") (fields e))
        /\ is_Some (field_opt (k +:+ "_median") (fields e))
        /\ is_Some (field_opt (k +:+ "_stdev") (fields e)))
     /\ (0 <= field "quality_score_mean" (-1) (fields e))%Q
     /\ (0 <= field "quality_score_median" (-1) (fields e))%Q)
  /\ Forall (fun line => (0 <= l_quality line)%Q) (print_single_condition report).
Proof.
  intros Hagg.
  assert (Hentry : forall e, In e report ->
     (forall k l, In (k, l) METRICS ->
        is_Some (field_opt (k +:+ "_mean") (fields e))
        /\ is_Some (field_opt (k +:+ "_median") (fields e))
        /\ is_Some (field_opt (k +:+ "_stdev") (fields e)))
     /\ (0 <= field "quality_score_mean" (-1) (fields e))%Q
     /\ (0 <= field "quality_score_median" (-1) (fields e))%Q).
  { intros e He. unfold aggregate in Hagg.
    destruct (group_runs results []) as [grouped|]; [| discriminate].
    cbn [res_bind] in Hagg.
    destruct (make_entries_In _ _ Hagg e He) as [[[t c] rs] [_ Hmk]].
    destruct (make_entry_fields t c rs e Hmk) as [_ [_ [_ Hf]]].
    split; [now apply (metric_fields_complete rs) |].
    destruct (quality_fields rs (fields e) Hf) as [sample [Hs Hq]].
    destruct (Hq (-1)%Q) as [-> [-> _]].
    apply quality_statistics_non_negative.
    now apply (quality_sample_non_negative rs). }
  split; [exact Hentry |].
  apply Forall_forall. intros line Hl.
  apply list_elem_of_In, in_map_iff in Hl as [e [<- He]]. cbn [l_quality].
  apply (Hentry e He).
Qed.

(** X21 on the three judged runs. *)
Lemma report_entries_carry_every_statistic_witness :
  exists e,
    @aggregate example_lib judged_runs = Ok [e]
    /\ is_Some (field_opt "keyword_hits_stdev" (fields e))
    /\ (0 <= field "quality_score_mean" (-1) (fields e))%Q
    /\ Forall (fun line => (0 <= l_quality line)%Q) (print_single_condition [e]).
Proof.
  destruct (@aggregate example_lib judged_runs) as [report|] eqn:Hagg;
    [| vm_compute in Hagg; discriminate Hagg].
  assert (Hlen : exists e, report = [e]).
  { vm_compute in Hagg. inversion Hagg. eauto. }
  destruct Hlen as [e ->]. exists e. split; [reflexivity |].
  destruct (@report_entries_carry_every_statistic example_lib judged_runs [e] Hagg)
    as [Hentry Hlines].
  destruct (Hentry e (or_introl eq_refl)) as [Hf [Hq _]].
  split; [| split; [exact Hq | exact Hlines]].
  apply (Hf "keyword_hits" "Keyword Hits"). cbn. tauto.
Defined.

(** ** The comparison table *)

Lemma sorted_set_In x l : In x (sorted_set l) <-> In x l.
Proof.
  unfold sorted_set. rewrite In_sort_by, <- !list_elem_of_In.
  apply elem_of_remove_dups.
Qed.

Lemma sorted_set_NoDup l : NoDup (sorted_set l).
Proof.
  unfold sorted_set. rewrite (sort_by_perm String.leb). apply NoDup_remove_dups.
Qed.

Lemma sorted_set_sorted l : StronglySorted string_le (sorted_set l).
Proof.
  unfold sorted_set.
  apply (sort_by_sorted String.leb); [apply string_le_total | apply string_le_trans].
Qed.

(** A strictly ascending list of exactly two given values. *)
Lemma sorted_pair (a b : string) (l : list string) :
  StronglySorted string_le l -> NoDup l ->
  (forall x, In x l <-> x = a \/ x = b) ->
  string_le a b -> a <> b ->
  l = [a; b].
Proof.
  intros Hs Hnd Hin Hab Hne.
  destruct l as [|x l]; [exfalso; apply (proj2 (Hin a)); now left |].
  apply StronglySorted_inv in Hs as [Hs Hx]. rewrite Forall_forall in Hx.
  apply NoDup_cons in Hnd as [Hxl Hnd].
  assert (Hxa : x = a).
  { destruct (proj1 (Hin x) (or_introl eq_refl)) as [-> | ->]; [reflexivity |].
    destruct (proj2 (Hin a) (or_introl eq_refl)) as [-> | Ha]; [reflexivity |].
    apply string_le_antisym; [| exact Hab]. apply Hx. now apply list_elem_of_In. }
  subst x.
  assert (Hb : In b l).
  { destruct (proj2 (Hin b) (or_intror eq_refl)) as [Hc | Hb]; [congruence | exact Hb]. }
  destruct l as [|y l]; [destruct Hb |].
  apply NoDup_cons in Hnd as [Hyl Hnd].
  assert (Hyb : y = b).
  { destruct (proj1 (Hin y) (or_intror (or_introl eq_refl))) as [-> | ->];
      [| reflexivity].
    exfalso. apply Hxl. now left. }
  subst y. destruct l as [|z l]; [reflexivity |]. exfalso.
  destruct (proj1 (Hin z) (or_intror (or_intror (or_introl eq_refl)))) as [-> | ->].
  - apply Hxl. right. now left.
  - apply Hyl. now left.
Qed.


(** X23. The comparison is of the two conditions that come first in ascending
    order: they are distinct conditions of the report, the first before the
    second, and every other condition of the report comes after the second.
    With the harness's two conditions the baseline is always the
    reference: delta and percent are those of with-gnapsis against it. *)
Theorem comparison_is_second_condition_against_first :
  (forall report c1 c2 rows averages,
     print_comparison report = Comparison c1 c2 rows averages ->
     c1 <> c2 /\ string_le c1 c2
     /\ In c1 (map e_condition report) /\ In c2 (map e_condition report)
     /\ forall e, In e report ->
          e_condition e = c1 \/ string_le c2 (e_condition e))
  /\ (forall report,
        (forall e, In e report ->
           e_condition e = "baseline" \/ e_condition e = "with-gnapsis") ->
        In "baseline" (map e_condition report) ->
        In "with-gnapsis" (map e_condition report) ->
        print_comparison report
        = Comparison "baseline" "with-gnapsis"
            (flat_map (task_rows report "baseline" "with-gnapsis")
                      (sorted_set (map e_task_id report)))
            (average_rows report "baseline" "with-gnapsis")).
Proof.
  split.
  - intros report c1 c2 rows averages Hp. unfold print_comparison in Hp.
    pose proof (sorted_set_sorted (map e_condition report)) as Hs.
    pose proof (sorted_set_NoDup (map e_condition report)) as Hnd.
    pose proof (fun x => sorted_set_In x (map e_condition report)) as Hin.
    destruct (sorted_set (map e_condition report)) as [|a [|b more]];
      try discriminate.
    inversion Hp; subst a b. clear Hp.
    apply StronglySorted_inv in Hs as [Hs Hle1]. rewrite Forall_forall in Hle1.
    apply StronglySorted_inv in Hs as [_ Hle2]. rewrite Forall_forall in Hle2.
    apply NoDup_cons in Hnd as [Hc1 _].
    split; [intros ->; apply Hc1; now left |].
    split; [apply Hle1; now left |].
    split; [apply Hin; now left |]. split; [apply Hin; right; now left |].
    intros e He.
    assert (Hc : In (e_condition e) (c1 :: c2 :: more))
      by (apply Hin; now apply in_map).
    destruct Hc as [<- | [<- | Hc]]; [now left | right | right].
    + apply string_le_refl.
    + apply Hle2. now apply list_elem_of_In.
  - intros report Hall Hb Hg. unfold print_comparison.
    rewrite (sorted_pair "baseline" "with-gnapsis"
               (sorted_set (map e_condition report)));
      [reflexivity | apply sorted_set_sorted | apply sorted_set_NoDup | |
       reflexivity | discriminate].
    intros x. rewrite sorted_set_In. split.
    + intros Hx. apply in_map_iff in Hx as [e [<- He]]. now apply Hall.
    + intros [-> | ->]; assumption.
Qed.

(** ** Order of the result files *)

(** X24. The judge and the aggregator visit the result files in ascending
    order of file name, each file of the store exactly once. *)
Theorem result_files_are_visited_in_name_order (w : world) :
  StronglySorted string_le (map fst (result_files w))
  /\ NoDup (map fst (result_files w))
  /\ (forall name data,
        In (name, data) (result_files w) <-> cells w !! name = Some data)
  /\ length (result_files w) = size (cells w).
Proof.
  assert (Hperm : Permutation (result_files w) (map_to_list (cells w)))
    by apply sort_by_perm.
  split; [| split; [| split]].
  - apply StronglySorted_map.
    apply (sort_by_sorted (fun a b : string * dict => String.leb (fst a) (fst b))).
    + intros a b. apply string_le_total.
    + intros a b c. apply string_le_trans.
  - rewrite (Permutation_map fst Hperm). apply NoDup_fst_map_to_list.
  - intros name data. apply In_result_files.
  - rewrite (Permutation_length Hperm). apply length_map_to_list.
Qed.

(** ** From the orchestrator to the report *)

Section Chain.
Context `{PyLib}.

Lemma run_result_success task condition run_id model inv record :
  run_result task condition run_id model inv = Ok record ->
  run_failed inv = false ->
  exists returncode stdout stderr envelope,
    outcome inv = Completed returncode stdout stderr
    /\ json_loads stdout = Some (JObj envelope)
    /\ record = success_record task condition run_id model envelope (elapsed inv).
Proof.
  unfold run_result, run_failed.
  destruct (outcome inv) as [|returncode stdout stderr]; [discriminate |].
  fold (process_failed returncode stdout).
  destruct (process_failed returncode stdout); [discriminate |].
  destruct (json_loads stdout) as [response|] eqn:Hj; [| discriminate].
  intros Hs _. exists returncode, stdout, stderr.
  destruct response as [| | | | | |envelope]; try discriminate.
  exists envelope. split; [reflexivity |]. split; [exact Hj |].
  assert (Hu : match Py.lookup "usage" envelope with
               | None | Some (JObj _) => True
               | Some _ => False
               end).
  { unfold success in Hs. cbn [Py.get_attr res_bind] in Hs. unfold Py.get in Hs at 1.
    destruct (Py.lookup "usage" envelope) as [[| | | | | |usage]|];
      try discriminate; exact I. }
  rewrite (success_object _ _ _ _ _ _ Hu) in Hs. now inversion Hs.
Qed.

Lemma success_record_analyzable task condition run_id model envelope wall :
  numeric_envelope envelope ->
  analyzable (success_record task condition run_id model envelope wall).
Proof.
  intros [He Hu]. split; [now exists (id task), condition |].
  intros k v Hk. cbn [METRICS map fst In] in Hk.
  repeat (destruct Hk as [<- | Hk];
          [first [ discriminate
                 | intros [= <-]; apply get_or_default_numeric; intros v0;
                   first [apply He | apply Hu]; cbn; tauto ] |]).
  destruct Hk.
Qed.

Lemma with_total_input_tokens_analyzable r :
  analyzable r ->
  exists loaded,
    with_total_input_tokens r = Ok loaded /\ analyzable loaded.
Proof.
  intros Ha. unfold with_total_input_tokens.
  destruct (py_add_numeric (Py.get "input_tokens" (JInt 0) r)
                           (Py.get "cache_read_input_tokens" (JInt 0) r))
    as [s [Hs Hsn]]; try (apply get_numeric; [cbn; tauto | exact Ha]).
  destruct (py_add_numeric s (Py.get "cache_creation_input_tokens" (JInt 0) r))
    as [total [Ht Htn]]; [exact Hsn | apply get_numeric; [cbn; tauto | exact Ha] |].
  rewrite Hs. cbn [res_bind]. rewrite Ht. cbn [res_bind].
  eexists. split; [reflexivity |].
  destruct Ha as [[t [c [Htid Hc]]] Hm]. split.
  - exists t, c. now rewrite !lookup_set_ne by discriminate.
  - intros k v Hk Hv.
    destruct (String.eqb_spec k "total_input_tokens") as [-> | Hne].
    + rewrite lookup_set_eq in Hv. now inversion Hv; subst.
    + rewrite lookup_set_ne in Hv by exact Hne. now apply (Hm k).
Qed.

End Chain.

(** X25. A record [run_task] returns without an [error] entry is the success
    record of a decoded envelope.  When the counts, the cost and the
    timings of the envelope are numbers where present, the aggregator loads
    the record and reports it under its task and condition without
    raising. *)
Theorem success_records_pass_through_the_aggregator `{PyLib} :
  (forall task condition run_id model inv record,
     run_result task condition run_id model inv = Ok record ->
     run_failed inv = false ->
     exists returncode stdout stderr envelope,
       outcome inv = Completed returncode stdout stderr
       /\ json_loads stdout = Some (JObj envelope)
       /\ record = success_record task condition run_id model envelope
                     (elapsed inv))
  /\ (forall task condition run_id model envelope wall,
        numeric_envelope envelope ->
        let record := success_record task condition run_id model envelope wall in
        Py.has "error" record = false
        /\ exists loaded report,
             with_total_input_tokens record = Ok loaded
             /\ aggregate [loaded] = Ok report
             /\ map entry_key report = [(id task, condition)]).
Proof.
  split; [exact run_result_success |].
  intros task condition run_id model envelope wall Hn record.
  split; [reflexivity |].
  pose proof (success_record_analyzable task condition run_id model envelope wall Hn)
    as Ha.
  destruct (with_total_input_tokens_analyzable _ Ha) as [loaded [Hl Hla]].
  destruct (aggregate_accepts [loaded]) as [report Hr].
  { intros r [<- | []]. exact Hla. }
  exists loaded, report. split; [exact Hl |]. split; [exact Hr |].
  unfold aggregate in Hr. cbn [group_runs] in Hr.
  assert (Hk : group_key loaded = Ok (id task, condition)).
  { unfold with_total_input_tokens in Hl.
    destruct (py_add _ _) as [s|]; [| discriminate]. cbn [res_bind] in Hl.
    destruct (py_add _ _) as [total|]; [| discriminate]. cbn [res_bind] in Hl.
    inversion Hl. reflexivity. }
  rewrite Hk in Hr. cbn [res_bind group_add sort_by foldr insert_by] in Hr.
  apply make_entries_keys in Hr as [Hkeys _]. exact Hkeys.
Qed.

(** * Re-judging under [force] *)

(** No two result files share a name. *)
Lemma result_files_NoDup (w : world) : NoDup (map fst (result_files w)).
Proof.
  assert (Hperm : Permutation (result_files w) (map_to_list (cells w)))
    by apply sort_by_perm.
  rewrite (Permutation_map fst Hperm). apply NoDup_fst_map_to_list.
Qed.

Lemma NoDup_map_filter {A B} (f : A -> B) (p : A -> bool) (l : list A) :
  NoDup (map f l) -> NoDup (map f (List.filter p l)).
Proof.
  induction l as [|x l IH]; [auto |]. cbn [map List.filter].
  intros Hnd. apply NoDup_cons in Hnd as [Hx Hl].
  destruct (p x); [| now apply IH]. cbn [map]. apply NoDup_cons. split; [| now apply IH].
  intros Hin. apply Hx. apply list_elem_of_In in Hin. apply list_elem_of_In.
  apply in_map_iff in Hin as [y [Hy Hin]]. apply filter_In in Hin as [Hin _].
  rewrite <- Hy. now apply in_map.
Qed.

Lemma enumerate_from_lookup {A} (l : list A) (start k i : nat) (x : A) :
  combine (seq start (length l)) l !! k = Some (i, x) <->
  l !! k = Some x /\ i = (start + k)%nat.
Proof.
  revert start k. induction l as [|y l IH]; intros start k; cbn [length seq combine].
  - split; [discriminate | intros [Hl _]; discriminate Hl].
  - destruct k as [|k]; cbn [lookup list_lookup].
    + split.
      * intros [= <- <-]. split; [reflexivity | lia].
      * intros [[= <-] ->]. do 2 f_equal. lia.
    + rewrite IH. split; intros [Hl ->]; (split; [exact Hl | lia]).
Qed.

Lemma map_snd_combine_seq {A} (l : list A) (start : nat) :
  map snd (combine (seq start (length l)) l) = l.
Proof.
  revert start. induction l as [|y l IH]; intros start; [reflexivity |].
  cbn [length seq combine map snd]. now rewrite IH.
Qed.

Section Forced.
Context `{PyLib}.



End Forced.




(** * The keyword metric in the judge pass *)

Section KeywordPass.
Context `{PyLib}.

(** An iteration of a keywords-only pass on a record whose answer is a
    string, or absent. *)
Lemma judge_record_keyword_step tasks args n total i name data found answer w :
  j_keywords_only args = true ->
  find_task tasks data = Ok found ->
  Py.get "result_text" (JStr EmptyString) data = JStr answer ->
  judge_record tasks args n total (i, (name, data)) w
  = match found with
    | Some task =>
        if Str.nonempty answer
        then (Ok total,
              after w 0 name (with_keywords task answer data)
                    [EvWrite name (with_keywords task answer data)])
        else (Ok total, w)
    | None => (Ok total, w)
    end.
Proof.
  intros Hk Ht Ha. destruct found as [task|].
  - destruct answer as [|c0 answer].
    + unfold judge_record. rewrite Ht, bind_lift_ok, Ha. reflexivity.
    + rewrite (judge_record_unfold _ _ _ _ _ _ _ task (String c0 answer))
        by (assumption || discriminate).
      cbv zeta. rewrite Hk. cbn. unfold after. now rewrite Nat.add_0_r.
  - unfold judge_record. now rewrite Ht, bind_lift_ok.
Qed.

(** An answer that is neither empty nor a string makes the iteration
    raise. *)
Lemma judge_record_answer_not_a_string tasks args n total i name data task w :
  find_task tasks data = Ok (Some task) ->
  Py.truthy (Py.get "result_text" (JStr EmptyString) data) = true ->
  (forall s, Py.get "result_text" (JStr EmptyString) data <> JStr s) ->
  judge_record tasks args n total (i, (name, data)) w = (Raise AttributeError, w).
Proof.
  intros Ht Hy Hs. unfold judge_record. rewrite Ht, bind_lift_ok, Hy. cbn [negb].
  destruct (Py.get "result_text" (JStr EmptyString) data) as [| | | |s| |];
    try reflexivity.
  now destruct (Hs s).
Qed.

Lemma with_keyword_fields_spec tasks data found answer :
  find_task tasks data = Ok found ->
  Py.get "result_text" (JStr EmptyString) data = JStr answer ->
  with_keyword_fields tasks data
  = match found with
    | Some task =>
        if Str.nonempty answer then with_keywords task answer data else data
    | None => data
    end.
Proof. intros Ht Ha. unfold with_keyword_fields. now rewrite Ht, Ha. Qed.

Lemma well_typed_find_task tasks data :
  well_typed_record data ->
  exists found answer,
    find_task tasks data = Ok found
    /\ Py.get "result_text" (JStr EmptyString) data = JStr answer.
Proof.
  intros [[t Ht] [a Ha]]. exists (tasks !! t), a.
  split; [| exact Ha]. unfold find_task. now rewrite Ht.
Qed.

(** The loop of a keywords-only pass. *)
Lemma keywords_loop tasks args n :
  j_keywords_only args = true ->
  forall items total w,
    NoDup (map (fun item : nat * (string * dict) => fst (snd item)) items) ->
    (forall i name data, In (i, (name, data)) items ->
       well_typed_record data /\ cells w !! name = Some data) ->
    exists w',
      for_each (judge_record tasks args n) items total w = (Ok total, w')
      /\ spawned w' = spawned w
      /\ (forall i name data, In (i, (name, data)) items ->
            cells w' !! name = Some (with_keyword_fields tasks data))
      /\ (forall name,
            ~ In name (map (fun item : nat * (string * dict) => fst (snd item)) items) ->
            cells w' !! name = cells w !! name).
Proof.
  intros Hk. induction items as [|[i [name data]] items IH]; intros total w Hnd Hit.
  { exists w. split; [reflexivity |]. split; [reflexivity |].
    split; [intros i name data [] | reflexivity]. }
  cbn [map fst snd] in Hnd. apply NoDup_cons in Hnd as [Hfresh Hnd].
  destruct (Hit i name data (or_introl eq_refl)) as [Hwt Hstored].
  destruct (well_typed_find_task tasks data Hwt) as [found [answer [Ht Ha]]].
  cbn [for_each]. unfold bind at 1.
  rewrite (judge_record_keyword_step _ _ _ _ _ _ _ found answer) by assumption.
  assert (Hrest : forall w1,
            spawned w1 = spawned w ->
            cells w1 !! name = Some (match found with
                                     | Some task =>
                                         if Str.nonempty answer
                                         then with_keywords task answer data
                                         else data
                                     | None => data
                                     end) ->
            (forall name', name' <> name -> cells w1 !! name' = cells w !! name') ->
            exists w',
              for_each (judge_record tasks args n) items total w1 = (Ok total, w')
              /\ spawned w' = spawned w
              /\ (forall i0 n0 d0, In (i0, (n0, d0)) ((i, (name, data)) :: items) ->
                    cells w' !! n0 = Some (with_keyword_fields tasks d0))
              /\ (forall name',
                    ~ In name' (name :: map (fun item : nat * (string * dict) =>
                                               fst (snd item)) items) ->
                    cells w' !! name' = cells w !! name')).
  { intros w1 Hsp1 Hname Hother.
    assert (Hnotin : forall i0 n0 d0, In (i0, (n0, d0)) items -> n0 <> name).
    { intros i0 n0 d0 Hin Heq. subst n0. apply Hfresh. apply list_elem_of_In.
      apply in_map_iff. now exists (i0, (name, d0)). }
    destruct (IH total w1 Hnd) as [w' [Hloop [Hsp [Hin Hout]]]].
    { intros i0 n0 d0 Hi. destruct (Hit i0 n0 d0 (or_intror Hi)) as [Hw0 Hs0].
      split; [exact Hw0 |]. rewrite Hother; [exact Hs0 |]. now apply (Hnotin i0 n0 d0). }
    exists w'. split; [exact Hloop |]. split; [congruence |]. split.
    - intros i0 n0 d0 [Heq | Hi]; [| now apply (Hin i0)].
      inversion Heq; subst i0 n0 d0.
      rewrite Hout by (intros Hn; apply Hfresh; now apply list_elem_of_In).
      rewrite Hname. now rewrite (with_keyword_fields_spec _ _ found answer).
    - intros name' Hn'. cbn [In] in Hn'.
      rewrite Hout by tauto. apply Hother. intros Heq. apply Hn'. now left. }
  destruct found as [task|]; [destruct (Str.nonempty answer) |].
  - apply Hrest.
    + cbn. apply Nat.add_0_r.
    + cbn. apply lookup_insert_eq.
    + intros name' Hne. cbn. now apply lookup_insert_ne.
  - apply Hrest; auto.
  - apply Hrest; auto.
Qed.

(** A keywords-only pass over a store of well-typed records. *)
Lemma keywords_pass catalogue args w :
  j_keywords_only args = true ->
  (forall name data, cells w !! name = Some data ->
     Py.has "error" data = true \/ well_typed_record data) ->
  exists total w',
    judge_main catalogue args w = (Ok total, w')
    /\ spawned w' = spawned w
    /\ cells w' = keyworded (judge_load_tasks catalogue) (j_tasks args) <$> cells w.
Proof.
  intros Hk Hall.
  destruct (select_results_ok (j_tasks args) (result_files w) ) as [sel [Hsel _]].
  { intros name data Hd. apply In_result_files in Hd. now apply (Hall name). }
  pose proof (select_results_filter _ _ _ Hsel) as Hchosen.
  set (chosen := List.filter (fun f => selects (j_tasks args) (snd f)) (result_files w))
    in *.
  subst sel.
  destruct (keywords_loop (judge_load_tasks catalogue) args (length chosen) Hk
              (enumerate chosen) 0%Q w) as [w' [Hloop [Hsp [Hin Hout]]]].
  { unfold enumerate.
    rewrite <- (map_map snd fst), map_snd_combine_seq.
    apply NoDup_map_filter, result_files_NoDup. }
  { intros i name data Hi. apply In_enumerate in Hi.
    apply filter_In in Hi as [Hi Hs]. apply In_result_files in Hi.
    split; [| exact Hi].
    destruct (Hall name data Hi) as [He | Hw]; [| exact Hw].
    unfold selects in Hs. cbn [snd] in Hs. rewrite He in Hs. discriminate Hs. }
  assert (Hnames : map (fun item : nat * (string * dict) => fst (snd item))
                       (enumerate chosen) = map fst chosen).
  { unfold enumerate. now rewrite <- (map_map snd fst), map_snd_combine_seq. }
  assert (Hitems : forall name data, In (name, data) chosen ->
            exists i, In (i, (name, data)) (enumerate chosen)).
  { intros name data Hi. apply list_elem_of_In, list_elem_of_lookup in Hi as [k Hk'].
    exists k. apply list_elem_of_In, list_elem_of_lookup. exists k.
    unfold enumerate. apply enumerate_from_lookup. now split. }
  assert (Hstore : cells w'
                   = keyworded (judge_load_tasks catalogue) (j_tasks args) <$> cells w).
  { apply map_eq. intros name. rewrite lookup_fmap.
    destruct (cells w !! name) as [data|] eqn:Hd; cbn [fmap option_fmap option_map].
    - unfold keyworded. destruct (selects (j_tasks args) data) eqn:Hs.
      + destruct (Hitems name data) as [i Hi].
        { apply filter_In. split; [now apply In_result_files | exact Hs]. }
        now apply (Hin i).
      + rewrite Hout; [exact Hd |]. rewrite Hnames. intros Hn.
        apply in_map_iff in Hn as [[n0 d0] [Heq Hn]]. cbn in Heq. subst n0.
        apply filter_In in Hn as [Hn Hs0]. apply In_result_files in Hn.
        cbn [snd] in Hs0. congruence.
    - rewrite Hout; [exact Hd |]. rewrite Hnames. intros Hn.
      apply in_map_iff in Hn as [[n0 d0] [Heq Hn]]. cbn in Heq. subst n0.
      apply filter_In in Hn as [Hn _]. apply In_result_files in Hn. congruence. }
  unfold judge_main, judge_load_results, bind at 1. rewrite Hsel.
  destruct chosen as [|item rest] eqn:Hch.
  { cbn in Hloop. inversion Hloop; subst w'.
    exists None, w. split; [reflexivity |]. split; [reflexivity | exact Hstore]. }
  unfold bind. rewrite Hloop.
  exists (Some 0%Q), w'. split; [reflexivity |]. split; [exact Hsp | exact Hstore].
Qed.

End KeywordPass.

(** C9 (as amended). For every keyword list and every selected record whose
    answer text is a string or absent, the keyword metric does not fail.  In
    a keywords-only pass the iteration on such a record returns without
    raising and without an external call: when the task of the record is in
    the catalogue and the answer is not empty, the record is written back
    with its hit count, the number of keywords and the hit list, which is a
    sub-list of the keywords with as many elements as the count says; when
    the answer is missing or empty, or the task unknown, the record is
    skipped before the metric is computed and left as it is.  A whole
    keywords-only pass over a store whose success records have a string for
    task id and a string or nothing for answer text ends normally, without
    external call, and changes the store in exactly this way.  On the empty
    text the hits of [count_keyword_hits] are the keywords that are
    themselves the empty string, so it yields zero hits and an empty hit
    list when no expected keyword is empty.  On a record of a known task
    whose answer text is neither empty nor a string the iteration raises
    [AttributeError], in every mode. *)
Theorem keyword_metric_total_and_empty_text `{PyLib} :
  (forall tasks args n total i name data found answer w,
     j_keywords_only args = true ->
     find_task tasks data = Ok found ->
     Py.get "result_text" (JStr EmptyString) data = JStr answer ->
     judge_record tasks args n total (i, (name, data)) w
     = match found with
       | Some task =>
           if Str.nonempty answer
           then (Ok total,
                 after w 0 name (with_keywords task answer data)
                       [EvWrite name (with_keywords task answer data)])
           else (Ok total, w)
       | None => (Ok total, w)
       end)
  /\ (forall task answer data,
        let hits := count_keyword_hits answer (expected_answer_keywords task) in
        Py.lookup "keyword_hits" (with_keywords task answer data)
        = Some (JInt (Z.of_nat (fst hits)))
        /\ Py.lookup "keyword_total" (with_keywords task answer data)
           = Some (JInt (Z.of_nat (length (expected_answer_keywords task))))
        /\ Py.lookup "keyword_list" (with_keywords task answer data)
           = Some (JArr (map JStr (snd hits)))
        /\ fst hits = length (snd hits)
        /\ sublist (snd hits) (expected_answer_keywords task))
  /\ (forall catalogue args w,
        j_keywords_only args = true ->
        (forall name data, cells w !! name = Some data ->
           Py.has "error" data = true \/ well_typed_record data) ->
        exists total w',
          judge_main catalogue args w = (Ok total, w')
          /\ spawned w' = spawned w
          /\ cells w'
             = keyworded (judge_load_tasks catalogue) (j_tasks args) <$> cells w)
  /\ (forall keywords : list string,
        snd (count_keyword_hits EmptyString keywords)
        = filter (fun kw => kw = EmptyString) keywords)
  /\ (forall keywords : list string,
        (forall kw, kw ∈ keywords -> kw <> EmptyString) ->
        count_keyword_hits EmptyString keywords = (0%nat, []))
  /\ (forall tasks args n total i name data task w,
        find_task tasks data = Ok (Some task) ->
        Py.truthy (Py.get "result_text" (JStr EmptyString) data) = true ->
        (forall s, Py.get "result_text" (JStr EmptyString) data <> JStr s) ->
        judge_record tasks args n total (i, (name, data)) w
        = (Raise AttributeError, w)).
Proof.
  pose proof ci_substring_dec as dec.
  assert (Hempty : forall keywords : list string,
             @filter _ _ _ (fun kw => ci_substring kw EmptyString)
                     (fun kw => dec kw EmptyString) keywords
             = filter (fun kw => kw = EmptyString) keywords).
  { intros keywords. apply list_filter_iff. intros kw.
    apply ci_substring_empty_text. }
  split; [| split; [| split; [| split; [| split]]]].
  - intros. now apply judge_record_keyword_step.
  - intros task answer data hits. unfold with_keywords. fold hits.
    split; [now rewrite !lookup_set_ne, lookup_set_eq by discriminate |].
    split; [now rewrite !lookup_set_ne, lookup_set_eq by discriminate |].
    split; [now rewrite lookup_set_eq |].
    apply count_keyword_hits_sublist.
  - intros. now apply keywords_pass.
  - intros keywords.
    rewrite (@count_keyword_hits_filter EmptyString keywords (fun kw => dec kw EmptyString)).
    simpl. apply Hempty.
  - intros keywords Hne.
    rewrite (@count_keyword_hits_filter EmptyString keywords (fun kw => dec kw EmptyString)), Hempty.
    assert (Hnil : filter (fun kw : string => kw = EmptyString) keywords = []).
    { induction keywords as [|kw r IH]; [reflexivity |].
      rewrite filter_cons. destruct (decide (kw = EmptyString)) as [He|_].
      - exfalso. apply (Hne kw); [left | exact He].
      - apply IH. intros kw' Hin. apply Hne. now right. }
    now rewrite Hnil.
  - intros tasks args n total i name data task w Ht Hy Hs.
    now apply (judge_record_answer_not_a_string _ _ _ _ _ _ _ task).
Qed.

(** C9 on a stored record of the example task: a keywords-only pass ends
    normally and stores two hits for it.  And the empty text has no hit
    among the keywords Queue, Retry. *)
Lemma keyword_metric_total_and_empty_text_witness :
  let name := "T1_baseline_run1.json" in
  let w := example_world [(name, example_record [])] [] in
  (exists total w' data',
     @judge_main example_lib [example_task] (judge_args false true) w = (Ok total, w')
     /\ spawned w' = 0%nat
     /\ cells w' !! name = Some data'
     /\ Py.lookup "keyword_hits" data' = Some (JInt 2))
  /\ count_keyword_hits EmptyString ["Queue"; "Retry"] = (0%nat, []).
Proof.
  intros name w.
  pose proof (@keyword_metric_total_and_empty_text example_lib)
    as [_ [_ [Hpass [_ [Hnone _]]]]].
  split.
  - destruct (Hpass [example_task] (judge_args false true) w)
      as [total [w' [Hrun [Hsp Hstore]]]]; [reflexivity | |].
    + intros n d Hd. right.
      assert (d = example_record []) as ->.
      { unfold w, example_world in Hd. cbn [cells list_to_map foldr] in Hd.
        apply lookup_insert_Some in Hd as [[_ Hd] | [_ Hd]]; [now symmetry |].
        rewrite lookup_empty in Hd. discriminate Hd. }
      split; [exists "T1" | exists "uses a retry strategy with a QUEUE"]; reflexivity.
    + eexists total, w', _. split; [exact Hrun |]. split; [exact Hsp |].
      rewrite Hstore, lookup_fmap.
      split; [vm_compute; reflexivity | vm_compute; reflexivity].
  - apply Hnone. intros kw Hin Hkw. subst kw. revert Hin. vm_compute.
    intros Hin. inversion Hin as [|? ? ? Hin']; subst.
    inversion Hin' as [|? ? ? Hin'']; subst. inversion Hin''.
Defined.

(** C9 as stated fails.  A keywords-only judge pass over a stored record
    whose answer text is empty skips the record: no hit count is produced,
    and the stored record has no keyword fields afterwards.  On the empty
    text an empty keyword is a hit of [count_keyword_hits].  And the metric
    has a failure mode: an envelope whose result is the number 7 gives a
    success record with that number for answer text, on which the pass
    raises [AttributeError]. *)
Lemma keyword_hits_on_empty_text_counterexample :
  let blank := [ ("task_id", JStr "T1"); ("condition", JStr "baseline");
                 ("run_id", JInt 1); ("result_text", JStr EmptyString) ] in
  let w := example_world [("T1_baseline_run1.json", blank)] [] in
  let pass := @judge_main example_lib [example_task] (judge_args false true) w in
  (fst pass = Ok (Some 0%Q)
   /\ cells (snd pass) !! "T1_baseline_run1.json" = Some blank
   /\ Py.lookup "keyword_hits" blank = None)
  /\ ~ (forall keywords : list string,
          count_keyword_hits EmptyString keywords = (0%nat, []))
  /\ count_keyword_hits EmptyString [EmptyString; "Queue"]
     = (1%nat, [EmptyString])
  /\ exists record,
       @run_result example_lib example_task "baseline" 1 "sonnet"
         (prints (text "{'result': 7}")) = Ok record
       /\ Py.lookup "result_text" record = Some (JInt 7)
       /\ fst (@judge_main example_lib [example_task] (judge_args false true)
                 (example_world [("T1_baseline_run1.json", record)] []))
          = Raise AttributeError.
Proof.
  cbv zeta. split; [| split; [| split; [reflexivity |]]].
  - split; [vm_compute; reflexivity |]. split; vm_compute; reflexivity.
  - intros Hall. specialize (Hall [EmptyString; "Queue"]). discriminate Hall.
  - eexists. split; [vm_compute; reflexivity |].
    split; vm_compute; reflexivity.
Qed.
